(** * Kathara lab.conf to SVG converter: model of [v2_kathara_to_svg.py]

    The development follows the source file class by class:
    [Node], [Connection], [KatharaParser], [SVGGenerator].

    Conventions of the embedding.
    - A Python [str] is a [string] of 8-bit characters; [lower], [upper],
      [isdigit], [strip] and the class [\w] are the ASCII ones.  They are
      those of Python on ASCII text, and differ from them on other text;
      the properties that depend on how the text of a file is read are
      stated for ASCII text ([ascii_text]).
    - A Python [float] is a real number: arithmetic is exact, rounding is
      not modelled.  The textual form of a float is left to a parameter of
      the renderer.  Where a property reads a test that the program makes
      on floats, it is stated on the program's own expression.
    - The conversion of an int beyond the float range raises
      [OverflowError].  The title, which halves the width, is modelled
      with it ([int_half]).  The layout is modelled on a canvas within
      the float range, and the properties that say that the layout or
      the renderer returns take such a canvas as hypothesis
      ([float_canvas]).
    - [KatharaParser.nodes] and [KatharaParser.connections] are dicts that
      the program iterates over, so they are association lists in
      insertion order.  [Node.properties], [Node.interfaces] and
      [lab_info] are only looked up by key: they are [gmap]s.
    - The parser holds exactly one [Node] object per name, and every other
      place that holds a node (a membership entry of a connection, the
      [routers] list of the layout) holds a reference to that object.  A
      reference is modelled by the node's name, and read through the
      parser's dict, so that a mutation of the node is seen everywhere.
    - An exception is a value of [exn]; code that can raise returns a
      [result]. *)

From Stdlib Require Import String Ascii List ZArith Lia Reals Lra.
From Stdlib Require Import Numbers.DecimalString.
From stdpp Require Import base option list gmap strings.

Import ListNotations.
Local Open Scope string_scope.

(** ** Python string primitives *)

Module PyStr.

Definition dq : ascii := ascii_of_nat 34.
Definition nl : ascii := ascii_of_nat 10.

(** String templates of the source are written with ['] for the double
    quote character; [q] puts the double quotes back.  No template of
    the source contains a ['] of its own. *)
Fixpoint q (s : string) : string :=
  match s with
  | EmptyString => EmptyString
  | String c s' => String (if Ascii.eqb c "'" then dq else c) (q s')
  end.

Definition in_range (lo hi : nat) (c : ascii) : bool :=
  (lo <=? nat_of_ascii c)%nat && (nat_of_ascii c <=? hi)%nat.

Definition is_upper (c : ascii) : bool := in_range 65 90 c.
Definition is_lower (c : ascii) : bool := in_range 97 122 c.
Definition is_digit (c : ascii) : bool := in_range 48 57 c.

(** [\w] *)
Definition is_word (c : ascii) : bool :=
  is_upper c || is_lower c || is_digit c || Ascii.eqb c "_".

(** the characters removed by [str.strip()] *)
Definition is_space (c : ascii) : bool :=
  in_range 9 13 c || in_range 28 32 c.

Definition lower_char (c : ascii) : ascii :=
  if is_upper c then ascii_of_nat (nat_of_ascii c + 32) else c.
Definition upper_char (c : ascii) : ascii :=
  if is_lower c then ascii_of_nat (nat_of_ascii c - 32) else c.

Fixpoint map_chars (f : ascii -> ascii) (s : string) : string :=
  match s with
  | EmptyString => EmptyString
  | String c s' => String (f c) (map_chars f s')
  end.

(** [s.lower()], [s.upper()] *)
Definition lower : string -> string := map_chars lower_char.
Definition upper : string -> string := map_chars upper_char.

(** [s.startswith(p)] *)
Definition startswith (p s : string) : bool := String.prefix p s.

(** [kw in s] *)
Fixpoint contains (kw s : string) : bool :=
  String.prefix kw s ||
  match s with
  | EmptyString => false
  | String _ s' => contains kw s'
  end.

(** [any(keyword in s for keyword in kws)] *)
Definition any_in (kws : list string) (s : string) : bool :=
  existsb (fun kw => contains kw s) kws.

Fixpoint forall_chars (p : ascii -> bool) (s : string) : bool :=
  match s with
  | EmptyString => true
  | String c s' => p c && forall_chars p s'
  end.

(** [s.isdigit()]: false on the empty string *)
Definition isdigit (s : string) : bool :=
  match s with
  | EmptyString => false
  | _ => forall_chars is_digit s
  end.

(** longest prefix of characters satisfying [p], and the rest *)
Fixpoint span (p : ascii -> bool) (s : string) : string * string :=
  match s with
  | EmptyString => (EmptyString, EmptyString)
  | String c s' =>
      if p c then let '(a, b) := span p s' in (String c a, b)
      else (EmptyString, s)
  end.

Fixpoint lstrip_by (p : ascii -> bool) (s : string) : string :=
  match s with
  | EmptyString => EmptyString
  | String c s' => if p c then lstrip_by p s' else s
  end.

Fixpoint rstrip_by (p : ascii -> bool) (s : string) : string :=
  match s with
  | EmptyString => EmptyString
  | String c s' =>
      match rstrip_by p s' with
      | EmptyString => if p c then EmptyString else String c EmptyString
      | r => String c r
      end
  end.

(** [s.strip()] and [s.strip(ch)] *)
Definition strip (s : string) : string := rstrip_by is_space (lstrip_by is_space s).
Definition strip_char (ch : ascii) (s : string) : string :=
  rstrip_by (Ascii.eqb ch) (lstrip_by (Ascii.eqb ch) s).

(** [s.split(sep, 1)] for a one-character separator: one piece when
    the separator does not occur, two otherwise. *)
Fixpoint split1 (sep : ascii) (s : string) : list string :=
  match s with
  | EmptyString => [EmptyString]
  | String c s' =>
      if Ascii.eqb c sep then [EmptyString; s']
      else match split1 sep s' with
           | a :: rest => String c a :: rest
           | [] => []
           end
  end.

(** [str(n)] for an int *)
Definition str_int (n : Z) : string := NilZero.string_of_int (Z.to_int n).

End PyStr.

Import PyStr.

(** ** Exceptions *)

Inductive exn := ValueError | ZeroDivisionError | OverflowError.

Inductive result (A : Type) : Type :=
| Ok (a : A)
| Raise (e : exn).
Arguments Ok {A} a.
Arguments Raise {A} e.

#[global] Instance result_ret : MRet result := fun A a => Ok a.
#[global] Instance result_bind : MBind result := fun A B f m =>
  match m with
  | Ok a => f a
  | Raise e => Raise e
  end.

(** ** Insertion-ordered dicts with [str] keys *)

Module Dict.

Section Ops.
Context {V : Type}.

(** [d.get(k)] *)
Fixpoint get (k : string) (d : list (string * V)) : option V :=
  match d with
  | [] => None
  | (k', v) :: d' => if String.eqb k k' then Some v else get k d'
  end.

(** [k in d] *)
Definition mem (k : string) (d : list (string * V)) : bool :=
  match get k d with Some _ => true | None => false end.

(** [d[k] = v]: a known key keeps its place, a new one goes last *)
Fixpoint set (k : string) (v : V) (d : list (string * V)) : list (string * V) :=
  match d with
  | [] => [(k, v)]
  | (k', v') :: d' =>
      if String.eqb k k' then (k', v) :: d' else (k', v') :: set k v d'
  end.

(** mutation of the object stored under [k] *)
Fixpoint alter (f : V -> V) (k : string) (d : list (string * V)) : list (string * V) :=
  match d with
  | [] => []
  | (k', v) :: d' =>
      if String.eqb k k' then (k', f v) :: d' else (k', v) :: alter f k d'
  end.

Definition keys (d : list (string * V)) : list string := map fst d.
Definition values (d : list (string * V)) : list V := map snd d.

(** [for v in d.values(): v.f()], each call touching its own object *)
Definition map_values (f : V -> V) (d : list (string * V)) : list (string * V) :=
  map (fun kv => (fst kv, f (snd kv))) d.
End Ops.

End Dict.

(** ** class Node *)

Inductive NodeType := Unknown | Router | Pc | Server | Switch.

#[global] Instance NodeType_eq_dec : EqDecision NodeType.
Proof. solve_decision. Defined.

Module Node.

Record t := mk {
  name : string;
  image : string;
  interfaces : gmap string string;
  properties : gmap string string;
  x : R;
  y : R;
  node_type : NodeType
}.

(** [Node.__init__] *)
Definition init (nm : string) : t :=
  {| name := nm; image := ""; interfaces := ∅; properties := ∅;
     x := 0%R; y := 0%R; node_type := Unknown |}.

Definition set_image (v : string) (n : t) : t :=
  {| name := name n; image := v; interfaces := interfaces n;
     properties := properties n; x := x n; y := y n; node_type := node_type n |}.

Definition set_node_type (ty : NodeType) (n : t) : t :=
  {| name := name n; image := image n; interfaces := interfaces n;
     properties := properties n; x := x n; y := y n; node_type := ty |}.

Definition set_pos (px py : R) (n : t) : t :=
  {| name := name n; image := image n; interfaces := interfaces n;
     properties := properties n; x := px; y := py; node_type := node_type n |}.

Definition add_interface (interface collision_domain : string) (n : t) : t :=
  {| name := name n; image := image n;
     interfaces := <[interface := collision_domain]> (interfaces n);
     properties := properties n; x := x n; y := y n; node_type := node_type n |}.

Definition add_property (prop value : string) (n : t) : t :=
  {| name := name n; image := image n; interfaces := interfaces n;
     properties := <[prop := value]> (properties n);
     x := x n; y := y n; node_type := node_type n |}.

(** the type [classify_node] assigns, from the name and the image *)
Definition classified_type (nm img : string) : NodeType :=
  let name_lower := lower nm in
  let image_lower := lower img in
  if any_in ["router"; "r1"; "r2"; "r3"; "r4"; "r5"] name_lower then
    if any_in ["frr"; "quagga"; "bird"] image_lower then Router else Router
  else if any_in ["pc"; "host"; "client"] name_lower then Pc
  else if any_in ["server"; "snmp"; "manager"; "zabbix"] name_lower then Server
  else if any_in ["switch"; "sw"] name_lower then Switch
  else
    if any_in ["frr"; "quagga"; "bird"; "router"] image_lower then Router
    else if any_in ["alpine"; "ubuntu"; "debian"] image_lower then Pc
    else if any_in ["server"; "zabbix"] image_lower then Server
    else Pc.

Definition classify_node (n : t) : t :=
  set_node_type (classified_type (name n) (image n)) n.

End Node.

(** A node reference, read through the parser's dict of nodes. *)
Definition is_router (heap : list (string * Node.t)) (ref : string) : bool :=
  match Dict.get ref heap with
  | Some n => bool_decide (Node.node_type n = Router)
  | None => false
  end.

(** ** class Connection *)

Inductive ConnType := Lan | P2p | Ring.

#[global] Instance ConnType_eq_dec : EqDecision ConnType.
Proof. solve_decision. Defined.

Module Connection.

Record t := mk {
  collision_domain : string;
  nodes : list (string * string);   (* (node reference, interface) *)
  connection_type : ConnType
}.

(** [Connection.__init__] *)
Definition init (cd : string) : t :=
  {| collision_domain := cd; nodes := []; connection_type := Lan |}.

Definition add_node (node interface : string) (c : t) : t :=
  {| collision_domain := collision_domain c;
     nodes := nodes c ++ [(node, interface)];
     connection_type := connection_type c |}.

Definition set_connection_type (ty : ConnType) (c : t) : t :=
  {| collision_domain := collision_domain c; nodes := nodes c;
     connection_type := ty |}.

(** [sum(1 for node, _ in self.nodes if node.node_type == "router")] *)
Definition router_count (heap : list (string * Node.t)) (c : t) : nat :=
  length (List.filter (fun m => is_router heap (fst m)) (nodes c)).

Definition classify_connection (heap : list (string * Node.t)) (c : t) : t :=
  if (length (nodes c) =? 2)%nat then set_connection_type P2p c
  else if (2 <? length (nodes c))%nat then
    if (router_count heap c =? 2)%nat then set_connection_type Ring c
    else set_connection_type Lan c
  else c.

End Connection.

(** ** class KatharaParser *)

Module KatharaParser.

Record t := mk {
  lab_info : gmap string string;
  nodes : list (string * Node.t);
  connections : list (string * Connection.t)
}.

(** [KatharaParser.__init__] *)
Definition init : t :=
  {| lab_info := ∅; nodes := []; connections := [] |}.

Definition set_lab_info (li : gmap string string) (self : t) : t :=
  {| lab_info := li; nodes := nodes self; connections := connections self |}.
Definition set_nodes (ns : list (string * Node.t)) (self : t) : t :=
  {| lab_info := lab_info self; nodes := ns; connections := connections self |}.
Definition set_connections (cs : list (string * Connection.t)) (self : t) : t :=
  {| lab_info := lab_info self; nodes := nodes self; connections := cs |}.

(** [re.match(pattern, line)] for the pattern of node declarations,
    word characters, a bracketed group free of closing brackets, an
    equal sign, an optional double quote, a run free of double quotes,
    an optional double quote: the three groups, or [None].  Every
    repetition of the pattern is followed by a character outside its
    class or by nothing, so the greedy match is the only one. *)
Definition re_match (line : string) : option (string * string * string) :=
  let '(node_name, r1) := span is_word line in
  match node_name, r1 with
  | String _ _, String "["%char r2 =>
      let '(property_name, r3) := span (fun c => negb (Ascii.eqb c "]")) r2 in
      match property_name, r3 with
      | String _ _, String "]"%char (String "="%char r4) =>
          let r5 := match r4 with
                    | String c r => if Ascii.eqb c dq then r else r4
                    | EmptyString => r4
                    end in
          let '(value, _) := span (fun c => negb (Ascii.eqb c dq)) r5 in
          Some (node_name, property_name, value)
      | _, _ => None
      end
  | _, _ => None
  end.

Definition _add_connection (collision_domain node interface : string) (self : t) : t :=
  let self :=
    if Dict.mem collision_domain (connections self) then self
    else set_connections
           (Dict.set collision_domain (Connection.init collision_domain) (connections self))
           self in
  set_connections
    (Dict.alter (Connection.add_node node interface) collision_domain (connections self))
    self.

Definition _parse_line (self : t) (line : string) : result t :=
  if startswith "LAB_" line then
    match split1 "=" line with
    | [key; value] =>
        Ok (set_lab_info (<[key := strip_char dq value]> (lab_info self)) self)
    | _ => Raise ValueError
    end
  else
    match re_match line with
    | Some (node_name, property_name, value) =>
        let self :=
          if Dict.mem node_name (nodes self) then self
          else set_nodes (Dict.set node_name (Node.init node_name) (nodes self)) self in
        let node := node_name in
        if String.eqb property_name "image" then
          Ok (set_nodes (Dict.alter (Node.set_image value) node (nodes self)) self)
        else if isdigit property_name then
          let self :=
            set_nodes (Dict.alter (Node.add_interface property_name value) node (nodes self))
                      self in
          Ok (_add_connection value node property_name self)
        else
          Ok (set_nodes (Dict.alter (Node.add_property property_name value) node (nodes self))
                        self)
    | None => Ok self
    end.

Definition _classify_nodes_and_connections (self : t) : t :=
  let self := set_nodes (Dict.map_values Node.classify_node (nodes self)) self in
  set_connections
    (Dict.map_values (Connection.classify_connection (nodes self)) (connections self))
    self.

(** the loop of [parse] over the lines read from the file *)
Fixpoint parse_lines (self : t) (lines : list string) : result t :=
  match lines with
  | [] => Ok self
  | line :: rest =>
      let line := strip line in
      if String.eqb line "" || startswith "#" line then parse_lines self rest
      else self ← _parse_line self line; parse_lines self rest
  end.

(** [parse], on the result of [f.readlines()] *)
Definition parse (lines : list string) : result t :=
  self ← parse_lines init lines;
  Ok (_classify_nodes_and_connections self).

End KatharaParser.

(** ** class SVGGenerator *)

Module SVGGenerator.

Record t := mk {
  parser : KatharaParser.t;
  width : Z;
  height : Z;
  margin : Z
}.

(** [SVGGenerator.__init__] *)
Definition init (parser : KatharaParser.t) (width height : Z) : t :=
  {| parser := parser; width := width; height := height; margin := 50 |}.

Definition heap (self : t) : list (string * Node.t) :=
  KatharaParser.nodes (parser self).

(** the nodes are the only part of the state that the layout mutates *)
Definition set_heap (h : list (string * Node.t)) (self : t) : t :=
  {| parser := KatharaParser.set_nodes h (parser self);
     width := width self; height := height self; margin := margin self |}.

(** the object behind a reference; a reference held by the program
    always points into the dict *)
Definition deref (h : list (string * Node.t)) (ref : string) : Node.t :=
  default (Node.init ref) (Dict.get ref h).

(** [ref in refs], for lists of node references *)
Definition ref_in (ref : string) (refs : list string) : bool :=
  existsb (String.eqb ref) refs.

(** [refs.index(ref)], asked only for a member of the list *)
Fixpoint index (ref : string) (refs : list string) : Z :=
  match refs with
  | [] => 0
  | r :: rest => if String.eqb r ref then 0 else 1 + index ref rest
  end.

(** [[node for node in self.parser.nodes.values() if p(node.node_type)]] *)
Definition select (p : NodeType -> bool) (h : list (string * Node.t)) : list string :=
  map fst (List.filter (fun kv => p (Node.node_type (snd kv))) h).

Definition routers_of (h : list (string * Node.t)) : list string :=
  select (fun ty => bool_decide (ty = Router)) h.
Definition other_nodes_of (h : list (string * Node.t)) : list string :=
  select (fun ty => negb (bool_decide (ty = Router))) h.

Definition _has_ring_topology (self : t) (routers : list string) : bool :=
  if (length routers <? 3)%nat then false
  else
    let ring_connections :=
      fold_left
        (fun ring_connections kc =>
           let router_nodes :=
             List.filter (is_router (heap self)) (map fst (Connection.nodes (snd kc))) in
           if (length router_nodes =? 2)%nat then (ring_connections + 1)%nat
           else ring_connections)
        (KatharaParser.connections (parser self)) 0%nat in
    (length routers <=? ring_connections)%nat.

Fixpoint find_in_connections (conns : list (string * Connection.t))
    (node : string) (routers : list string) : option string :=
  match conns with
  | [] => None
  | (_, connection) :: rest =>
      let nodes_in_connection := map fst (Connection.nodes connection) in
      if ref_in node nodes_in_connection then
        match List.find (fun router => ref_in router nodes_in_connection) routers with
        | Some router => Some router
        | None => find_in_connections rest node routers
        end
      else find_in_connections rest node routers
  end.

Definition _find_connected_router (self : t) (node : string) (routers : list string)
  : option string :=
  find_in_connections (KatharaParser.connections (parser self)) node routers.

Section RingLayout.
Variable self : t.
Variables routers other_nodes : list string.

Definition center_x : R := (IZR (width self) / 2)%R.
Definition center_y : R := (IZR (height self) / 2)%R.
Definition ring_radius : R := (IZR (Z.min (width self) (height self)) * 0.25)%R.

Definition angle (i : nat) : R :=
  (2 * PI * INR i / INR (length routers) - PI / 2)%R.

(** [for i, router in enumerate(routers)], from index [i] on *)
Fixpoint place_routers (i : nat) (rs : list string) (h : list (string * Node.t))
  : list (string * Node.t) :=
  match rs with
  | [] => h
  | router :: rest =>
      place_routers (S i) rest
        (Dict.alter
           (Node.set_pos (center_x + ring_radius * cos (angle i))
                         (center_y + ring_radius * sin (angle i)))
           router h)
  end.

(** the body of [for node in other_nodes] *)
Definition place_other (h : list (string * Node.t)) (node : string)
  : list (string * Node.t) :=
  match _find_connected_router self node routers with
  | Some connected_router =>
      let cr := deref h connected_router in
      let dx := (Node.x cr - center_x)%R in
      let dy := (Node.y cr - center_y)%R in
      let length := sqrt (dx * dx + dy * dy) in
      if Rlt_dec 0 length then
        let dx := (dx / length)%R in
        let dy := (dy / length)%R in
        Dict.alter (Node.set_pos (Node.x cr + dx * 100) (Node.y cr + dy * 100)) node h
      else
        Dict.alter (Node.set_pos (Node.x cr) (Node.y cr - 100)) node h
  | None =>
      Dict.alter
        (Node.set_pos
           (center_x + IZR (Z.of_nat (length other_nodes) - index node other_nodes) * 50)
           (center_y + 200))
        node h
  end.

Definition _layout_ring_topology : t :=
  let h := place_routers 0 routers (heap self) in
  let h := fold_left place_other other_nodes h in
  set_heap h self.
End RingLayout.

Section Hierarchical.
Variable self : t.

(** [math.ceil(a / b)] for ints [a >= 0], [b > 0] *)
Definition ceil_div (a b : nat) : nat := ((a + b - 1) / b)%nat.

(** [for i, node in enumerate(all_nodes)], from index [i] on; [/], [//]
    and [%] raise on a zero divisor *)
Fixpoint place_grid (count cols i : nat) (ns : list string) (h : list (string * Node.t))
  : result (list (string * Node.t)) :=
  match ns with
  | [] => Ok h
  | node :: rest =>
      if (cols =? 0)%nat then Raise ZeroDivisionError
      else
        let row := (i / cols)%nat in
        let col := (i mod cols)%nat in
        let rows := ceil_div count cols in
        if (rows =? 0)%nat then Raise ZeroDivisionError
        else
          let px := (IZR (margin self)
                     + IZR (width self - 2 * margin self) * (INR col + 0.5) / INR cols)%R in
          let py := (IZR (margin self + 100)
                     + IZR (height self - 2 * margin self - 200) * (INR row + 0.5)
                       / INR rows)%R in
          place_grid count cols (S i) rest (Dict.alter (Node.set_pos px py) node h)
  end.

Definition _layout_hierarchical (routers other_nodes : list string) : result t :=
  let all_nodes := (routers ++ other_nodes)%list in
  (* math.ceil(math.sqrt(len(all_nodes))) *)
  let cols := Nat.sqrt_up (length all_nodes) in
  h ← place_grid (length all_nodes) cols 0 all_nodes (heap self);
  Ok (set_heap h self).
End Hierarchical.

Definition _layout_nodes (self : t) : result t :=
  let routers := routers_of (heap self) in
  let other_nodes := other_nodes_of (heap self) in
  if _has_ring_topology self routers then
    Ok (_layout_ring_topology self routers other_nodes)
  else
    _layout_hierarchical self routers other_nodes.

(** *** Rendering

    A template of the source is the list of its lines, each followed by
    a newline. *)

Fixpoint unlines (ls : list string) : string :=
  match ls with
  | [] => ""
  | l :: rest => l ++ String nl (unlines rest)
  end.

(** [sum(xs)] over floats *)
Definition sum (xs : list R) : R := fold_left Rplus xs 0%R.

(** [n / 2] for an int [n]: the true division rounds the quotient to
    the nearest float and raises [OverflowError] when that is beyond the
    largest float, [2^1024 - 2^971] *)
Definition int_half (n : Z) : result R :=
  if (Z.abs n <? 2 ^ 1025 - 2 ^ 971)%Z then Ok (IZR n / 2)%R
  else Raise OverflowError.

Section Render.
(** the text of a float in an f-string *)
Variable float_str : R -> string.

Definition _create_svg_header (self : t) : string :=
  unlines
    [ q "<?xml version='1.0' encoding='UTF-8'?>";
      q "<svg viewBox='0 0 " ++ str_int (width self) ++ " " ++ str_int (height self)
        ++ q "' xmlns='http://www.w3.org/2000/svg'>";
      "  <!-- Background -->";
      q "  <rect width='" ++ str_int (width self) ++ q "' height='"
        ++ str_int (height self) ++ q "' fill='#f8f9fa'/>" ].

Definition _create_svg_footer (self : t) : string := "</svg>".

Definition _create_title (self : t) : result string :=
  let lab_name :=
    default "Kathara Network" (KatharaParser.lab_info (parser self) !! "LAB_NAME") in
  let lab_desc :=
    default "Network Topology" (KatharaParser.lab_info (parser self) !! "LAB_DESCRIPTION") in
  x1 ← int_half (width self);
  x2 ← int_half (width self);
  Ok (unlines
        [ "";
          "  <!-- Title -->";
          q "  <text x='" ++ float_str x1
            ++ q "' y='30' text-anchor='middle' font-family='Arial, sans-serif' font-size='20' font-weight='bold' fill='black'>";
          "    " ++ lab_name;
          "  </text>";
          q "  <text x='" ++ float_str x2
            ++ q "' y='50' text-anchor='middle' font-family='Arial, sans-serif' font-size='14' fill='black'>";
          "    " ++ lab_desc;
          "  </text>" ]).

Definition _get_connection_color (connection : Connection.t) : string :=
  if bool_decide (Connection.connection_type connection = Ring) then "#2196F3"
  else if bool_decide (Connection.connection_type connection = P2p) then "#4CAF50"
  else "#FF5722".

Definition _get_connection_style (h : list (string * Node.t)) (connection : Connection.t)
  : string :=
  if existsb (fun m => bool_decide (Node.node_type (deref h (fst m)) = Pc))
             (Connection.nodes connection)
  then q "stroke-dasharray='5,5'"
  else "".

(** what one iteration of the loop of [_draw_connections] appends *)
Definition draw_connection (h : list (string * Node.t)) (connection : Connection.t)
  : string :=
  match Connection.nodes connection with
  | [(node1, _); (node2, _)] =>
      let node1 := deref h node1 in
      let node2 := deref h node2 in
      let color := _get_connection_color connection in
      let style := _get_connection_style h connection in
      unlines
        [ q "  <line x1='" ++ float_str (Node.x node1) ++ q "' y1='" ++ float_str (Node.y node1)
            ++ q "' x2='" ++ float_str (Node.x node2) ++ q "' y2='" ++ float_str (Node.y node2)
            ++ q "' ";
          q "                stroke='" ++ color ++ q "' stroke-width='2' " ++ style ++ "/>";
          q "  <text x='" ++ float_str ((Node.x node1 + Node.x node2) / 2)
            ++ q "' y='" ++ float_str ((Node.y node1 + Node.y node2) / 2 - 5) ++ q "' ";
          q "        text-anchor='middle' font-family='Arial, sans-serif' font-size='10' fill='black'>";
          "    " ++ Connection.collision_domain connection;
          "  </text>" ]
  | _ :: _ :: _ :: _ =>
      let members := map (fun m => deref h (fst m)) (Connection.nodes connection) in
      let center_x := (sum (map Node.x members) / INR (length members))%R in
      let center_y := (sum (map Node.y members) / INR (length members))%R in
      let color := _get_connection_color connection in
      unlines
        [ q "  <circle cx='" ++ float_str center_x ++ q "' cy='" ++ float_str center_y
            ++ q "' r='8' fill='#FFC107' stroke='#F57C00' stroke-width='2'/>" ]
      ++ String.concat ""
           (map (fun node =>
                   unlines
                     [ q "  <line x1='" ++ float_str (Node.x node) ++ q "' y1='"
                         ++ float_str (Node.y node) ++ q "' x2='" ++ float_str center_x
                         ++ q "' y2='" ++ float_str center_y ++ q "' stroke='" ++ color
                         ++ q "' stroke-width='2'/>" ])
                members)
      ++ unlines
           [ q "  <text x='" ++ float_str center_x ++ q "' y='" ++ float_str (center_y - 15)
               ++ q "' text-anchor='middle' ";
             q "        font-family='Arial, sans-serif' font-size='10' fill='black'>";
             "    " ++ Connection.collision_domain connection;
             "  </text>" ]
  | _ => ""
  end.

Definition _draw_connections (self : t) : string :=
  fold_left (fun svg kc => svg ++ draw_connection (heap self) (snd kc))
            (KatharaParser.connections (parser self))
            (unlines [""; "  <!-- Connections -->"]).

Definition _draw_router (node : Node.t) : string :=
  unlines
    [ "  <!-- " ++ Node.name node ++ " -->";
      q "  <circle cx='" ++ float_str (Node.x node) ++ q "' cy='" ++ float_str (Node.y node)
        ++ q "' r='25' fill='#FF9800' stroke='#E65100' stroke-width='2'/>";
      q "  <text x='" ++ float_str (Node.x node) ++ q "' y='" ++ float_str (Node.y node + 5)
        ++ q "' text-anchor='middle' font-family='Arial, sans-serif' ";
      q "        font-size='11' font-weight='bold' fill='black'>";
      "    " ++ upper (Node.name node);
      "  </text>";
      q "  <text x='" ++ float_str (Node.x node) ++ q "' y='" ++ float_str (Node.y node + 35)
        ++ q "' text-anchor='middle' font-family='Arial, sans-serif' ";
      q "        font-size='9' fill='black'>";
      "    Router";
      "  </text>" ].

Definition _draw_pc (node : Node.t) : string :=
  unlines
    [ "  <!-- " ++ Node.name node ++ " -->";
      q "  <rect x='" ++ float_str (Node.x node - 25) ++ q "' y='" ++ float_str (Node.y node - 12)
        ++ q "' width='50' height='24' rx='3' ";
      q "        fill='#607D8B' stroke='#37474F' stroke-width='2'/>";
      q "  <text x='" ++ float_str (Node.x node) ++ q "' y='" ++ float_str (Node.y node + 3)
        ++ q "' text-anchor='middle' font-family='Arial, sans-serif' ";
      q "        font-size='10' font-weight='bold' fill='black'>";
      "    " ++ upper (Node.name node);
      "  </text>";
      q "  <text x='" ++ float_str (Node.x node) ++ q "' y='" ++ float_str (Node.y node + 35)
        ++ q "' text-anchor='middle' font-family='Arial, sans-serif' ";
      q "        font-size='9' fill='black'>";
      "    PC";
      "  </text>" ].

Definition _draw_server (node : Node.t) : string :=
  let bridged_info :=
    if bool_decide (is_Some (Node.properties node !! "bridged")) then " (Bridged)" else "" in
  unlines
    [ "  <!-- " ++ Node.name node ++ " -->";
      q "  <rect x='" ++ float_str (Node.x node - 30) ++ q "' y='" ++ float_str (Node.y node - 15)
        ++ q "' width='60' height='30' rx='3' ";
      q "        fill='#9C27B0' stroke='#6A1B9A' stroke-width='2'/>";
      q "  <text x='" ++ float_str (Node.x node) ++ q "' y='" ++ float_str (Node.y node + 3)
        ++ q "' text-anchor='middle' font-family='Arial, sans-serif' ";
      q "        font-size='9' font-weight='bold' fill='black'>";
      "    " ++ upper (Node.name node);
      "  </text>";
      q "  <text x='" ++ float_str (Node.x node) ++ q "' y='" ++ float_str (Node.y node + 35)
        ++ q "' text-anchor='middle' font-family='Arial, sans-serif' ";
      q "        font-size='8' fill='black'>";
      "    Server" ++ bridged_info;
      "  </text>" ].

Definition _draw_single_node (node : Node.t) : string :=
  if bool_decide (Node.node_type node = Router) then _draw_router node
  else if bool_decide (Node.node_type node = Server) then _draw_server node
  else _draw_pc node.

Definition _draw_nodes (self : t) : string :=
  fold_left (fun svg kv => svg ++ _draw_single_node (snd kv))
            (heap self)
            (unlines [""; "  <!-- Nodes -->"]).

Definition _create_legend (self : t) : string :=
  let legend_x := 50%Z in
  let legend_y := (height self - 200)%Z in
  unlines
    [ "";
      "  <!-- Legend -->";
      q "  <g transform='translate(" ++ str_int legend_x ++ ", " ++ str_int legend_y ++ q ")'>";
      q "    <text x='0' y='0' font-family='Arial, sans-serif' font-size='16' font-weight='bold' fill='black'>Legend:</text>";
      "    ";
      "    <!-- Router legend -->";
      q "    <circle cx='15' cy='25' r='12' fill='#FF9800' stroke='#E65100' stroke-width='1'/>";
      q "    <text x='35' y='30' font-family='Arial, sans-serif' font-size='12' fill='black'>Router</text>";
      "    ";
      "    <!-- PC legend -->";
      q "    <rect x='5' y='40' width='20' height='12' rx='2' fill='#607D8B' stroke='#37474F' stroke-width='1'/>";
      q "    <text x='35' y='49' font-family='Arial, sans-serif' font-size='12' fill='black'>PC/Host</text>";
      "    ";
      "    <!-- Server legend -->";
      q "    <rect x='5' y='60' width='20' height='12' rx='2' fill='#9C27B0' stroke='#6A1B9A' stroke-width='1'/>";
      q "    <text x='35' y='69' font-family='Arial, sans-serif' font-size='12' fill='black'>Server</text>";
      "    ";
      "    <!-- Ring connection legend -->";
      q "    <line x1='10' y1='85' x2='30' y2='85' stroke='#2196F3' stroke-width='2'/>";
      q "    <text x='35' y='89' font-family='Arial, sans-serif' font-size='12' fill='black'>Ring Connection</text>";
      "    ";
      "    <!-- P2P connection legend -->";
      q "    <line x1='10' y1='105' x2='30' y2='105' stroke='#4CAF50' stroke-width='2' stroke-dasharray='3,3'/>";
      q "    <text x='35' y='109' font-family='Arial, sans-serif' font-size='12' fill='black'>LAN Connection</text>";
      "    ";
      "    <!-- Hub legend -->";
      q "    <circle cx='15' cy='125' r='4' fill='#FFC107' stroke='#F57C00' stroke-width='1'/>";
      q "    <text x='35' y='129' font-family='Arial, sans-serif' font-size='12' fill='black'>Network Hub</text>";
      "  </g>" ].

Definition generate (self : t) : result string :=
  self ← _layout_nodes self;
  let svg := _create_svg_header self in
  title ← _create_title self;
  let svg := svg ++ title in
  let svg := svg ++ _draw_connections self in
  let svg := svg ++ _draw_nodes self in
  let svg := svg ++ _create_legend self in
  let svg := svg ++ _create_svg_footer self in
  Ok svg.
End Render.

End SVGGenerator.

(** * Vocabulary of the properties *)

Definition router_keywords : list string := ["router"; "r1"; "r2"; "r3"; "r4"; "r5"].
Definition pc_keywords : list string := ["pc"; "host"; "client"].
Definition server_keywords : list string := ["server"; "snmp"; "manager"; "zabbix"].

(** the node of the scenario: [server1[bridged]=true] and nothing else *)
Definition server1_bridged : Node.t :=
  Node.add_property "bridged" "true" (Node.init "server1").

Definition server_bridged : Node.t :=
  Node.add_property "bridged" "true" (Node.init "server").

Definition all_lan (cs : list (string * Connection.t)) : Prop :=
  Forall (fun kc => Connection.connection_type (snd kc) = Lan) cs.

(** some node with this name is router-typed *)
Definition router_typed (nodes : list (string * Node.t)) (node : string) : bool :=
  existsb
    (fun kv =>
       String.eqb (fst kv) node
       && match Node.node_type (snd kv) with Router => true | _ => false end)
    nodes.

(** the members of a connection that are router-typed, counted per
    membership entry *)
Definition router_members (g : KatharaParser.t) (c : Connection.t) : nat :=
  length (List.filter (fun m => router_typed (KatharaParser.nodes g) (fst m))
                      (Connection.nodes c)).

(** a link of two routers, a hub of two routers and a host, a hub of
    three hosts, and a collision domain with one member *)
Definition four_connections : list string :=
  [ q "r1[0]='A'"; q "r2[0]='A'";
    q "r1[1]='H'"; q "r2[1]='H'"; q "pc1[0]='H'";
    q "pc1[1]='L'"; q "pc2[0]='L'"; q "server[0]='L'";
    q "pc2[1]='S'" ].

(** the graph of a file that parses, and a connection of it *)
Definition parsed (lines : list string) : KatharaParser.t :=
  match KatharaParser.parse lines with
  | Ok g => g
  | Raise _ => KatharaParser.init
  end.

Definition connection_of (g : KatharaParser.t) (cd : string) : Connection.t :=
  default (Connection.init cd) (Dict.get cd (KatharaParser.connections g)).


(** what a raw line of the file declares: a node, an interface index and
    a collision domain, when it is a node line with an all-digit property *)
Definition interface_declaration (raw : string) : option (string * string * string) :=
  let line := strip raw in
  if String.eqb line "" || startswith "#" line then None
  else if startswith "LAB_" line then None
  else match KatharaParser.re_match line with
       | Some (node_name, property_name, value) =>
           if isdigit property_name then Some (node_name, property_name, value) else None
       | None => None
       end.

(** the entries that the lines declare on collision domain [cd], one per
    line, in the order of the file *)
Definition declared_members (cd : string) (lines : list string) : list (string * string) :=
  flat_map
    (fun raw =>
       match interface_declaration raw with
       | Some (node_name, interface, value) =>
           if String.eqb value cd then [(node_name, interface)] else []
       | None => []
       end)
    lines.

(** the membership list of collision domain [cd] *)
Definition members (g : KatharaParser.t) (cd : string) : list (string * string) :=
  match Dict.get cd (KatharaParser.connections g) with
  | Some c => Connection.nodes c
  | None => []
  end.

Definition same_node_twice : list string := [q "pc1[0]='A'"; q "pc1[1]='A'"].


(** the number of connections with exactly two router-typed members *)
Definition router_pair_connections (self : SVGGenerator.t) : nat :=
  length (List.filter
            (fun kc => (Connection.router_count (SVGGenerator.heap self) (snd kc) =? 2)%nat)
            (KatharaParser.connections (SVGGenerator.parser self))).

(** three routers, pairwise linked by three 2-member collision domains *)
Definition triangle : list string :=
  [ q "r1[0]='A'"; q "r2[0]='A'";
    q "r2[1]='B'"; q "r3[0]='B'";
    q "r3[1]='C'"; q "r1[1]='C'" ].

(** where the loop over the routers puts the router of index [i] *)
Definition router_pos (self : SVGGenerator.t) (routers : list string) (i : nat)
  : Node.t -> Node.t :=
  Node.set_pos
    (SVGGenerator.center_x self
     + SVGGenerator.ring_radius self * cos (SVGGenerator.angle routers i))
    (SVGGenerator.center_y self
     + SVGGenerator.ring_radius self * sin (SVGGenerator.angle routers i)).

(** the coordinates that the loop over the other nodes computes for
    [node], reading the routers from [h] *)
Definition other_target (self : SVGGenerator.t) (routers other_nodes : list string)
    (h : list (string * Node.t)) (node : string) : R * R :=
  let cx := SVGGenerator.center_x self in
  let cy := SVGGenerator.center_y self in
  match SVGGenerator._find_connected_router self node routers with
  | Some connected_router =>
      let cr := SVGGenerator.deref h connected_router in
      let dx := (Node.x cr - cx)%R in
      let dy := (Node.y cr - cy)%R in
      let length := sqrt (dx * dx + dy * dy) in
      if Rlt_dec 0 length then
        ((Node.x cr + dx / length * 100)%R, (Node.y cr + dy / length * 100)%R)
      else (Node.x cr, (Node.y cr - 100)%R)
  | None =>
      ((cx + IZR (Z.of_nat (length other_nodes) - SVGGenerator.index node other_nodes) * 50)%R,
       (cy + 200)%R)
  end.

Definition radians (degrees : R) : R := (degrees * PI / 180)%R.

Definition triangle_generator : SVGGenerator.t :=
  SVGGenerator.init (parsed triangle) 1000 800.

(** [node] is among the members of connection [c] *)
Definition holds (c : Connection.t) (node : string) : bool :=
  if in_dec String.string_dec node (map fst (Connection.nodes c)) then true else false.

(** the first connection, in iteration order, that holds both [node]
    and some router-typed node *)
Definition shared_connection (self : SVGGenerator.t) (node : string)
  : option Connection.t :=
  snd <$> List.find
            (fun kc =>
               holds (snd kc) node
               && existsb (fun m => router_typed (SVGGenerator.heap self) (fst m))
                          (Connection.nodes (snd kc)))
            (KatharaParser.connections (SVGGenerator.parser self)).

(** the first router-typed node, in the order of the node dict, that
    connection [c] holds *)
Definition first_router (self : SVGGenerator.t) (c : Connection.t) : option string :=
  fst <$> List.find
            (fun kv =>
               match Node.node_type (snd kv) with Router => true | _ => false end
               && holds c (fst kv))
            (SVGGenerator.heap self).

(** the nodes that are not router-typed, in the order of the node dict *)
Definition non_routers (self : SVGGenerator.t) : list string :=
  flat_map
    (fun kv => match Node.node_type (snd kv) with Router => [] | _ => [fst kv] end)
    (SVGGenerator.heap self).

(** the same, as the code searches it: through the list of routers *)
Definition shared_with (self : SVGGenerator.t) (routers : list string) (node : string)
  : option Connection.t :=
  snd <$> List.find
            (fun kc =>
               let members := map fst (Connection.nodes (snd kc)) in
               SVGGenerator.ref_in node members
               && existsb (fun router => SVGGenerator.ref_in router members) routers)
            (KatharaParser.connections (SVGGenerator.parser self)).

(** the triangle of routers, with a host behind [r2] and a host on no
    link shared with a router *)
Definition ring_with_hosts : list string :=
  (triangle ++ [q "r2[2]='D'"; q "alice[0]='D'"; q "bob[0]='E'"])%list.

Definition hosts_generator : SVGGenerator.t :=
  SVGGenerator.init (parsed ring_with_hosts) 1000 800.

(** the same graph on a canvas without extent, where the ring has
    radius zero and every router is at the canvas center *)
Definition point_generator : SVGGenerator.t :=
  SVGGenerator.init (parsed ring_with_hosts) 0 0.

(** ** Vocabulary of the further properties *)

(** what a raw line of the file declares about a node: its name, a
    property and a value *)
Definition node_declaration (raw : string) : option (string * string * string) :=
  let line := strip raw in
  if String.eqb line "" || startswith "#" line then None
  else if startswith "LAB_" line then None
  else KatharaParser.re_match line.

(** the node names of the node lines, in file order *)
Definition declared_nodes (lines : list string) : list string :=
  flat_map
    (fun raw =>
       match node_declaration raw with
       | Some (node_name, _, _) => [node_name]
       | None => []
       end)
    lines.

(** a list with each element kept at its first occurrence only *)
Definition add_new (seen : list string) (k : string) : list string :=
  if existsb (String.eqb k) seen then seen else (seen ++ [k])%list.

Definition first_occurrences (ks : list string) : list string :=
  fold_left add_new ks [].

(** a node name the pattern of node lines can yield: a non-empty run of
    word characters *)
Definition word_name (k : string) : Prop :=
  k <> "" /\ forall_chars is_word k = true.

(** the dicts of a parser state are well formed: keys are distinct, an
    object sits under its own name, and every membership entry refers
    to a node of the dict *)
Definition well_formed (g : KatharaParser.t) : Prop :=
  List.NoDup (Dict.keys (KatharaParser.nodes g))
  /\ List.NoDup (Dict.keys (KatharaParser.connections g))
  /\ Forall (fun kv => Node.name (snd kv) = fst kv) (KatharaParser.nodes g)
  /\ Forall (fun kc =>
               Connection.collision_domain (snd kc) = fst kc
               /\ Connection.nodes (snd kc) <> []
               /\ Forall (fun m => In (fst m) (Dict.keys (KatharaParser.nodes g)))
                         (Connection.nodes (snd kc)))
            (KatharaParser.connections g).

(** the state after [if node_name not in self.nodes: ...] *)
Definition with_node (nm : string) (self : KatharaParser.t) : KatharaParser.t :=
  if Dict.mem nm (KatharaParser.nodes self) then self
  else KatharaParser.set_nodes
         (Dict.set nm (Node.init nm) (KatharaParser.nodes self)) self.

(** a line on which [parse] fails: a lab line without an equal sign *)
Definition lab_line_without_equals (raw : string) : bool :=
  let line := strip raw in
  negb (String.eqb line "" || startswith "#" line)
  && startswith "LAB_" line
  && negb (contains "=" line).

(** what a raw line declares about the lab: a key and a value *)
Definition lab_declaration (raw : string) : option (string * string) :=
  let line := strip raw in
  if String.eqb line "" || startswith "#" line then None
  else if startswith "LAB_" line then
    match split1 "=" line with
    | [key; value] => Some (key, strip_char dq value)
    | _ => None
    end
  else None.

(** the value of the last lab line with key [key] *)
Definition last_lab (key : string) (lines : list string) : option string :=
  fold_left
    (fun acc raw =>
       match lab_declaration raw with
       | Some (k, v) => if String.eqb k key then Some v else acc
       | None => acc
       end)
    lines None.

(** the value of the last node line for [node] whose property
    satisfies [sel] *)
Definition last_where (node : string) (sel : string -> bool) (lines : list string)
  : option string :=
  fold_left
    (fun acc raw =>
       match node_declaration raw with
       | Some (n, p, v) => if String.eqb n node && sel p then Some v else acc
       | None => acc
       end)
    lines None.

(** the value of the last line [node[prop]=value] *)
Definition last_declared (node prop : string) (lines : list string) : option string :=
  last_where node (String.eqb prop) lines.

(** one step of [last_lab] *)
Definition lab_step (key : string) (acc : option string) (raw : string) : option string :=
  match lab_declaration raw with
  | Some (k, v) => if String.eqb k key then Some v else acc
  | None => acc
  end.

(** an attribute of the node named [node], [a0] when there is no such
    node *)
Definition attr_of {A : Type} (attr : Node.t -> A) (a0 : A)
    (self : KatharaParser.t) (node : string) : A :=
  match Dict.get node (KatharaParser.nodes self) with
  | Some n => attr n
  | None => a0
  end.

(** what a raw line does to an attribute that the declarations with a
    property in [sel] set to [inj value] *)
Definition attr_step {A : Type} (inj : string -> A) (sel : string -> bool)
    (node : string) (acc : A) (raw : string) : A :=
  match node_declaration raw with
  | Some (n, p, v) => if String.eqb n node && sel p then inj v else acc
  | None => acc
  end.

(** the nodes with their positions set back to the origin *)
Definition erase_pos (h : list (string * Node.t)) : list (string * Node.t) :=
  map (fun kv => (fst kv, Node.set_pos 0 0 (snd kv))) h.

(** the cell center of index [i] in the grid layout *)
Definition grid_x (self : SVGGenerator.t) (cols i : nat) : R :=
  (IZR (SVGGenerator.margin self)
   + IZR (SVGGenerator.width self - 2 * SVGGenerator.margin self)
     * (INR (i mod cols) + 0.5) / INR cols)%R.

Definition grid_y (self : SVGGenerator.t) (count cols i : nat) : R :=
  (IZR (SVGGenerator.margin self + 100)
   + IZR (SVGGenerator.height self - 2 * SVGGenerator.margin self - 200)
     * (INR (i / cols) + 0.5) / INR (SVGGenerator.ceil_div count cols))%R.

(** the graph without its connections of fewer than two members *)
Definition without_short_connections (self : SVGGenerator.t) : SVGGenerator.t :=
  {| SVGGenerator.parser :=
       KatharaParser.set_connections
         (List.filter (fun kc => (2 <=? length (Connection.nodes (snd kc)))%nat)
                      (KatharaParser.connections (SVGGenerator.parser self)))
         (SVGGenerator.parser self);
     SVGGenerator.width := SVGGenerator.width self;
     SVGGenerator.height := SVGGenerator.height self;
     SVGGenerator.margin := SVGGenerator.margin self |}.

(** a small lab: a title, a router with an image, a bridged host on the
    same collision domain, and an interface declared twice *)
Definition sample_lab : list string :=
  [ "# sample";
    q "LAB_NAME='Demo'";
    q "LAB_NAME='Demo lab'";
    q "r1[image]='kathara/frr'";
    q "r1[0]='A'";
    q "pc1[0]='B'";
    q "pc1[0]='A'";
    q "pc1[bridged]='true'" ].

Definition node_of (g : KatharaParser.t) (k : string) : Node.t :=
  default (Node.init k) (Dict.get k (KatharaParser.nodes g)).


(** ** The inputs the properties are stated for *)

(** text of ASCII characters *)
Definition ascii_text (s : string) : bool :=
  forall_chars (fun c => (nat_of_ascii c <? 128)%nat) s.

Definition ascii_lines (lines : list string) : Prop :=
  forallb ascii_text lines = true.

(** an int whose half is a float *)
Definition in_float_range (n : Z) : Prop := (Z.abs n < 2 ^ 1025 - 2 ^ 971)%Z.

(** a canvas as [__init__] makes it, the margin being 50, with a width
    and a height that the layout can convert to floats also after it
    has taken the margins off *)
Definition float_canvas (self : SVGGenerator.t) : Prop :=
  (Z.abs (SVGGenerator.width self) <= 2 ^ 1023)%Z
  /\ (Z.abs (SVGGenerator.height self) <= 2 ^ 1023)%Z
  /\ SVGGenerator.margin self = 50%Z.

(** ** The document of an empty lab *)

(** the text of a node line: a name, which is a non-empty run of word
    characters, a property between brackets, which is non-empty and
    holds no closing bracket, an equal sign, and anything *)
Definition node_line (line : string) : Prop :=
  exists name prop rest : string,
    line = name ++ "[" ++ prop ++ "]=" ++ rest
    /\ word_name name
    /\ prop <> ""
    /\ forall_chars (fun c => negb (Ascii.eqb c "]")) prop = true.

(** a raw line without a declaration: blank, a comment, or text that is
    neither a lab line nor a node line *)
Definition declares_nothing (raw : string) : Prop :=
  let line := strip raw in
  line = ""
  \/ startswith "#" line = true
  \/ (startswith "LAB_" line = false /\ ~ node_line line).

(** lines of text, each ended by a newline *)
Definition text (ls : list string) : string :=
  String.concat (String nl "") (ls ++ [""])%list.

Definition header_lines (width height : Z) : list string :=
  [ q "<?xml version='1.0' encoding='UTF-8'?>";
    q "<svg viewBox='0 0 " ++ str_int width ++ " " ++ str_int height
      ++ q "' xmlns='http://www.w3.org/2000/svg'>";
    "  <!-- Background -->";
    q "  <rect width='" ++ str_int width ++ q "' height='"
      ++ str_int height ++ q "' fill='#f8f9fa'/>" ].

Definition title_lines (x : string) (lab_name lab_desc : string) : list string :=
  [ "";
    "  <!-- Title -->";
    q "  <text x='" ++ x
      ++ q "' y='30' text-anchor='middle' font-family='Arial, sans-serif' font-size='20' font-weight='bold' fill='black'>";
    "    " ++ lab_name;
    "  </text>";
    q "  <text x='" ++ x
      ++ q "' y='50' text-anchor='middle' font-family='Arial, sans-serif' font-size='14' fill='black'>";
    "    " ++ lab_desc;
    "  </text>" ].

Definition legend_lines (height : Z) : list string :=
  [ "";
    "  <!-- Legend -->";
    q "  <g transform='translate(50, " ++ str_int (height - 200) ++ q ")'>";
    q "    <text x='0' y='0' font-family='Arial, sans-serif' font-size='16' font-weight='bold' fill='black'>Legend:</text>";
    "    ";
    "    <!-- Router legend -->";
    q "    <circle cx='15' cy='25' r='12' fill='#FF9800' stroke='#E65100' stroke-width='1'/>";
    q "    <text x='35' y='30' font-family='Arial, sans-serif' font-size='12' fill='black'>Router</text>";
    "    ";
    "    <!-- PC legend -->";
    q "    <rect x='5' y='40' width='20' height='12' rx='2' fill='#607D8B' stroke='#37474F' stroke-width='1'/>";
    q "    <text x='35' y='49' font-family='Arial, sans-serif' font-size='12' fill='black'>PC/Host</text>";
    "    ";
    "    <!-- Server legend -->";
    q "    <rect x='5' y='60' width='20' height='12' rx='2' fill='#9C27B0' stroke='#6A1B9A' stroke-width='1'/>";
    q "    <text x='35' y='69' font-family='Arial, sans-serif' font-size='12' fill='black'>Server</text>";
    "    ";
    "    <!-- Ring connection legend -->";
    q "    <line x1='10' y1='85' x2='30' y2='85' stroke='#2196F3' stroke-width='2'/>";
    q "    <text x='35' y='89' font-family='Arial, sans-serif' font-size='12' fill='black'>Ring Connection</text>";
    "    ";
    "    <!-- P2P connection legend -->";
    q "    <line x1='10' y1='105' x2='30' y2='105' stroke='#4CAF50' stroke-width='2' stroke-dasharray='3,3'/>";
    q "    <text x='35' y='109' font-family='Arial, sans-serif' font-size='12' fill='black'>LAN Connection</text>";
    "    ";
    "    <!-- Hub legend -->";
    q "    <circle cx='15' cy='125' r='4' fill='#FFC107' stroke='#F57C00' stroke-width='1'/>";
    q "    <text x='35' y='129' font-family='Arial, sans-serif' font-size='12' fill='black'>Network Hub</text>";
    "  </g>" ].

(** the document of a lab without nodes: the header, the title with the
    two placeholders, a layer of connections and a layer of nodes with
    nothing but their comment, the legend and the footer *)
Definition empty_document (float_str : R -> string) (width height : Z) : string :=
  text (header_lines width height
        ++ title_lines (float_str (IZR width / 2)%R) "Kathara Network" "Network Topology"
        ++ [""; "  <!-- Connections -->"]
        ++ [""; "  <!-- Nodes -->"]
        ++ legend_lines height)%list
  ++ "</svg>".

(** a file of blank lines, comments and text that is no declaration *)
Definition nothing_declared : list string :=
  [""; "# an empty lab"; "   "; "to be written"; q "=[x]='A'"; "pc1[]=A"].


(** * Properties *)

(** ** Strings *)

Lemma append_cons (ch : ascii) (a b : string) : String ch a ++ b = String ch (a ++ b).
Proof. reflexivity. Qed.

Lemma append_assoc (a b c : string) : (a ++ b) ++ c = a ++ (b ++ c).
Proof.
  induction a as [|ch a IH]; [reflexivity|].
  rewrite !append_cons. f_equal. exact IH.
Qed.

Lemma unlines_app (a b : list string) :
  SVGGenerator.unlines (a ++ b)%list = SVGGenerator.unlines a ++ SVGGenerator.unlines b.
Proof.
  induction a as [|l a IH]; [reflexivity|].
  change (SVGGenerator.unlines ((l :: a) ++ b)%list)
    with (l ++ String nl (SVGGenerator.unlines (a ++ b)%list)).
  change (SVGGenerator.unlines (l :: a)) with (l ++ String nl (SVGGenerator.unlines a)).
  rewrite IH, append_assoc. reflexivity.
Qed.

Lemma split1_cases (sep : ascii) (s : string) :
  (exists a, split1 sep s = [a]) \/ (exists a b, split1 sep s = [a; b]).
Proof.
  induction s as [|c s IH]; simpl.
  - left. eauto.
  - destruct (Ascii.eqb c sep); [right; eauto|].
    destruct IH as [[a ->] | [a [b ->]]]; [left | right]; eauto.
Qed.

Lemma prefix_empty (s : string) : String.prefix "" s = true.
Proof. destruct s; reflexivity. Qed.

(** [sep in s] decides between the two shapes of [s.split(sep, 1)]. *)
Lemma split1_single (sep : ascii) (s : string) :
  contains (String sep "") s = false <-> exists a, split1 sep s = [a].
Proof.
  induction s as [|c s IH]; simpl.
  - split; eauto.
  - destruct (ascii_dec sep c) as [->|Hne].
    + rewrite prefix_empty, Ascii.eqb_refl. simpl.
      split; [discriminate | intros [a Ha]; discriminate].
    + assert (E : Ascii.eqb c sep = false) by (apply Ascii.eqb_neq; congruence).
      rewrite E. simpl. rewrite IH. split; intros [a Ha].
      * rewrite Ha. eauto.
      * destruct (split1 sep s) as [|a' r]; [discriminate|].
        injection Ha as _ ->. eauto.
Qed.

(** ** Node classification *)

Lemma classified_type_router (nm img : string) :
  any_in router_keywords (lower nm) = true -> Node.classified_type nm img = Router.
Proof.
  intros H. unfold Node.classified_type. fold router_keywords. rewrite H.
  destruct (any_in _ (lower img)); reflexivity.
Qed.

Lemma classified_type_server (nm img : string) :
  any_in router_keywords (lower nm) = false ->
  any_in pc_keywords (lower nm) = false ->
  any_in server_keywords (lower nm) = true ->
  Node.classified_type nm img = Server.
Proof.
  intros H1 H2 H3. unfold Node.classified_type.
  fold router_keywords pc_keywords server_keywords. now rewrite H1, H2, H3.
Qed.

Lemma classified_type_known (nm img : string) :
  Node.classified_type nm img <> Unknown.
Proof.
  unfold Node.classified_type.
  repeat match goal with |- context [if ?b then _ else _] => destruct b end;
    discriminate.
Qed.

Lemma classify_node_idem (n : Node.t) :
  Node.classify_node (Node.classify_node n) = Node.classify_node n.
Proof. reflexivity. Qed.

(** C1, as stated, fails: the name [server1] ends in the router token
    [r1], and the router rule comes first, so the node is a router and
    not a server, whatever its properties are. *)
Lemma server1_bridged_is_not_server :
  ~ (Node.node_type (Node.classify_node server1_bridged) = Server
     /\ forall float_str, exists pre,
          SVGGenerator._draw_single_node float_str (Node.classify_node server1_bridged)
          = pre ++ SVGGenerator.unlines ["    Server (Bridged)"; "  </text>"]).
Proof. intros [H _]. vm_compute in H. discriminate H. Qed.

Lemma draw_router_caption (float_str : R -> string) (n : Node.t) :
  exists pre, SVGGenerator._draw_router float_str n
              = pre ++ SVGGenerator.unlines ["    Router"; "  </text>"].
Proof.
  unfold SVGGenerator._draw_router.
  match goal with
  | |- context [SVGGenerator.unlines [?a; ?b; ?c; ?d; ?e; ?f; ?g; ?h; ?i; ?j]] =>
      exists (SVGGenerator.unlines [a; b; c; d; e; f; g; h]);
      rewrite <- unlines_app; reflexivity
  end.
Qed.

Lemma draw_server_caption (float_str : R -> string) (n : Node.t) :
  is_Some (Node.properties n !! "bridged") ->
  exists pre, SVGGenerator._draw_server float_str n
              = pre ++ SVGGenerator.unlines ["    Server (Bridged)"; "  </text>"].
Proof.
  intros Hb. unfold SVGGenerator._draw_server.
  rewrite (bool_decide_eq_true_2 _ Hb). cbv zeta.
  match goal with
  | |- context [SVGGenerator.unlines [?a; ?b; ?c; ?d; ?e; ?f; ?g; ?h; ?i; ?j; ?k]] =>
      exists (SVGGenerator.unlines [a; b; c; d; e; f; g; h; i]);
      rewrite <- unlines_app; reflexivity
  end.
Qed.

Lemma draw_single_node_router (float_str : R -> string) (n : Node.t) :
  Node.node_type n = Router ->
  SVGGenerator._draw_single_node float_str n = SVGGenerator._draw_router float_str n.
Proof. intros H. unfold SVGGenerator._draw_single_node. now rewrite H. Qed.

Lemma draw_single_node_server (float_str : R -> string) (n : Node.t) :
  Node.node_type n = Server ->
  SVGGenerator._draw_single_node float_str n = SVGGenerator._draw_server float_str n.
Proof. intros H. unfold SVGGenerator._draw_single_node. now rewrite H. Qed.

(** C1, amended.  A node that carries the key [bridged]: when its name is
    [server1] it is classified router and drawn as a router, its caption
    being [Router]; when its lower-cased name holds no router token and
    no pc token but holds a server token (as [server] does), it is
    classified server and its caption is [Server (Bridged)]. *)
Theorem bridged_node_caption (float_str : R -> string) (n : Node.t) :
  is_Some (Node.properties n !! "bridged") ->
  let n' := Node.classify_node n in
  (Node.name n = "server1" ->
     Node.node_type n' = Router
     /\ SVGGenerator._draw_single_node float_str n' = SVGGenerator._draw_router float_str n'
     /\ exists pre, SVGGenerator._draw_single_node float_str n'
                    = pre ++ SVGGenerator.unlines ["    Router"; "  </text>"])
  /\ (any_in router_keywords (lower (Node.name n)) = false ->
      any_in pc_keywords (lower (Node.name n)) = false ->
      any_in server_keywords (lower (Node.name n)) = true ->
        Node.node_type n' = Server
        /\ exists pre, SVGGenerator._draw_single_node float_str n'
                       = pre ++ SVGGenerator.unlines ["    Server (Bridged)"; "  </text>"]).
Proof.
  intros Hb n'. split.
  - intros Hname.
    assert (Hty : Node.node_type n' = Router).
    { subst n'. unfold Node.classify_node. simpl. rewrite Hname.
      now apply classified_type_router. }
    rewrite (draw_single_node_router _ _ Hty).
    repeat split; [exact Hty | apply draw_router_caption].
  - intros H1 H2 H3.
    assert (Hty : Node.node_type n' = Server).
    { subst n'. unfold Node.classify_node. simpl. now apply classified_type_server. }
    rewrite (draw_single_node_server _ _ Hty).
    split; [exact Hty | apply draw_server_caption; exact Hb].
Qed.

Lemma bridged_node_caption_witness :
  Node.node_type (Node.classify_node server_bridged) = Server
  /\ exists pre,
       SVGGenerator._draw_single_node (fun _ => "0.0") (Node.classify_node server_bridged)
       = pre ++ SVGGenerator.unlines ["    Server (Bridged)"; "  </text>"].
Proof.
  assert (Hb : is_Some (Node.properties server_bridged !! "bridged")).
  { exists "true". vm_compute. reflexivity. }
  apply (proj2 (bridged_node_caption (fun _ => "0.0") server_bridged Hb));
    vm_compute; reflexivity.
Defined.

(** ** Dicts *)

Section DictFacts.
Context {V : Type}.
Implicit Types (d : list (string * V)) (k : string).

Lemma get_alter (f : V -> V) k k' d :
  Dict.get k (Dict.alter f k' d)
  = if String.eqb k' k then f <$> Dict.get k d else Dict.get k d.
Proof.
  induction d as [|[k0 v0] d IH]; simpl.
  - now destruct (String.eqb k' k).
  - destruct (String.eqb k' k0) eqn:E1; simpl.
    + apply String.eqb_eq in E1. subst k0.
      rewrite (String.eqb_sym k k'). now destruct (String.eqb k' k).
    + destruct (String.eqb k k0) eqn:E2; [|exact IH].
      apply String.eqb_eq in E2. subst k0. now rewrite E1.
Qed.

Lemma get_set k k' (v : V) d :
  Dict.get k (Dict.set k' v d) = if String.eqb k' k then Some v else Dict.get k d.
Proof.
  induction d as [|[k0 v0] d IH]; simpl.
  - now rewrite (String.eqb_sym k k').
  - destruct (String.eqb k' k0) eqn:E1; simpl.
    + apply String.eqb_eq in E1. subst k0.
      rewrite (String.eqb_sym k k'). now destruct (String.eqb k' k).
    + destruct (String.eqb k k0) eqn:E2; [|exact IH].
      apply String.eqb_eq in E2. subst k0. now rewrite E1.
Qed.

Lemma get_map_values (f : V -> V) k d :
  Dict.get k (Dict.map_values f d) = f <$> Dict.get k d.
Proof.
  induction d as [|[k0 v0] d IH]; simpl; [reflexivity|].
  now destruct (String.eqb k k0).
Qed.

Lemma keys_alter (f : V -> V) k d : Dict.keys (Dict.alter f k d) = Dict.keys d.
Proof.
  induction d as [|[k0 v0] d IH]; simpl; [reflexivity|].
  destruct (String.eqb k k0); simpl; [reflexivity | now f_equal].
Qed.

Lemma keys_map_values (f : V -> V) d : Dict.keys (Dict.map_values f d) = Dict.keys d.
Proof. induction d as [|[k0 v0] d IH]; simpl; [reflexivity | now f_equal]. Qed.

Lemma get_Some_In k (v : V) d : Dict.get k d = Some v -> In (k, v) d.
Proof.
  induction d as [|[k0 v0] d IH]; simpl; [discriminate|].
  destruct (String.eqb k k0) eqn:E.
  - apply String.eqb_eq in E. intros [= ->]. left. now subst.
  - intros H. right. now apply IH.
Qed.

Lemma get_None_keys k d : Dict.get k d = None <-> ~ In k (Dict.keys d).
Proof.
  induction d as [|[k0 v0] d IH]; simpl; [tauto|].
  destruct (String.eqb k k0) eqn:E.
  - apply String.eqb_eq in E. split; [discriminate | intros H; exfalso; apply H; now left].
  - apply String.eqb_neq in E. rewrite IH. split.
    + intros H [H1|H1]; [congruence | tauto].
    + tauto.
Qed.

(** with distinct keys, an entry is what [get] finds *)
Lemma In_get k (v : V) d : List.NoDup (Dict.keys d) -> In (k, v) d -> Dict.get k d = Some v.
Proof.
  induction d as [|[k0 v0] d IH]; simpl; [tauto|].
  intros Hnd [H|H].
  - injection H as -> ->. now rewrite String.eqb_refl.
  - apply List.NoDup_cons_iff in Hnd as [Hk Hnd].
    destruct (String.eqb k k0) eqn:E; [|now apply IH].
    apply String.eqb_eq in E. subst k0. exfalso. apply Hk.
    change k with (fst (k, v)). now apply in_map.
Qed.

Lemma Forall_set (P : string * V -> Prop) k (v : V) d :
  (forall k0, P (k0, v)) -> Forall P d -> Forall P (Dict.set k v d).
Proof.
  intros Hv. induction 1 as [|[k0 v0] d H0 Hd IH]; simpl.
  - constructor; [apply Hv | constructor].
  - destruct (String.eqb k k0); constructor; auto.
Qed.

Lemma Forall_alter (P : string * V -> Prop) (f : V -> V) k d :
  (forall k0 v0, P (k0, v0) -> P (k0, f v0)) -> Forall P d -> Forall P (Dict.alter f k d).
Proof.
  intros Hf. induction 1 as [|[k0 v0] d H0 Hd IH]; simpl; [constructor|].
  destruct (String.eqb k k0); constructor; auto.
Qed.
End DictFacts.

(** ** The parser never raises, but on one kind of line *)

Lemma parse_line_raises (self : KatharaParser.t) (line : string) :
  (exists e, KatharaParser._parse_line self line = Raise e)
  <-> startswith "LAB_" line = true /\ contains "=" line = false.
Proof.
  unfold KatharaParser._parse_line.
  destruct (startswith "LAB_" line).
  - destruct (split1_cases "=" line) as [[a Ha] | [a [b Hab]]].
    + rewrite Ha. split; [intros _ | eauto].
      split; [reflexivity|]. apply split1_single. eauto.
    + rewrite Hab. split.
      * intros [e He]. discriminate He.
      * intros [_ Hc]. apply split1_single in Hc as [a' Ha']. congruence.
  - split; [|intros [H _]; discriminate H].
    intros [e He]. exfalso.
    destruct (KatharaParser.re_match line) as [[[nm prop] value]|]; [|discriminate He].
    destruct (String.eqb prop "image"); [discriminate He|].
    destruct (isdigit prop); discriminate He.
Qed.

(** C2: the claim fails on the code.  A line that starts with [LAB_] and holds no
    equal sign is not skipped: the unpacking of the one-element result of
    [split] raises [ValueError], which aborts [parse]. *)
Theorem lab_line_without_equals_raises :
  KatharaParser._parse_line KatharaParser.init "LAB_NAME" = Raise ValueError
  /\ KatharaParser.parse ["LAB_NAME"] = Raise ValueError
  /\ KatharaParser.parse [q "pc1[0]='A'"; "LAB_NAME"; q "pc2[0]='A'"] = Raise ValueError.
Proof. repeat split; vm_compute; reflexivity. Qed.

(** ** Classification *)

Lemma classify_connection_nodes (h : list (string * Node.t)) (c : Connection.t) :
  Connection.nodes (Connection.classify_connection h c) = Connection.nodes c.
Proof.
  unfold Connection.classify_connection.
  repeat match goal with |- context [if ?b then _ else _] => destruct b end; reflexivity.
Qed.

Lemma classify_connection_type (h : list (string * Node.t)) (c : Connection.t) :
  Connection.connection_type (Connection.classify_connection h c)
  = if (length (Connection.nodes c) =? 2)%nat then P2p
    else if (2 <? length (Connection.nodes c))%nat then
      if (Connection.router_count h c =? 2)%nat then Ring else Lan
    else Connection.connection_type c.
Proof.
  unfold Connection.classify_connection.
  repeat match goal with |- context [if ?b then _ else _] => destruct b end; reflexivity.
Qed.

Lemma classify_connection_idem (h : list (string * Node.t)) (c : Connection.t) :
  Connection.classify_connection h (Connection.classify_connection h c)
  = Connection.classify_connection h c.
Proof.
  unfold Connection.classify_connection at 1.
  unfold Connection.router_count.
  rewrite !classify_connection_nodes.
  fold (Connection.router_count h c).
  unfold Connection.classify_connection.
  repeat match goal with |- context [if ?b then _ else _] => destruct b end; reflexivity.
Qed.

Lemma map_values_idem {V : Type} (f : V -> V) (d : list (string * V)) :
  (forall v, f (f v) = f v) -> Dict.map_values f (Dict.map_values f d) = Dict.map_values f d.
Proof.
  intros Hf. induction d as [|[k v] d IH]; simpl; [reflexivity|].
  now rewrite Hf, IH.
Qed.

(** C8: classification is idempotent.  A second pass over the classified
    graph leaves the whole state, hence every node type and every
    connection type, as the first pass left it. *)
Theorem classification_idempotent (g : KatharaParser.t) :
  KatharaParser._classify_nodes_and_connections
    (KatharaParser._classify_nodes_and_connections g)
  = KatharaParser._classify_nodes_and_connections g.
Proof.
  unfold KatharaParser._classify_nodes_and_connections. simpl.
  rewrite (map_values_idem Node.classify_node) by apply classify_node_idem.
  rewrite map_values_idem by apply classify_connection_idem.
  reflexivity.
Qed.

(** C10: after the classification pass every node is a router, a pc, a
    server or a switch; [Unknown] does not survive. *)
Theorem classified_nodes_are_known (g : KatharaParser.t) :
  Forall (fun kv => In (Node.node_type (snd kv)) [Router; Pc; Server; Switch]
                    /\ Node.node_type (snd kv) <> Unknown)
         (KatharaParser.nodes (KatharaParser._classify_nodes_and_connections g)).
Proof.
  unfold KatharaParser._classify_nodes_and_connections. simpl.
  apply List.Forall_forall. intros [k n] Hin.
  apply in_map_iff in Hin as [[k0 n0] [Heq _]]. injection Heq as _ <-.
  simpl. pose proof (classified_type_known (Node.name n0) (Node.image n0)) as Hk.
  split; [|exact Hk].
  destruct (Node.classified_type (Node.name n0) (Node.image n0)); simpl; tauto.
Qed.

Lemma router_typed_absent (h : list (string * Node.t)) (node : string) :
  ~ In node (Dict.keys h) -> router_typed h node = false.
Proof.
  induction h as [|[k n] h IH]; simpl; intros Hk; [reflexivity|].
  destruct (String.eqb_spec k node) as [->|Hne]; [tauto|]. simpl. apply IH. tauto.
Qed.

Lemma router_typed_is_router (h : list (string * Node.t)) (node : string) :
  List.NoDup (Dict.keys h) -> router_typed h node = is_router h node.
Proof.
  unfold is_router. induction h as [|[k n] h IH]; intros Hnd; [reflexivity|].
  apply List.NoDup_cons_iff in Hnd as [Hk Hnd]. simpl in Hk.
  cbn [router_typed existsb Dict.get fst snd]. rewrite (String.eqb_sym node k).
  destruct (String.eqb_spec k node) as [->|Hne].
  - fold (router_typed h node). rewrite (router_typed_absent h node Hk), orb_false_r.
    destruct (Node.node_type n); reflexivity.
  - exact (IH Hnd).
Qed.

(** ** Parsing builds the membership lists *)

Lemma add_connection_lan (cd node interface : string) (self : KatharaParser.t) :
  all_lan (KatharaParser.connections self) ->
  all_lan (KatharaParser.connections (KatharaParser._add_connection cd node interface self)).
Proof.
  intros H. unfold KatharaParser._add_connection.
  destruct (Dict.mem cd (KatharaParser.connections self)); simpl;
    apply Forall_alter; auto; now apply Forall_set.
Qed.

Lemma parse_line_lan (self self' : KatharaParser.t) (line : string) :
  KatharaParser._parse_line self line = Ok self' ->
  all_lan (KatharaParser.connections self) -> all_lan (KatharaParser.connections self').
Proof.
  unfold KatharaParser._parse_line. intros H Hlan.
  destruct (startswith "LAB_" line).
  { destruct (split1 "=" line) as [|a [|b [|? ?]]]; try discriminate H.
    injection H as <-. exact Hlan. }
  destruct (KatharaParser.re_match line) as [[[nm prop] value]|];
    [|injection H as <-; exact Hlan].
  assert (Hlan' : all_lan (KatharaParser.connections
            (if Dict.mem nm (KatharaParser.nodes self) then self
             else KatharaParser.set_nodes
                    (Dict.set nm (Node.init nm) (KatharaParser.nodes self)) self))).
  { now destruct (Dict.mem nm (KatharaParser.nodes self)). }
  destruct (String.eqb prop "image"); [injection H as <-; exact Hlan'|].
  destruct (isdigit prop); injection H as <-; [|exact Hlan'].
  apply add_connection_lan. exact Hlan'.
Qed.

Lemma parse_lines_lan (lines : list string) (self g : KatharaParser.t) :
  KatharaParser.parse_lines self lines = Ok g ->
  all_lan (KatharaParser.connections self) -> all_lan (KatharaParser.connections g).
Proof.
  revert self. induction lines as [|raw lines IH]; simpl; intros self H Hlan.
  - injection H as <-. exact Hlan.
  - destruct (String.eqb (strip raw) "" || startswith "#" (strip raw)); [now apply (IH self)|].
    unfold mbind, result_bind in H.
    destruct (KatharaParser._parse_line self (strip raw)) as [self'|e] eqn:E;
      [|discriminate H].
    apply (IH self' H). now apply (parse_line_lan self self' (strip raw)).
Qed.

Lemma members_set_nodes (ns : list (string * Node.t)) (self : KatharaParser.t) (cd : string) :
  members (KatharaParser.set_nodes ns self) cd = members self cd.
Proof. reflexivity. Qed.

Lemma members_add_connection (v node interface : string) (self : KatharaParser.t)
    (cd : string) :
  members (KatharaParser._add_connection v node interface self) cd
  = (members self cd ++ if String.eqb v cd then [(node, interface)] else [])%list.
Proof.
  unfold members, KatharaParser._add_connection, Dict.mem.
  destruct (Dict.get v (KatharaParser.connections self)) as [c0|] eqn:E; simpl.
  - rewrite get_alter. destruct (String.eqb v cd) eqn:Ev.
    + apply String.eqb_eq in Ev. subst v. rewrite E. reflexivity.
    + destruct (Dict.get cd _); simpl; now rewrite ?app_nil_r.
  - rewrite get_alter, get_set. destruct (String.eqb v cd) eqn:Ev.
    + apply String.eqb_eq in Ev. subst v. rewrite E. reflexivity.
    + destruct (Dict.get cd _); simpl; now rewrite ?app_nil_r.
Qed.

Lemma isdigit_image (p : string) : String.eqb p "image" = true -> isdigit p = false.
Proof. intros H. apply String.eqb_eq in H. subst p. reflexivity. Qed.

Lemma members_parse_line (self self' : KatharaParser.t) (raw cd : string) :
  (String.eqb (strip raw) "" || startswith "#" (strip raw)) = false ->
  KatharaParser._parse_line self (strip raw) = Ok self' ->
  members self' cd = (members self cd ++ declared_members cd [raw])%list.
Proof.
  intros Hskip. unfold declared_members, interface_declaration. simpl.
  rewrite Hskip, app_nil_r. unfold KatharaParser._parse_line.
  destruct (startswith "LAB_" (strip raw)).
  { destruct (split1 "=" (strip raw)) as [|a [|b [|? ?]]]; try discriminate.
    intros [= <-]. now rewrite app_nil_r. }
  destruct (KatharaParser.re_match (strip raw)) as [[[nm prop] value]|];
    [|intros [= <-]; now rewrite app_nil_r].
  set (self1 := if Dict.mem nm (KatharaParser.nodes self) then self else _).
  assert (H1 : members self1 cd = members self cd).
  { subst self1. now destruct (Dict.mem nm (KatharaParser.nodes self)). }
  destruct (String.eqb prop "image") eqn:Ei.
  { rewrite (isdigit_image _ Ei). intros [= <-].
    now rewrite members_set_nodes, H1, app_nil_r. }
  destruct (isdigit prop); intros [= <-].
  - now rewrite members_add_connection, members_set_nodes, H1.
  - now rewrite members_set_nodes, H1, app_nil_r.
Qed.

Lemma declared_members_cons (cd raw : string) (lines : list string) :
  declared_members cd (raw :: lines)
  = (declared_members cd [raw] ++ declared_members cd lines)%list.
Proof. unfold declared_members. simpl. now rewrite app_nil_r. Qed.

Lemma members_parse_lines (lines : list string) (self g : KatharaParser.t) (cd : string) :
  KatharaParser.parse_lines self lines = Ok g ->
  members g cd = (members self cd ++ declared_members cd lines)%list.
Proof.
  revert self. induction lines as [|raw lines IH]; intros self H.
  - injection H as <-. unfold declared_members. simpl. now rewrite app_nil_r.
  - rewrite declared_members_cons. simpl in H.
    destruct (String.eqb (strip raw) "" || startswith "#" (strip raw)) eqn:Hskip.
    + rewrite (IH self H). f_equal.
      unfold declared_members, interface_declaration. simpl. now rewrite Hskip.
    + unfold mbind, result_bind in H.
      destruct (KatharaParser._parse_line self (strip raw)) as [self'|e] eqn:E;
        [|discriminate H].
      rewrite (IH self' H), (members_parse_line self self' raw cd Hskip E).
      now rewrite <- app_assoc.
Qed.

Lemma members_classify (self : KatharaParser.t) (cd : string) :
  members (KatharaParser._classify_nodes_and_connections self) cd = members self cd.
Proof.
  unfold members, KatharaParser._classify_nodes_and_connections. simpl.
  rewrite get_map_values. destruct (Dict.get cd _); simpl; [|reflexivity].
  apply classify_connection_nodes.
Qed.

(** C9: membership is appended once per interface declaration, without
    deduplication.  In the graph of an ASCII file the membership list of a collision
    domain is the list of the declarations naming it, in file order; so
    when exactly two lines name it, both for the same node (the same
    interface twice, or two interfaces), the connection lists that node
    twice and is classified p2p. *)
Theorem membership_per_declaration (lines : list string) (g : KatharaParser.t) :
  ascii_lines lines ->
  KatharaParser.parse lines = Ok g ->
  (forall cd, members g cd = declared_members cd lines)
  /\ (forall cd node i1 i2,
        declared_members cd lines = [(node, i1); (node, i2)] ->
        exists c, Dict.get cd (KatharaParser.connections g) = Some c
                  /\ Connection.nodes c = [(node, i1); (node, i2)]
                  /\ Connection.connection_type c = P2p).
Proof.
  intros _.
  unfold KatharaParser.parse, mbind, result_bind. intros Hp.
  destruct (KatharaParser.parse_lines KatharaParser.init lines) as [self|e] eqn:E;
    [|discriminate Hp].
  injection Hp as <-.
  assert (Hm : forall cd,
             members (KatharaParser._classify_nodes_and_connections self) cd
             = declared_members cd lines).
  { intros cd. rewrite members_classify, (members_parse_lines lines _ self cd E).
    reflexivity. }
  split; [exact Hm|].
  intros cd node i1 i2 Hd. specialize (Hm cd). rewrite Hd in Hm.
  unfold members in Hm.
  destruct (Dict.get cd _) as [c|] eqn:Eg; [|discriminate Hm].
  exists c. split; [reflexivity | split; [exact Hm|]].
  unfold KatharaParser._classify_nodes_and_connections in Eg. simpl in Eg.
  rewrite get_map_values in Eg.
  destruct (Dict.get cd (KatharaParser.connections self)) as [c0|]; [|discriminate Eg].
  injection Eg as <-. rewrite classify_connection_nodes in Hm.
  rewrite classify_connection_type, Hm. reflexivity.
Qed.

Lemma membership_per_declaration_witness :
  KatharaParser.parse same_node_twice = Ok (parsed same_node_twice)
  /\ members (parsed same_node_twice) "A" = [("pc1", "0"); ("pc1", "1")]
  /\ exists c, Dict.get "A" (KatharaParser.connections (parsed same_node_twice)) = Some c
               /\ Connection.nodes c = [("pc1", "0"); ("pc1", "1")]
               /\ Connection.connection_type c = P2p.
Proof.
  assert (Hp : KatharaParser.parse same_node_twice = Ok (parsed same_node_twice))
    by (vm_compute; reflexivity).
  destruct (membership_per_declaration same_node_twice _ eq_refl Hp) as [H1 H2].
  split; [exact Hp | split].
  - rewrite H1. vm_compute. reflexivity.
  - apply H2. vm_compute. reflexivity.
Defined.

(** ** Ring detection *)


Lemma filter_map_fst_length {A B : Type} (p : A -> bool) (l : list (A * B)) :
  length (List.filter p (map fst l)) = length (List.filter (fun m => p (fst m)) l).
Proof.
  induction l as [|[a b] l IH]; simpl; [reflexivity|].
  destruct (p a); simpl; now rewrite IH.
Qed.

Lemma ring_connections_count (h : list (string * Node.t))
    (cs : list (string * Connection.t)) (acc : nat) :
  fold_left
    (fun ring_connections kc =>
       let router_nodes :=
         List.filter (is_router h) (map fst (Connection.nodes (snd kc))) in
       if (length router_nodes =? 2)%nat then (ring_connections + 1)%nat
       else ring_connections)
    cs acc
  = (acc + length (List.filter (fun kc => (Connection.router_count h (snd kc) =? 2)%nat) cs))%nat.
Proof.
  revert acc. induction cs as [|kc cs IH]; intros acc; simpl; [lia|].
  rewrite IH, filter_map_fst_length. unfold Connection.router_count at 2.
  destruct (length _ =? 2)%nat; simpl; lia.
Qed.

Lemma has_ring_topology_spec (self : SVGGenerator.t) (routers : list string) :
  SVGGenerator._has_ring_topology self routers
  = (3 <=? length routers)%nat && (length routers <=? router_pair_connections self)%nat.
Proof.
  unfold SVGGenerator._has_ring_topology.
  rewrite ring_connections_count, Nat.add_0_l.
  fold (router_pair_connections self).
  destruct (Nat.ltb_spec (length routers) 3), (Nat.leb_spec 3 (length routers));
    try lia; reflexivity.
Qed.


(** ** Ring layout *)

Section SelectFacts.
Variable p : NodeType -> bool.
Implicit Type h : list (string * Node.t).

Lemma select_In h k :
  In k (SVGGenerator.select p h)
  <-> exists n, In (k, n) h /\ p (Node.node_type n) = true.
Proof.
  unfold SVGGenerator.select. rewrite in_map_iff. split.
  - intros [[k0 n] [<- Hin]]. apply filter_In in Hin as [Hin Hp]. eauto.
  - intros [n [Hin Hp]]. exists (k, n). split; [reflexivity|].
    apply filter_In. auto.
Qed.

Lemma select_NoDup h : List.NoDup (Dict.keys h) -> List.NoDup (SVGGenerator.select p h).
Proof.
  unfold SVGGenerator.select, Dict.keys.
  induction h as [|[k n] h IH]; simpl; intros Hnd; [constructor|].
  apply List.NoDup_cons_iff in Hnd as [Hk Hnd].
  destruct (p (Node.node_type n)); simpl; [|now apply IH].
  constructor; [|now apply IH].
  intros Hin. apply Hk. apply in_map_iff in Hin as [[k0 n0] [Heq Hin]].
  apply filter_In in Hin as [Hin _]. simpl in Heq. subst k0.
  change k with (fst (k, n0)). now apply in_map.
Qed.

Lemma select_get h k :
  List.NoDup (Dict.keys h) -> In k (SVGGenerator.select p h) ->
  exists n, Dict.get k h = Some n /\ p (Node.node_type n) = true.
Proof.
  intros Hnd Hin. apply select_In in Hin as [n [Hin Hp]].
  exists n. split; [now apply In_get | exact Hp].
Qed.
End SelectFacts.

Lemma routers_others_disjoint (h : list (string * Node.t)) (k : string) :
  List.NoDup (Dict.keys h) ->
  In k (SVGGenerator.routers_of h) -> In k (SVGGenerator.other_nodes_of h) -> False.
Proof.
  intros Hnd Hr Ho.
  apply (select_get _ h k Hnd) in Hr as [n [Hn Hp]].
  apply (select_get _ h k Hnd) in Ho as [n' [Hn' Hp']].
  rewrite Hn in Hn'. injection Hn' as <-. rewrite Hp in Hp'. discriminate Hp'.
Qed.

Lemma routers_of_is_router (h : list (string * Node.t)) (k : string) :
  List.NoDup (Dict.keys h) -> In k (SVGGenerator.routers_of h) -> is_router h k = true.
Proof.
  intros Hnd Hr. apply (select_get _ h k Hnd) in Hr as [n [Hn Hp]].
  unfold is_router. now rewrite Hn.
Qed.

Lemma deref_get (h : list (string * Node.t)) (k : string) (n : Node.t) :
  Dict.get k h = Some n -> SVGGenerator.deref h k = n.
Proof. unfold SVGGenerator.deref. now intros ->. Qed.

Section RingFacts.
Variable self : SVGGenerator.t.
Variables routers other_nodes : list string.

Lemma place_routers_other (rs : list string) (i : nat) (h : list (string * Node.t))
    (k : string) :
  ~ In k rs -> Dict.get k (SVGGenerator.place_routers self routers i rs h) = Dict.get k h.
Proof.
  revert i h. induction rs as [|r rs IH]; simpl; intros i h Hk; [reflexivity|].
  rewrite IH by tauto. rewrite get_alter.
  destruct (String.eqb r k) eqn:E; [|reflexivity].
  apply String.eqb_eq in E. tauto.
Qed.

Lemma place_routers_nth (rs : list string) (i j : nat) (h : list (string * Node.t))
    (r : string) :
  List.NoDup rs -> nth_error rs j = Some r ->
  Dict.get r (SVGGenerator.place_routers self routers i rs h)
  = router_pos self routers (i + j) <$> Dict.get r h.
Proof.
  revert i j h. induction rs as [|r0 rs IH]; intros i j h Hnd Hj.
  - destruct j; discriminate Hj.
  - apply List.NoDup_cons_iff in Hnd as [Hr0 Hnd]. destruct j as [|j]; simpl in *.
    + injection Hj as ->. rewrite place_routers_other by exact Hr0.
      rewrite get_alter, String.eqb_refl, Nat.add_0_r. reflexivity.
    + rewrite (IH (S i) j _ Hnd Hj), get_alter.
      replace (S i + j)%nat with (i + S j)%nat by lia.
      destruct (String.eqb r0 r) eqn:E; [|reflexivity].
      apply String.eqb_eq in E. subst r0. exfalso. apply Hr0.
      eapply nth_error_In. exact Hj.
Qed.

Lemma place_other_alter (h : list (string * Node.t)) (node : string) :
  SVGGenerator.place_other self routers other_nodes h node
  = Dict.alter (Node.set_pos (fst (other_target self routers other_nodes h node)) (snd (other_target self routers other_nodes h node)))
               node h.
Proof.
  unfold SVGGenerator.place_other, other_target.
  destruct (SVGGenerator._find_connected_router self node routers); [|reflexivity].
  cbv zeta. destruct (Rlt_dec 0 _); reflexivity.
Qed.

Lemma find_connected_router_In (node r : string) :
  SVGGenerator._find_connected_router self node routers = Some r -> In r routers.
Proof.
  unfold SVGGenerator._find_connected_router.
  induction (KatharaParser.connections (SVGGenerator.parser self)) as [|[cd c] cs IH];
    simpl; [discriminate|].
  destruct (SVGGenerator.ref_in node _); [|exact IH].
  destruct (find _ routers) as [r'|] eqn:E; [|exact IH].
  intros [= <-]. apply find_some in E. tauto.
Qed.

Lemma other_target_ext (h h' : list (string * Node.t)) (node : string) :
  (forall r, In r routers -> Dict.get r h' = Dict.get r h) ->
  other_target self routers other_nodes h' node = other_target self routers other_nodes h node.
Proof.
  intros Hext. unfold other_target.
  destruct (SVGGenerator._find_connected_router self node routers) as [r|] eqn:E;
    [|reflexivity].
  apply find_connected_router_In in E.
  unfold SVGGenerator.deref. now rewrite (Hext r E).
Qed.

Lemma place_others_other (os : list string) (h : list (string * Node.t)) (k : string) :
  ~ In k os ->
  Dict.get k (fold_left (SVGGenerator.place_other self routers other_nodes) os h)
  = Dict.get k h.
Proof.
  revert h. induction os as [|o os IH]; simpl; intros h Hk; [reflexivity|].
  rewrite IH by tauto. rewrite place_other_alter, get_alter.
  destruct (String.eqb o k) eqn:E; [|reflexivity].
  apply String.eqb_eq in E. tauto.
Qed.

Lemma place_others_member (os : list string) (h : list (string * Node.t)) (node : string) :
  List.NoDup os -> In node os ->
  (forall r, In r routers -> ~ In r os) ->
  Dict.get node (fold_left (SVGGenerator.place_other self routers other_nodes) os h)
  = Node.set_pos (fst (other_target self routers other_nodes h node)) (snd (other_target self routers other_nodes h node))
      <$> Dict.get node h.
Proof.
  revert h. induction os as [|o os IH]; simpl; intros h Hnd Hin Hdisj; [tauto|].
  apply List.NoDup_cons_iff in Hnd as [Ho Hnd].
  assert (Hdisj' : forall r, In r routers -> ~ In r os).
  { intros r Hr Hr'. apply (Hdisj r Hr). now right. }
  destruct (String.eqb o node) eqn:E.
  - apply String.eqb_eq in E. subst o.
    rewrite place_others_other by exact Ho.
    now rewrite place_other_alter, get_alter, String.eqb_refl.
  - assert (Hin' : In node os).
    { destruct Hin as [->|Hin]; [|exact Hin]. now rewrite String.eqb_refl in E. }
    rewrite (IH _ Hnd Hin' Hdisj'), place_other_alter, get_alter, E.
    rewrite (other_target_ext h); [reflexivity|].
    intros r Hr. rewrite get_alter.
    destruct (String.eqb o r) eqn:E'; [|reflexivity].
    apply String.eqb_eq in E'. subst o. exfalso. apply (Hdisj r Hr). now left.
Qed.
End RingFacts.

Lemma angle_degrees (routers : list string) (i : nat) :
  (i < length routers)%nat ->
  SVGGenerator.angle routers i
  = radians (-90 + INR i * 360 / INR (length routers)).
Proof.
  intros Hi. unfold SVGGenerator.angle, radians.
  assert (Hn : INR (length routers) <> 0%R) by (apply not_0_INR; lia).
  field. exact Hn.
Qed.

Lemma ring_layout_router (self : SVGGenerator.t) (i : nat) (r : string) :
  List.NoDup (Dict.keys (SVGGenerator.heap self)) ->
  let routers := SVGGenerator.routers_of (SVGGenerator.heap self) in
  let other_nodes := SVGGenerator.other_nodes_of (SVGGenerator.heap self) in
  nth_error routers i = Some r ->
  exists n,
    Dict.get r (SVGGenerator.heap self) = Some n
    /\ Dict.get r (SVGGenerator.heap
                     (SVGGenerator._layout_ring_topology self routers other_nodes))
       = Some (router_pos self routers i n).
Proof.
  intros Hnd routers other_nodes Hi.
  assert (Hr : In r routers) by (eapply nth_error_In; exact Hi).
  destruct (select_get _ _ r Hnd Hr) as [n [Hn _]].
  exists n. split; [exact Hn|].
  change (SVGGenerator.heap (SVGGenerator._layout_ring_topology self routers other_nodes))
    with (fold_left (SVGGenerator.place_other self routers other_nodes) other_nodes
            (SVGGenerator.place_routers self routers 0 routers (SVGGenerator.heap self))).
  rewrite place_others_other
    by (intros Ho; exact (routers_others_disjoint _ r Hnd Hr Ho)).
  rewrite (place_routers_nth self routers routers 0 i _ r (select_NoDup _ _ Hnd) Hi), Hn.
  reflexivity.
Qed.

(** C5: the ring layout puts router [i] of [N] (0-based, in the order
    of the dict of nodes) at angle -90 + i * 360 / N degrees on the circle
    of radius 0.25 * min(width, height) around (width / 2, height / 2);
    for three routers the angles are -90, 30 and 150 degrees. *)
Theorem ring_layout_router_position (self : SVGGenerator.t) (i : nat) (r : string) :
  List.NoDup (Dict.keys (SVGGenerator.heap self)) ->
  let routers := SVGGenerator.routers_of (SVGGenerator.heap self) in
  let other_nodes := SVGGenerator.other_nodes_of (SVGGenerator.heap self) in
  nth_error routers i = Some r ->
  let N := length routers in
  let self' := SVGGenerator._layout_ring_topology self routers other_nodes in
  let center_x := (IZR (SVGGenerator.width self) / 2)%R in
  let center_y := (IZR (SVGGenerator.height self) / 2)%R in
  let radius :=
    (0.25 * IZR (Z.min (SVGGenerator.width self) (SVGGenerator.height self)))%R in
  let a := radians (-90 + INR i * 360 / INR N) in
  Node.x (SVGGenerator.deref (SVGGenerator.heap self') r) = (center_x + radius * cos a)%R
  /\ Node.y (SVGGenerator.deref (SVGGenerator.heap self') r) = (center_y + radius * sin a)%R
  /\ (N = 3%nat -> a = radians (nth i [-90; 30; 150] 0)%R).
Proof.
  intros Hnd routers other_nodes Hi N self' center_x center_y radius a.
  destruct (ring_layout_router self i r Hnd Hi) as [n [_ Hget]].
  fold routers other_nodes self' in Hget.
  rewrite (deref_get _ _ _ Hget).
  assert (HiN : (i < N)%nat) by (apply nth_error_Some; rewrite Hi; discriminate).
  assert (Ha : SVGGenerator.angle routers i = a) by now apply angle_degrees.
  assert (Hrad : SVGGenerator.ring_radius self = radius).
  { unfold SVGGenerator.ring_radius. subst radius. ring. }
  split; [|split].
  - unfold router_pos. simpl. now rewrite Ha, Hrad.
  - unfold router_pos. simpl. now rewrite Ha, Hrad.
  - intros HN. subst a. rewrite HN. unfold radians. f_equal. f_equal.
    destruct i as [|[|[|i]]]; [| | |lia]; simpl; field.
Qed.

Lemma triangle_keys :
  Dict.keys (SVGGenerator.heap triangle_generator) = ["r1"; "r2"; "r3"].
Proof. vm_compute. reflexivity. Qed.

Lemma triangle_NoDup : List.NoDup (Dict.keys (SVGGenerator.heap triangle_generator)).
Proof.
  rewrite triangle_keys.
  repeat (constructor; [simpl; intuition discriminate|]). constructor.
Qed.

Lemma ring_layout_router_position_witness :
  let self' :=
    SVGGenerator._layout_ring_topology triangle_generator
      (SVGGenerator.routers_of (SVGGenerator.heap triangle_generator))
      (SVGGenerator.other_nodes_of (SVGGenerator.heap triangle_generator)) in
  Node.x (SVGGenerator.deref (SVGGenerator.heap self') "r2")
  = (1000 / 2 + 0.25 * IZR (Z.min 1000 800) * cos (radians (-90 + INR 1 * 360 / INR 3)))%R.
Proof.
  assert (Hi : nth_error (SVGGenerator.routers_of (SVGGenerator.heap triangle_generator)) 1
               = Some "r2") by (vm_compute; reflexivity).
  exact (proj1 (ring_layout_router_position triangle_generator 1 "r2" triangle_NoDup Hi)).
Defined.

Lemma existsb_find {A : Type} (p : A -> bool) (l : list A) :
  existsb p l = match List.find p l with Some _ => true | None => false end.
Proof. induction l as [|a l IH]; simpl; [reflexivity|]. now destruct (p a). Qed.

Lemma find_connected_router_spec (self : SVGGenerator.t) (routers : list string)
    (node : string) :
  SVGGenerator._find_connected_router self node routers
  = match shared_with self routers node with
    | Some c =>
        List.find (fun router => SVGGenerator.ref_in router (map fst (Connection.nodes c)))
                  routers
    | None => None
    end.
Proof.
  unfold SVGGenerator._find_connected_router, shared_with.
  induction (KatharaParser.connections (SVGGenerator.parser self)) as [|[cd c] cs IH];
    simpl; [reflexivity|].
  rewrite existsb_find.
  destruct (SVGGenerator.ref_in node _); simpl; [|exact IH].
  destruct (find _ routers) as [r|] eqn:E; simpl; [now rewrite E | exact IH].
Qed.

Lemma shared_with_Some (self : SVGGenerator.t) (routers : list string)
    (node : string) (c : Connection.t) :
  shared_with self routers node = Some c ->
  SVGGenerator.ref_in node (map fst (Connection.nodes c)) = true
  /\ exists router,
       List.find (fun router => SVGGenerator.ref_in router (map fst (Connection.nodes c)))
                 routers = Some router
       /\ In router routers.
Proof.
  unfold shared_with. intros H.
  destruct (find _ _) as [[cd c0]|] eqn:E; [|discriminate H].
  injection H as <-. apply find_some in E as [_ E]. simpl in E.
  apply andb_true_iff in E as [E1 E2]. split; [exact E1|].
  rewrite existsb_find in E2.
  destruct (find _ routers) as [router|] eqn:Ef; [|discriminate E2].
  exists router. split; [reflexivity|]. apply find_some in Ef. tauto.
Qed.

Lemma ref_in_In (ref : string) (refs : list string) :
  SVGGenerator.ref_in ref refs = true <-> In ref refs.
Proof.
  unfold SVGGenerator.ref_in. rewrite existsb_exists. split.
  - intros [k [Hk E]]. apply String.eqb_eq in E. now subst.
  - intros H. exists ref. split; [exact H | apply String.eqb_refl].
Qed.

Lemma is_router_routers_of (h : list (string * Node.t)) (k : string) :
  List.NoDup (Dict.keys h) -> is_router h k = true <-> In k (SVGGenerator.routers_of h).
Proof.
  intros Hnd. split; [|now apply routers_of_is_router].
  unfold is_router. destruct (Dict.get k h) as [n|] eqn:E; [|discriminate].
  intros Hty. apply select_In. exists n. split; [now apply get_Some_In | exact Hty].
Qed.

(** some router of the list is a member iff some member is router-typed *)
Lemma router_member_exists (h : list (string * Node.t)) (members : list string) :
  List.NoDup (Dict.keys h) ->
  existsb (fun router => SVGGenerator.ref_in router members) (SVGGenerator.routers_of h)
  = existsb (is_router h) members.
Proof.
  intros Hnd. apply eq_true_iff_eq. rewrite !existsb_exists. split.
  - intros [r [Hr Hm]]. exists r. split; [now apply ref_in_In|].
    now apply is_router_routers_of.
  - intros [m [Hm Hr]]. exists m. split; [now apply is_router_routers_of|].
    now apply ref_in_In.
Qed.

Lemma find_ext {A : Type} (p p' : A -> bool) (l : list A) :
  (forall a, p a = p' a) -> List.find p l = List.find p' l.
Proof.
  intros H. induction l as [|a l IH]; simpl; [reflexivity|]. now rewrite H, IH.
Qed.

Lemma holds_ref_in (c : Connection.t) (node : string) :
  holds c node = SVGGenerator.ref_in node (map fst (Connection.nodes c)).
Proof.
  unfold holds. destruct (in_dec _ _ _) as [H|H]; symmetry.
  - now apply ref_in_In.
  - apply not_true_iff_false. intros E. apply H. now apply ref_in_In.
Qed.

Lemma router_typed_member (h : list (string * Node.t)) (ms : list (string * string)) :
  List.NoDup (Dict.keys h) ->
  existsb (fun m => router_typed h (fst m)) ms = existsb (is_router h) (map fst ms).
Proof.
  intros Hnd. induction ms as [|m ms IH]; simpl; [reflexivity|].
  now rewrite IH, router_typed_is_router.
Qed.

Lemma shared_with_routers_of (self : SVGGenerator.t) (node : string) :
  List.NoDup (Dict.keys (SVGGenerator.heap self)) ->
  shared_with self (SVGGenerator.routers_of (SVGGenerator.heap self)) node
  = shared_connection self node.
Proof.
  intros Hnd. unfold shared_with, shared_connection. f_equal.
  apply find_ext. intros kc. cbv zeta.
  now rewrite router_member_exists, holds_ref_in, router_typed_member.
Qed.

Lemma first_router_find (self : SVGGenerator.t) (c : Connection.t) :
  first_router self c
  = List.find (fun router => SVGGenerator.ref_in router (map fst (Connection.nodes c)))
              (SVGGenerator.routers_of (SVGGenerator.heap self)).
Proof.
  unfold first_router, SVGGenerator.routers_of, SVGGenerator.select.
  induction (SVGGenerator.heap self) as [|[k n] h IH]; [reflexivity|].
  cbn [List.find List.filter map fst snd].
  destruct (Node.node_type n); cbn [andb];
    try (rewrite bool_decide_eq_false_2 by discriminate; exact IH).
  rewrite bool_decide_eq_true_2 by reflexivity.
  cbn [map List.find fst]. rewrite <- (holds_ref_in c k).
  destruct (holds c k); [reflexivity | exact IH].
Qed.

Lemma non_routers_others (self : SVGGenerator.t) :
  non_routers self = SVGGenerator.other_nodes_of (SVGGenerator.heap self).
Proof.
  unfold non_routers, SVGGenerator.other_nodes_of, SVGGenerator.select.
  induction (SVGGenerator.heap self) as [|[k n] h IH]; [reflexivity|].
  cbn [flat_map List.filter map fst snd]. rewrite IH.
  destruct (Node.node_type n); reflexivity.
Qed.

Lemma index_nth_error (l : list string) (j : nat) (k : string) :
  List.NoDup l -> nth_error l j = Some k -> SVGGenerator.index k l = Z.of_nat j.
Proof.
  revert j. induction l as [|a l IH]; intros j Hnd Hj; [destruct j; discriminate Hj|].
  apply List.NoDup_cons_iff in Hnd as [Ha Hnd].
  destruct j as [|j]; simpl in Hj.
  - injection Hj as ->. cbn [SVGGenerator.index]. now rewrite String.eqb_refl.
  - cbn [SVGGenerator.index]. destruct (String.eqb_spec a k) as [->|Hne].
    + exfalso. apply Ha. eapply nth_error_In. exact Hj.
    + rewrite (IH j Hnd Hj). lia.
Qed.

(** over the reals, the length of the offset of a router is positive
    unless the router is at the canvas center *)
Lemma off_center_length (dx dy : R) :
  (0 < sqrt (dx * dx + dy * dy))%R <-> ~ (dx = 0 /\ dy = 0)%R.
Proof.
  split.
  - intros Hd [-> ->]. replace (0 * 0 + 0 * 0)%R with 0%R in Hd by ring.
    rewrite sqrt_0 in Hd. lra.
  - intros H. apply sqrt_lt_R0.
    destruct (Req_dec dx 0) as [Hx|Hx].
    + assert (dy <> 0)%R by tauto. nra.
    + nra.
Qed.

(** C6: where the ring layout puts a node that is not a router.  With
    [c] the first connection, in iteration order, holding the node and a
    router-typed node, and [router] the first router-typed node of [c]
    in the order of the nodes, the offset (dx, dy) of the router from
    the canvas center and its length decide: when the length is
    positive, the node is at the router plus 100 times the unit vector
    (dx / length, dy / length), that is on the ray from the center
    through the router and 100 units beyond it; otherwise, the router
    being at the center, the node is 100 units above the router.
    Without such a connection the node is at x = center_x + (number of
    other nodes - index of the node among them) * 50, y = center_y + 200. *)
Theorem ring_layout_other_position (self : SVGGenerator.t) (node : string) :
  List.NoDup (Dict.keys (SVGGenerator.heap self)) ->
  In node (non_routers self) ->
  let routers := SVGGenerator.routers_of (SVGGenerator.heap self) in
  let other_nodes := SVGGenerator.other_nodes_of (SVGGenerator.heap self) in
  let self' := SVGGenerator._layout_ring_topology self routers other_nodes in
  let center_x := (IZR (SVGGenerator.width self) / 2)%R in
  let center_y := (IZR (SVGGenerator.height self) / 2)%R in
  let p := SVGGenerator.deref (SVGGenerator.heap self') node in
  match shared_connection self node with
  | Some c =>
      exists router,
        first_router self c = Some router
        /\ let q := SVGGenerator.deref (SVGGenerator.heap self') router in
           let dx := (Node.x q - center_x)%R in
           let dy := (Node.y q - center_y)%R in
           let length := sqrt (dx * dx + dy * dy) in
           ((0 < length)%R ->
              Node.x p = (Node.x q + dx / length * 100)%R
              /\ Node.y p = (Node.y q + dy / length * 100)%R)
           /\ (~ (0 < length)%R ->
                 Node.x p = Node.x q /\ Node.y p = (Node.y q - 100)%R)
  | None =>
      exists j,
        nth_error (non_routers self) j = Some node
        /\ Node.x p
           = (center_x
              + IZR (Z.of_nat (List.length (non_routers self)) - Z.of_nat j) * 50)%R
        /\ Node.y p = (center_y + 200)%R
  end.
Proof.
  intros Hnd Hin0 routers other_nodes self' center_x center_y p.
  rewrite non_routers_others in *. fold other_nodes in Hin0 |- *.
  rename Hin0 into Hin.
  set (h1 := SVGGenerator.place_routers self routers 0 routers (SVGGenerator.heap self)).
  assert (Hheap : SVGGenerator.heap self'
                  = fold_left (SVGGenerator.place_other self routers other_nodes)
                              other_nodes h1) by reflexivity.
  assert (Hdisj : forall r, In r routers -> ~ In r other_nodes).
  { intros r Hr Ho. exact (routers_others_disjoint _ r Hnd Hr Ho). }
  destruct (select_get _ _ node Hnd Hin) as [n [Hn _]].
  assert (Hp : p = Node.set_pos (fst (other_target self routers other_nodes h1 node))
                                (snd (other_target self routers other_nodes h1 node)) n).
  { subst p. apply deref_get. rewrite Hheap.
    rewrite (place_others_member self routers other_nodes other_nodes h1 node
               (select_NoDup _ _ Hnd) Hin Hdisj).
    subst h1. rewrite place_routers_other, Hn; [reflexivity|].
    intros Hr. exact (Hdisj node Hr Hin). }
  assert (Hq : forall r, In r routers ->
                 SVGGenerator.deref (SVGGenerator.heap self') r = SVGGenerator.deref h1 r).
  { intros r Hr. unfold SVGGenerator.deref. rewrite Hheap.
    now rewrite place_others_other by exact (Hdisj r Hr). }
  unfold other_target in Hp. rewrite find_connected_router_spec in Hp.
  rewrite <- (shared_with_routers_of self node Hnd). fold routers.
  destruct (shared_with self routers node) as [c|] eqn:Ec.
  - destruct (shared_with_Some _ _ _ _ Ec) as [_ [router [Hf Hr]]].
    exists router. split; [rewrite first_router_find; exact Hf|].
    rewrite Hf in Hp. rewrite (Hq router Hr).
    change (SVGGenerator.center_x self) with center_x in Hp.
    change (SVGGenerator.center_y self) with center_y in Hp.
    set (q := SVGGenerator.deref h1 router) in *.
    cbv zeta in Hp |- *.
    set (dx := (Node.x q - center_x)%R) in *.
    set (dy := (Node.y q - center_y)%R) in *.
    set (d := sqrt (dx * dx + dy * dy)) in *.
    destruct (Rlt_dec 0 d) as [Hd|Hd]; rewrite Hp; simpl.
    + split; [intros _; split; reflexivity | intros Hn'; contradiction].
    + split; [intros Hd'; contradiction | intros _; split; reflexivity].
  - destruct (In_nth_error _ _ Hin) as [j Hj]. exists j. split; [exact Hj|].
    rewrite Hp. simpl.
    rewrite (index_nth_error other_nodes j node (select_NoDup _ _ Hnd) Hj).
    split; reflexivity.
Qed.

Lemma hosts_keys :
  Dict.keys (SVGGenerator.heap hosts_generator) = ["r1"; "r2"; "r3"; "alice"; "bob"].
Proof. vm_compute. reflexivity. Qed.

Lemma hosts_NoDup : List.NoDup (Dict.keys (SVGGenerator.heap hosts_generator)).
Proof.
  rewrite hosts_keys.
  repeat (constructor; [simpl; intuition discriminate|]). constructor.
Qed.

(** the router [r2] of the ring with hosts is off the canvas center *)
Lemma hosts_r2_off_center :
  let self' :=
    SVGGenerator._layout_ring_topology hosts_generator
      (SVGGenerator.routers_of (SVGGenerator.heap hosts_generator))
      (SVGGenerator.other_nodes_of (SVGGenerator.heap hosts_generator)) in
  let r2 := SVGGenerator.deref (SVGGenerator.heap self') "r2" in
  let dx := (Node.x r2 - 1000 / 2)%R in
  let dy := (Node.y r2 - 800 / 2)%R in
  (0 < sqrt (dx * dx + dy * dy))%R.
Proof.
  intros self' r2 dx dy.
  assert (Hi : nth_error (SVGGenerator.routers_of (SVGGenerator.heap hosts_generator)) 1
               = Some "r2") by (vm_compute; reflexivity).
  destruct (ring_layout_router hosts_generator 1 "r2" hosts_NoDup Hi) as [n [_ Hn]].
  cbv zeta in Hn. fold self' in Hn.
  assert (Hr2 : r2 = router_pos hosts_generator
                       (SVGGenerator.routers_of (SVGGenerator.heap hosts_generator)) 1 n).
  { subst r2. unfold SVGGenerator.deref. now rewrite Hn. }
  set (a := SVGGenerator.angle
              (SVGGenerator.routers_of (SVGGenerator.heap hosts_generator)) 1) in *.
  assert (Hx : dx = (200 * cos a)%R).
  { subst dx. rewrite Hr2. unfold router_pos. cbn [Node.x Node.set_pos].
    unfold SVGGenerator.center_x, SVGGenerator.ring_radius.
    change (SVGGenerator.width hosts_generator) with 1000%Z.
    change (SVGGenerator.height hosts_generator) with 800%Z.
    change (Z.min 1000 800) with 800%Z. fold a. lra. }
  assert (Hy : dy = (200 * sin a)%R).
  { subst dy. rewrite Hr2. unfold router_pos. cbn [Node.y Node.set_pos].
    unfold SVGGenerator.center_y, SVGGenerator.ring_radius.
    change (SVGGenerator.width hosts_generator) with 1000%Z.
    change (SVGGenerator.height hosts_generator) with 800%Z.
    change (Z.min 1000 800) with 800%Z. fold a. lra. }
  apply sqrt_lt_R0. rewrite Hx, Hy.
  pose proof (sin2_cos2 a) as H. unfold Rsqr in H. nra.
Qed.

(** on the canvas without extent the router [r2] is at the center *)
Lemma point_r2_at_center :
  let self' :=
    SVGGenerator._layout_ring_topology point_generator
      (SVGGenerator.routers_of (SVGGenerator.heap point_generator))
      (SVGGenerator.other_nodes_of (SVGGenerator.heap point_generator)) in
  let r2 := SVGGenerator.deref (SVGGenerator.heap self') "r2" in
  let dx := (Node.x r2 - 0 / 2)%R in
  let dy := (Node.y r2 - 0 / 2)%R in
  ~ (0 < sqrt (dx * dx + dy * dy))%R.
Proof.
  intros self' r2 dx dy.
  assert (Hnd : List.NoDup (Dict.keys (SVGGenerator.heap point_generator)))
    by exact hosts_NoDup.
  assert (Hi : nth_error (SVGGenerator.routers_of (SVGGenerator.heap point_generator)) 1
               = Some "r2") by (vm_compute; reflexivity).
  destruct (ring_layout_router point_generator 1 "r2" Hnd Hi) as [n [_ Hn]].
  cbv zeta in Hn. fold self' in Hn.
  assert (Hr2 : r2 = router_pos point_generator
                       (SVGGenerator.routers_of (SVGGenerator.heap point_generator)) 1 n).
  { subst r2. unfold SVGGenerator.deref. now rewrite Hn. }
  set (a := SVGGenerator.angle
              (SVGGenerator.routers_of (SVGGenerator.heap point_generator)) 1) in *.
  assert (Hx : dx = 0%R).
  { subst dx. rewrite Hr2. unfold router_pos. cbn [Node.x Node.set_pos].
    unfold SVGGenerator.center_x, SVGGenerator.ring_radius.
    change (SVGGenerator.width point_generator) with 0%Z.
    change (SVGGenerator.height point_generator) with 0%Z.
    change (Z.min 0 0) with 0%Z. lra. }
  assert (Hy : dy = 0%R).
  { subst dy. rewrite Hr2. unfold router_pos. cbn [Node.y Node.set_pos].
    unfold SVGGenerator.center_y, SVGGenerator.ring_radius.
    change (SVGGenerator.width point_generator) with 0%Z.
    change (SVGGenerator.height point_generator) with 0%Z.
    change (Z.min 0 0) with 0%Z. lra. }
  rewrite Hx, Hy. replace (0 * 0 + 0 * 0)%R with 0%R by ring. rewrite sqrt_0. lra.
Qed.

Lemma ring_layout_other_position_witness :
  let routers := SVGGenerator.routers_of (SVGGenerator.heap hosts_generator) in
  let other_nodes := SVGGenerator.other_nodes_of (SVGGenerator.heap hosts_generator) in
  let self' := SVGGenerator._layout_ring_topology hosts_generator routers other_nodes in
  let alice := SVGGenerator.deref (SVGGenerator.heap self') "alice" in
  let bob := SVGGenerator.deref (SVGGenerator.heap self') "bob" in
  let r2 := SVGGenerator.deref (SVGGenerator.heap self') "r2" in
  let dx := (Node.x r2 - 1000 / 2)%R in
  let dy := (Node.y r2 - 800 / 2)%R in
  let length := sqrt (dx * dx + dy * dy) in
  let point' := SVGGenerator._layout_ring_topology point_generator routers other_nodes in
  SVGGenerator._has_ring_topology hosts_generator routers = true
  /\ shared_connection hosts_generator "alice"
     = Some (connection_of (parsed ring_with_hosts) "D")
  /\ first_router hosts_generator (connection_of (parsed ring_with_hosts) "D") = Some "r2"
  /\ (0 < length)%R
  /\ Node.x alice = (Node.x r2 + dx / length * 100)%R
  /\ Node.y alice = (Node.y r2 + dy / length * 100)%R
  /\ shared_connection hosts_generator "bob" = None
  /\ Node.x bob = (1000 / 2 + IZR (2 - 1) * 50)%R
  /\ Node.y bob = (800 / 2 + 200)%R
  /\ Node.x (SVGGenerator.deref (SVGGenerator.heap point') "alice")
     = Node.x (SVGGenerator.deref (SVGGenerator.heap point') "r2")
  /\ Node.y (SVGGenerator.deref (SVGGenerator.heap point') "alice")
     = (Node.y (SVGGenerator.deref (SVGGenerator.heap point') "r2") - 100)%R.
Proof.
  intros routers other_nodes self' alice bob r2 dx dy length point'.
  assert (Ha : In "alice" (non_routers hosts_generator)) by (vm_compute; tauto).
  assert (Hb : In "bob" (non_routers hosts_generator)) by (vm_compute; tauto).
  assert (Hsa : shared_connection hosts_generator "alice"
                = Some (connection_of (parsed ring_with_hosts) "D"))
    by (vm_compute; reflexivity).
  assert (Hfr : first_router hosts_generator (connection_of (parsed ring_with_hosts) "D")
                = Some "r2") by (vm_compute; reflexivity).
  assert (Hsb : shared_connection hosts_generator "bob" = None)
    by (vm_compute; reflexivity).
  pose proof (ring_layout_other_position hosts_generator "alice" hosts_NoDup Ha) as Ta.
  pose proof (ring_layout_other_position hosts_generator "bob" hosts_NoDup Hb) as Tb.
  pose proof (ring_layout_other_position point_generator "alice" hosts_NoDup Ha) as Tc.
  cbv zeta in Ta, Tb, Tc.
  rewrite Hsa in Ta. rewrite Hsb in Tb.
  change (shared_connection point_generator "alice")
    with (shared_connection hosts_generator "alice") in Tc.
  rewrite Hsa in Tc.
  destruct Ta as [router [Hr [Ta _]]]. rewrite Hfr in Hr. injection Hr as <-.
  destruct (Ta hosts_r2_off_center) as [Hax Hay].
  destruct Tb as [j [Hj [Hbx Hby]]].
  assert (Ej : j = 1%nat).
  { destruct j as [|[|[|j]]]; try reflexivity; vm_compute in Hj; discriminate Hj. }
  subst j.
  destruct Tc as [router [Hr [_ Tc]]].
  change (first_router point_generator (connection_of (parsed ring_with_hosts) "D"))
    with (first_router hosts_generator (connection_of (parsed ring_with_hosts) "D")) in Hr.
  rewrite Hfr in Hr. injection Hr as <-.
  destruct (Tc point_r2_at_center) as [Hcx Hcy].
  split; [vm_compute; reflexivity|].
  split; [exact Hsa|]. split; [exact Hfr|].
  split; [exact hosts_r2_off_center|].
  split; [exact Hax|]. split; [exact Hay|].
  split; [exact Hsb|]. split; [exact Hbx|]. split; [exact Hby|].
  split; [exact Hcx | exact Hcy].
Defined.

(** * Further properties of the parser *)

(** ** More on dicts *)

Section DictMore.
Context {V : Type}.
Implicit Types (d : list (string * V)) (k : string).

Lemma mem_keys k d : Dict.mem k d = existsb (String.eqb k) (Dict.keys d).
Proof.
  unfold Dict.mem. induction d as [|[k0 v0] d IH]; simpl; [reflexivity|].
  destruct (String.eqb k k0); [reflexivity | exact IH].
Qed.

Lemma mem_In k d : Dict.mem k d = true <-> In k (Dict.keys d).
Proof.
  rewrite mem_keys, existsb_exists. split.
  - intros [k0 [Hin E]]. apply String.eqb_eq in E. now subst.
  - intros H. exists k. split; [exact H | apply String.eqb_refl].
Qed.

Lemma keys_set_new k (v : V) d :
  Dict.mem k d = false -> Dict.keys (Dict.set k v d) = (Dict.keys d ++ [k])%list.
Proof.
  unfold Dict.mem. induction d as [|[k0 v0] d IH]; simpl; [reflexivity|].
  destruct (String.eqb k k0); [discriminate|]. intros H. simpl. now rewrite IH.
Qed.

Lemma set_new_app k (v : V) d :
  Dict.mem k d = false -> Dict.set k v d = (d ++ [(k, v)])%list.
Proof.
  unfold Dict.mem. induction d as [|[k0 v0] d IH]; simpl; [reflexivity|].
  destruct (String.eqb k k0); [discriminate|]. intros H. now rewrite IH.
Qed.

Lemma NoDup_keys_set_new k (v : V) d :
  Dict.mem k d = false -> List.NoDup (Dict.keys d) -> List.NoDup (Dict.keys (Dict.set k v d)).
Proof.
  intros Hm Hnd. rewrite keys_set_new by exact Hm.
  apply List.NoDup_app; [exact Hnd | constructor; [simpl; tauto | constructor] |].
  intros a Ha [<-|[]]. apply mem_In in Ha. congruence.
Qed.

Lemma alter_app_new (f : V -> V) k (v : V) d :
  Dict.mem k d = false -> Dict.alter f k (d ++ [(k, v)])%list = (d ++ [(k, f v)])%list.
Proof.
  unfold Dict.mem. induction d as [|[k0 v0] d IH]; simpl.
  - now rewrite String.eqb_refl.
  - destruct (String.eqb k k0); [discriminate|]. intros H. now rewrite IH.
Qed.

Lemma alter_absent (f : V -> V) k d : Dict.mem k d = false -> Dict.alter f k d = d.
Proof.
  unfold Dict.mem. induction d as [|[k0 v0] d IH]; simpl; [reflexivity|].
  destruct (String.eqb k k0); [discriminate|]. intros H. now rewrite IH.
Qed.

Lemma In_alter (f : V -> V) k k0 (v : V) d :
  In (k0, v) (Dict.alter f k d) -> exists v0, In (k0, v0) d /\ (v = v0 \/ v = f v0).
Proof.
  induction d as [|[k1 v1] d IH]; simpl; [tauto|].
  destruct (String.eqb k k1); simpl.
  - intros [H|H]; [injection H as <- <-; eauto | eauto].
  - intros [H|H]; [injection H as <- <-; eauto |].
    destruct (IH H) as [v0 [H0 H1]]. eauto.
Qed.
End DictMore.

(** ** The pattern of node lines *)

Lemma span_app (p : ascii -> bool) (s a b : string) :
  span p s = (a, b) -> s = a ++ b /\ forall_chars p a = true.
Proof.
  revert a b. induction s as [|c s IH]; simpl; intros a b H.
  - injection H as <- <-. split; reflexivity.
  - destruct (p c) eqn:Ec.
    + destruct (span p s) as [a0 b0]. injection H as <- <-.
      destruct (IH a0 b0 eq_refl) as [-> H2]. split; [reflexivity|].
      simpl. now rewrite Ec.
    + injection H as <- <-. split; reflexivity.
Qed.

Lemma span_stop (p : ascii -> bool) (a : string) (c : ascii) (b : string) :
  forall_chars p a = true -> p c = false -> span p (a ++ String c b) = (a, String c b).
Proof.
  intros Ha Hc. induction a as [|c0 a IH].
  - simpl. now rewrite Hc.
  - simpl in Ha. apply andb_true_iff in Ha as [H0 Ha].
    rewrite append_cons. simpl. rewrite H0, (IH Ha). reflexivity.
Qed.

Lemma span_all (p : ascii -> bool) (a : string) :
  forall_chars p a = true -> span p a = (a, "").
Proof.
  induction a as [|c0 a IH]; simpl; [reflexivity|].
  intros Ha. apply andb_true_iff in Ha as [H0 Ha]. now rewrite H0, (IH Ha).
Qed.

Lemma prefix_app (p a b : string) :
  String.prefix p a = true -> String.prefix p (a ++ b) = true.
Proof.
  revert p. induction a as [|c a IH]; intros p H.
  - destruct p; [apply prefix_empty | discriminate H].
  - destruct p as [|c' p]; [apply prefix_empty|].
    rewrite append_cons. simpl in *. destruct (ascii_dec c' c); [now apply IH | discriminate H].
Qed.

(** what a match tells about the line and about the first group *)
Lemma re_match_name (line nm prop value : string) :
  KatharaParser.re_match line = Some (nm, prop, value) ->
  word_name nm /\ exists rest, line = nm ++ rest.
Proof.
  unfold KatharaParser.re_match.
  destruct (span is_word line) as [a b] eqn:E.
  apply span_app in E as [-> Hw].
  destruct a as [|c a]; [discriminate|].
  destruct b as [|c1 r2]; [discriminate|].
  intros H.
  assert (Hnm : nm = String c a).
  { destruct c1 as [[] [] [] [] [] [] [] []]; try discriminate H.
    destruct (span _ r2) as [pn r3].
    destruct pn as [|c2 pn]; [discriminate H|].
    destruct r3 as [|c3 r3]; [discriminate H|].
    destruct c3 as [[] [] [] [] [] [] [] []]; try discriminate H.
    destruct r3 as [|c4 r4]; [discriminate H|].
    destruct c4 as [[] [] [] [] [] [] [] []]; try discriminate H.
    destruct (span _ _) as [v0 r6]. now injection H as <- _ _. }
  subst nm. split; [split; [discriminate | exact Hw] | eauto].
Qed.

(** ** The dicts of a parsed graph are well formed *)

Lemma wf_init : well_formed KatharaParser.init.
Proof. repeat split; constructor. Qed.

Lemma wf_nodes_update (self : KatharaParser.t) (ns : list (string * Node.t)) :
  well_formed self ->
  List.NoDup (Dict.keys ns) ->
  Forall (fun kv => Node.name (snd kv) = fst kv) ns ->
  (forall k, In k (Dict.keys (KatharaParser.nodes self)) -> In k (Dict.keys ns)) ->
  well_formed (KatharaParser.set_nodes ns self).
Proof.
  intros (H1 & H2 & H3 & H4) Hnd Hnames Hsub.
  split; [exact Hnd | split; [exact H2 | split; [exact Hnames|]]].
  simpl. eapply List.Forall_impl; [|exact H4].
  intros kc (Ha & Hb & Hc). split; [exact Ha | split; [exact Hb|]].
  eapply List.Forall_impl; [|exact Hc]. intros m Hm. now apply Hsub.
Qed.

Lemma wf_alter_node (f : Node.t -> Node.t) (k : string) (self : KatharaParser.t) :
  (forall n, Node.name (f n) = Node.name n) ->
  well_formed self ->
  well_formed (KatharaParser.set_nodes (Dict.alter f k (KatharaParser.nodes self)) self).
Proof.
  intros Hf Hwf. pose proof Hwf as (H1 & H2 & H3 & H4).
  apply wf_nodes_update; [exact Hwf | now rewrite keys_alter | | now rewrite keys_alter].
  apply Forall_alter; [|exact H3]. intros k0 v0. simpl. now rewrite Hf.
Qed.

Lemma with_node_keys (nm : string) (self : KatharaParser.t) :
  Dict.keys (KatharaParser.nodes (with_node nm self))
  = add_new (Dict.keys (KatharaParser.nodes self)) nm.
Proof.
  unfold with_node, add_new. rewrite <- mem_keys.
  destruct (Dict.mem nm (KatharaParser.nodes self)) eqn:E; [reflexivity|].
  simpl. now apply keys_set_new.
Qed.

Lemma add_new_In (seen : list string) (k k0 : string) :
  In k0 (add_new seen k) <-> In k0 seen \/ k0 = k.
Proof.
  unfold add_new. destruct (existsb _ seen) eqn:E.
  - split; [tauto|]. intros [H | ->]; [exact H|].
    apply existsb_exists in E as [k1 [Hin E]]. apply String.eqb_eq in E. now subst.
  - rewrite in_app_iff. simpl. intuition congruence.
Qed.

Lemma wf_with_node (nm : string) (self : KatharaParser.t) :
  well_formed self ->
  well_formed (with_node nm self)
  /\ In nm (Dict.keys (KatharaParser.nodes (with_node nm self))).
Proof.
  intros Hwf. split; [|rewrite with_node_keys; apply add_new_In; now right].
  unfold with_node.
  destruct (Dict.mem nm (KatharaParser.nodes self)) eqn:E; [exact Hwf|].
  pose proof Hwf as (H1 & H2 & H3 & H4). apply wf_nodes_update; [exact Hwf | | |].
  - now apply NoDup_keys_set_new.
  - rewrite set_new_app by exact E. apply Forall_app. split; [exact H3|].
    constructor; [reflexivity | constructor].
  - intros k Hk. rewrite keys_set_new by exact E. apply in_app_iff. now left.
Qed.

Lemma wf_add_connection (cd node interface : string) (self : KatharaParser.t) :
  well_formed self ->
  In node (Dict.keys (KatharaParser.nodes self)) ->
  well_formed (KatharaParser._add_connection cd node interface self).
Proof.
  intros (H1 & H2 & H3 & H4) Hnode. unfold KatharaParser._add_connection.
  assert (Hadd : forall k0 c0,
             (Connection.collision_domain c0 = k0
              /\ Forall (fun m => In (fst m) (Dict.keys (KatharaParser.nodes self)))
                        (Connection.nodes c0)) ->
             Connection.collision_domain (Connection.add_node node interface c0) = k0
             /\ Connection.nodes (Connection.add_node node interface c0) <> []
             /\ Forall (fun m => In (fst m) (Dict.keys (KatharaParser.nodes self)))
                       (Connection.nodes (Connection.add_node node interface c0))).
  { intros k0 c0 [Ha Hc]. simpl. split; [exact Ha | split].
    - intros E. apply app_eq_nil in E as [_ E]. discriminate E.
    - apply Forall_app. split; [exact Hc|]. constructor; [exact Hnode | constructor]. }
  destruct (Dict.mem cd (KatharaParser.connections self)) eqn:E;
    unfold well_formed, KatharaParser.set_connections;
    cbn [KatharaParser.nodes KatharaParser.connections].
  - split; [exact H1 | split; [now rewrite keys_alter | split; [exact H3|]]].
    apply Forall_alter; [|exact H4].
    intros k0 c0 (Ha & _ & Hc). apply Hadd. now split.
  - rewrite set_new_app, alter_app_new by exact E.
    split; [exact H1 | split; [|split; [exact H3|]]].
    + unfold Dict.keys. rewrite map_app. simpl.
      apply List.NoDup_app; [exact H2 | constructor; [simpl; tauto | constructor] |].
      intros a Ha [<-|[]]. apply mem_In in Ha. congruence.
    + apply Forall_app. split; [exact H4|].
      constructor; [|constructor]. apply Hadd. split; [reflexivity | constructor].
Qed.

Lemma parse_line_wf (self self' : KatharaParser.t) (line : string) :
  KatharaParser._parse_line self line = Ok self' -> well_formed self -> well_formed self'.
Proof.
  unfold KatharaParser._parse_line. intros H Hwf.
  destruct (startswith "LAB_" line).
  { destruct (split1 "=" line) as [|a [|b [|? ?]]]; try discriminate H.
    injection H as <-. exact Hwf. }
  destruct (KatharaParser.re_match line) as [[[nm prop] value]|];
    [|injection H as <-; exact Hwf].
  fold (with_node nm self) in H.
  destruct (wf_with_node nm self Hwf) as [Hwf1 Hin1].
  destruct (String.eqb prop "image");
    [injection H as <-; now apply wf_alter_node|].
  destruct (isdigit prop); injection H as <-; [|now apply wf_alter_node].
  apply wf_add_connection; [now apply wf_alter_node|].
  simpl. now rewrite keys_alter.
Qed.

Lemma parse_lines_wf (lines : list string) (self g : KatharaParser.t) :
  KatharaParser.parse_lines self lines = Ok g -> well_formed self -> well_formed g.
Proof.
  revert self. induction lines as [|raw lines IH]; simpl; intros self H Hwf.
  - injection H as <-. exact Hwf.
  - destruct (String.eqb (strip raw) "" || startswith "#" (strip raw)); [now apply (IH self)|].
    unfold mbind, result_bind in H.
    destruct (KatharaParser._parse_line self (strip raw)) as [self'|e] eqn:E;
      [|discriminate H].
    apply (IH self' H). now apply (parse_line_wf self self' (strip raw)).
Qed.

Lemma classify_wf (self : KatharaParser.t) :
  well_formed self -> well_formed (KatharaParser._classify_nodes_and_connections self).
Proof.
  intros (H1 & H2 & H3 & H4). unfold KatharaParser._classify_nodes_and_connections.
  simpl. unfold well_formed. simpl. rewrite !keys_map_values.
  split; [exact H1 | split; [exact H2 | split]].
  - unfold Dict.map_values. apply List.Forall_map.
    eapply List.Forall_impl; [|exact H3]. intros kv Hkv. exact Hkv.
  - unfold Dict.map_values at 1. apply List.Forall_map.
    eapply List.Forall_impl; [|exact H4]. intros kc (Ha & Hb & Hc). simpl.
    rewrite classify_connection_nodes. split; [|split; [exact Hb | exact Hc]].
    rewrite <- Ha. unfold Connection.classify_connection.
    repeat match goal with |- context [if ?b then _ else _] => destruct b end; reflexivity.
Qed.

Lemma parse_well_formed (lines : list string) (g : KatharaParser.t) :
  KatharaParser.parse lines = Ok g -> well_formed g.
Proof.
  unfold KatharaParser.parse, mbind, result_bind. intros Hp.
  destruct (KatharaParser.parse_lines KatharaParser.init lines) as [self|e] eqn:E;
    [|discriminate Hp].
  injection Hp as <-. apply classify_wf. exact (parse_lines_wf _ _ _ E wf_init).
Qed.

(** X1: in a parsed graph both dicts have distinct keys, each node sits
    under its own name and each connection under its own collision
    domain. *)
Theorem parsed_dicts_are_keyed (lines : list string) (g : KatharaParser.t) :
  KatharaParser.parse lines = Ok g ->
  List.NoDup (Dict.keys (KatharaParser.nodes g))
  /\ List.NoDup (Dict.keys (KatharaParser.connections g))
  /\ (forall k n, In (k, n) (KatharaParser.nodes g) ->
        Node.name n = k /\ Dict.get k (KatharaParser.nodes g) = Some n)
  /\ (forall cd c, In (cd, c) (KatharaParser.connections g) ->
        Connection.collision_domain c = cd
        /\ Dict.get cd (KatharaParser.connections g) = Some c).
Proof.
  intros Hp. destruct (parse_well_formed lines g Hp) as (H1 & H2 & H3 & H4).
  split; [exact H1 | split; [exact H2 | split]].
  - intros k n Hin. split; [|now apply In_get].
    rewrite List.Forall_forall in H3. exact (H3 _ Hin).
  - intros cd c Hin. split; [|now apply In_get].
    rewrite List.Forall_forall in H4. exact (proj1 (H4 _ Hin)).
Qed.

(** X2: a parsed graph has no empty connection, and every membership
    entry of a connection refers to a node of the graph. *)
Theorem parsed_members_are_nodes (lines : list string) (g : KatharaParser.t)
    (cd : string) (c : Connection.t) :
  KatharaParser.parse lines = Ok g ->
  In (cd, c) (KatharaParser.connections g) ->
  (1 <= length (Connection.nodes c))%nat
  /\ forall node interface, In (node, interface) (Connection.nodes c) ->
       exists n, Dict.get node (KatharaParser.nodes g) = Some n /\ Node.name n = node.
Proof.
  intros Hp Hin. destruct (parse_well_formed lines g Hp) as (H1 & H2 & H3 & H4).
  rewrite List.Forall_forall in H4. destruct (H4 _ Hin) as (_ & Hne & Hm). simpl in *.
  split.
  - destruct (Connection.nodes c); [congruence | simpl; lia].
  - intros node interface Hni. rewrite List.Forall_forall in Hm.
    specialize (Hm _ Hni). simpl in Hm.
    destruct (Dict.get node (KatharaParser.nodes g)) as [n|] eqn:E.
    + exists n. split; [reflexivity|]. apply get_Some_In in E.
      rewrite List.Forall_forall in H3. exact (H3 _ E).
    + apply get_None_keys in E. contradiction.
Qed.

(** ** The type of a connection *)

Lemma router_members_count (g : KatharaParser.t) (c : Connection.t) :
  List.NoDup (Dict.keys (KatharaParser.nodes g)) ->
  router_members g c = Connection.router_count (KatharaParser.nodes g) c.
Proof.
  intros Hnd. unfold router_members, Connection.router_count. f_equal.
  apply List.filter_ext. intros m. now apply router_typed_is_router.
Qed.

Lemma parse_connection_type (lines : list string) (g : KatharaParser.t)
    (cd : string) (c : Connection.t) :
  KatharaParser.parse lines = Ok g ->
  In (cd, c) (KatharaParser.connections g) ->
  Connection.connection_type c
  = if (length (Connection.nodes c) =? 2)%nat then P2p
    else if (2 <? length (Connection.nodes c))%nat then
      if (router_members g c =? 2)%nat then Ring else Lan
    else Lan.
Proof.
  intros Hp Hin.
  rewrite (router_members_count g c (proj1 (parse_well_formed lines g Hp))).
  revert Hp Hin. unfold KatharaParser.parse, mbind, result_bind. intros Hp Hin.
  destruct (KatharaParser.parse_lines KatharaParser.init lines) as [self|e] eqn:E;
    [|discriminate Hp].
  injection Hp as <-.
  pose proof (parse_lines_lan _ _ _ E (List.Forall_nil _)) as Hlan.
  unfold KatharaParser._classify_nodes_and_connections in Hin. simpl in Hin.
  apply in_map_iff in Hin as [[cd0 c0] [Heq Hin0]]. injection Heq as _ <-.
  assert (H0 : Connection.connection_type c0 = Lan).
  { unfold all_lan in Hlan. rewrite List.Forall_forall in Hlan. exact (Hlan _ Hin0). }
  simpl.
  set (h := Dict.map_values Node.classify_node (KatharaParser.nodes self)).
  assert (Hrc : Connection.router_count h (Connection.classify_connection h c0)
                = Connection.router_count h c0).
  { unfold Connection.router_count. now rewrite classify_connection_nodes. }
  now rewrite Hrc, classify_connection_nodes, classify_connection_type, H0.
Qed.

(** C3: the type of every connection of a parsed graph.  Two membership
    entries give p2p; more than two give ring when exactly two of the
    entries are router-typed and lan otherwise; fewer than two leave the
    default, lan. *)
Theorem connection_classification (lines : list string) (g : KatharaParser.t)
    (cd : string) (c : Connection.t) :
  KatharaParser.parse lines = Ok g ->
  In (cd, c) (KatharaParser.connections g) ->
  let n := length (Connection.nodes c) in
  (n = 2 -> Connection.connection_type c = P2p)
  /\ (2 < n -> router_members g c = 2 -> Connection.connection_type c = Ring)
  /\ (2 < n -> router_members g c <> 2 -> Connection.connection_type c = Lan)
  /\ (n < 2 -> Connection.connection_type c = Lan).
Proof.
  intros Hp Hin n. rewrite (parse_connection_type lines g cd c Hp Hin). fold n.
  split; [|split; [|split]]; intros.
  - replace (n =? 2)%nat with true by (symmetry; apply Nat.eqb_eq; lia). reflexivity.
  - replace (n =? 2)%nat with false by (symmetry; apply Nat.eqb_neq; lia).
    replace (2 <? n)%nat with true by (symmetry; apply Nat.ltb_lt; lia).
    replace (router_members g c =? 2)%nat with true by (symmetry; apply Nat.eqb_eq; lia).
    reflexivity.
  - replace (n =? 2)%nat with false by (symmetry; apply Nat.eqb_neq; lia).
    replace (2 <? n)%nat with true by (symmetry; apply Nat.ltb_lt; lia).
    replace (router_members g c =? 2)%nat with false by (symmetry; apply Nat.eqb_neq; lia).
    reflexivity.
  - replace (n =? 2)%nat with false by (symmetry; apply Nat.eqb_neq; lia).
    replace (2 <? n)%nat with false by (symmetry; apply Nat.ltb_ge; lia). reflexivity.
Qed.

Lemma four_connections_parse :
  KatharaParser.parse four_connections = Ok (parsed four_connections).
Proof. vm_compute. reflexivity. Qed.

Lemma four_connections_In (cd : string) :
  Dict.mem cd (KatharaParser.connections (parsed four_connections)) = true ->
  In (cd, connection_of (parsed four_connections) cd)
     (KatharaParser.connections (parsed four_connections)).
Proof.
  unfold Dict.mem, connection_of. intros H. apply get_Some_In.
  now destruct (Dict.get cd _).
Qed.

Lemma connection_classification_witness :
  let g := parsed four_connections in
  KatharaParser.parse four_connections = Ok g
  /\ (length (Connection.nodes (connection_of g "A")) = 2
      /\ Connection.connection_type (connection_of g "A") = P2p)
  /\ (router_members g (connection_of g "H") = 2
      /\ Connection.connection_type (connection_of g "H") = Ring)
  /\ (router_members g (connection_of g "L") = 0
      /\ Connection.connection_type (connection_of g "L") = Lan)
  /\ (length (Connection.nodes (connection_of g "S")) = 1
      /\ Connection.connection_type (connection_of g "S") = Lan).
Proof.
  intros g.
  pose proof (fun cd H =>
                connection_classification four_connections g cd (connection_of g cd)
                  four_connections_parse (four_connections_In cd H)) as T.
  split; [exact four_connections_parse|].
  split; [|split; [|split]]; (split; [vm_compute; reflexivity|]).
  - apply (proj1 (T "A" eq_refl)). vm_compute. reflexivity.
  - apply (proj1 (proj2 (T "H" eq_refl))); vm_compute; [lia | reflexivity].
  - apply (proj1 (proj2 (proj2 (T "L" eq_refl)))); vm_compute; [lia | discriminate].
  - apply (proj2 (proj2 (proj2 (T "S" eq_refl)))). vm_compute. lia.
Defined.

(** ** The nodes of a parsed graph, in order *)

Lemma declared_nodes_cons (raw : string) (lines : list string) :
  declared_nodes (raw :: lines) = (declared_nodes [raw] ++ declared_nodes lines)%list.
Proof. unfold declared_nodes. simpl. now rewrite app_nil_r. Qed.

Lemma keys_parse_line (self self' : KatharaParser.t) (raw : string) :
  (String.eqb (strip raw) "" || startswith "#" (strip raw)) = false ->
  KatharaParser._parse_line self (strip raw) = Ok self' ->
  Dict.keys (KatharaParser.nodes self')
  = fold_left add_new (declared_nodes [raw]) (Dict.keys (KatharaParser.nodes self)).
Proof.
  intros Hskip. unfold declared_nodes, node_declaration. simpl.
  rewrite Hskip, app_nil_r. unfold KatharaParser._parse_line.
  destruct (startswith "LAB_" (strip raw)).
  { destruct (split1 "=" (strip raw)) as [|a [|b [|? ?]]]; try discriminate.
    now intros [= <-]. }
  destruct (KatharaParser.re_match (strip raw)) as [[[nm prop] value]|];
    [|now intros [= <-]].
  fold (with_node nm self). simpl. rewrite <- with_node_keys.
  destruct (String.eqb prop "image"); [intros [= <-]; simpl; apply keys_alter|].
  destruct (isdigit prop); intros [= <-]; simpl; [|apply keys_alter].
  unfold KatharaParser._add_connection.
  destruct (Dict.mem value _); simpl; apply keys_alter.
Qed.

Lemma keys_parse_lines (lines : list string) (self g : KatharaParser.t) :
  KatharaParser.parse_lines self lines = Ok g ->
  Dict.keys (KatharaParser.nodes g)
  = fold_left add_new (declared_nodes lines) (Dict.keys (KatharaParser.nodes self)).
Proof.
  revert self. induction lines as [|raw lines IH]; intros self H.
  - injection H as <-. reflexivity.
  - rewrite declared_nodes_cons, fold_left_app. simpl in H.
    destruct (String.eqb (strip raw) "" || startswith "#" (strip raw)) eqn:Hskip.
    + rewrite (IH self H). f_equal.
      unfold declared_nodes, node_declaration. simpl. now rewrite Hskip.
    + unfold mbind, result_bind in H.
      destruct (KatharaParser._parse_line self (strip raw)) as [self'|e] eqn:E;
        [|discriminate H].
      now rewrite (IH self' H), (keys_parse_line self self' raw Hskip E).
Qed.

Lemma parse_keys (lines : list string) (g : KatharaParser.t) :
  KatharaParser.parse lines = Ok g ->
  Dict.keys (KatharaParser.nodes g) = fold_left add_new (declared_nodes lines) [].
Proof.
  unfold KatharaParser.parse, mbind, result_bind. intros Hp.
  destruct (KatharaParser.parse_lines KatharaParser.init lines) as [self|e] eqn:E;
    [|discriminate Hp].
  injection Hp as <-. unfold KatharaParser._classify_nodes_and_connections. simpl.
  rewrite keys_map_values. exact (keys_parse_lines lines _ _ E).
Qed.

(** X3: the node dict of the graph of an ASCII file lists the node
    names of the node lines, each once, in the order of their first
    occurrence in the file. *)
Theorem parsed_nodes_in_first_occurrence_order (lines : list string) (g : KatharaParser.t) :
  ascii_lines lines ->
  KatharaParser.parse lines = Ok g ->
  Dict.keys (KatharaParser.nodes g) = first_occurrences (declared_nodes lines).
Proof. intros _ Hp. exact (parse_keys lines g Hp). Qed.

Lemma fold_add_new_In (ks seen : list string) (k : string) :
  In k (fold_left add_new ks seen) -> In k seen \/ In k ks.
Proof.
  revert seen. induction ks as [|k0 ks IH]; simpl; intros seen H; [tauto|].
  apply IH in H as [H|H]; [|tauto].
  apply add_new_In in H as [H|H]; [tauto | subst; tauto].
Qed.

Lemma node_declaration_name (raw nm prop value : string) :
  node_declaration raw = Some (nm, prop, value) ->
  word_name nm /\ startswith "LAB_" nm = false.
Proof.
  unfold node_declaration. cbv zeta.
  destruct (String.eqb (strip raw) "" || startswith "#" (strip raw)); [discriminate|].
  destruct (startswith "LAB_" (strip raw)) eqn:El; [discriminate|].
  intros H. apply re_match_name in H as [Hw [rest Hr]]. split; [exact Hw|].
  destruct (startswith "LAB_" nm) eqn:En; [|reflexivity].
  unfold startswith in *. rewrite Hr, (prefix_app _ _ rest En) in El. discriminate El.
Qed.

(** X4: every node name of the graph of an ASCII file is a non-empty
    run of word characters that does not start with [LAB_]: a line
    starting with the lab prefix is never read as a node line. *)
Theorem parsed_node_names (lines : list string) (g : KatharaParser.t)
    (k : string) (n : Node.t) :
  ascii_lines lines ->
  KatharaParser.parse lines = Ok g ->
  In (k, n) (KatharaParser.nodes g) ->
  k <> "" /\ forall_chars is_word k = true /\ startswith "LAB_" k = false.
Proof.
  intros _.
  intros Hp Hin.
  assert (Hk : In k (Dict.keys (KatharaParser.nodes g))).
  { change k with (fst (k, n)). now apply in_map. }
  rewrite (parse_keys lines g Hp) in Hk.
  apply fold_add_new_In in Hk as [[]|Hk].
  unfold declared_nodes in Hk. apply in_flat_map in Hk as [raw [_ Hk]].
  destruct (node_declaration raw) as [[[nm prop] value]|] eqn:E; [|destruct Hk].
  destruct Hk as [<-|[]].
  destruct (node_declaration_name raw nm prop value E) as [[H1 H2] H3]. auto.
Qed.

(** ** When [parse] fails *)

Lemma parse_line_exn (self : KatharaParser.t) (line : string) (e : exn) :
  KatharaParser._parse_line self line = Raise e -> e = ValueError.
Proof.
  unfold KatharaParser._parse_line.
  destruct (startswith "LAB_" line).
  - destruct (split1 "=" line) as [|a [|b [|? ?]]]; intros H;
      try discriminate H; now injection H.
  - destruct (KatharaParser.re_match line) as [[[nm prop] value]|]; [|discriminate].
    destruct (String.eqb prop "image"); [discriminate|].
    destruct (isdigit prop); discriminate.
Qed.

Lemma parse_lines_outcome (lines : list string) (self : KatharaParser.t) :
  match KatharaParser.parse_lines self lines with
  | Ok _ => existsb lab_line_without_equals lines = false
  | Raise e => e = ValueError /\ existsb lab_line_without_equals lines = true
  end.
Proof.
  revert self. induction lines as [|raw lines IH]; intros self; simpl; [reflexivity|].
  unfold lab_line_without_equals at 1 3. cbv zeta.
  destruct (String.eqb (strip raw) "" || startswith "#" (strip raw)); simpl; [apply IH|].
  unfold mbind, result_bind.
  destruct (KatharaParser._parse_line self (strip raw)) as [self'|e] eqn:E.
  - assert (Hok : startswith "LAB_" (strip raw) && negb (contains "=" (strip raw)) = false).
    { destruct (startswith "LAB_" (strip raw)) eqn:E1; [|reflexivity].
      destruct (contains "=" (strip raw)) eqn:E2; [reflexivity|].
      assert (Hr : exists e, KatharaParser._parse_line self (strip raw) = Raise e)
        by (apply parse_line_raises; split; [exact E1 | exact E2]).
      destruct Hr as [e He]. congruence. }
    rewrite Hok. simpl. apply IH.
  - split; [exact (parse_line_exn _ _ _ E)|].
    assert (Hr : startswith "LAB_" (strip raw) = true /\ contains "=" (strip raw) = false)
      by (apply (parse_line_raises self); eauto).
    destruct Hr as [-> ->]. reflexivity.
Qed.

(** X5: on an ASCII file [parse] fails exactly when some line that is
    neither blank nor a comment starts with [LAB_] and holds no equal
    sign, and then with [ValueError]; every other ASCII file parses. *)
Theorem parse_outcome (lines : list string) :
  ascii_lines lines ->
  match KatharaParser.parse lines with
  | Ok _ => existsb lab_line_without_equals lines = false
  | Raise e => e = ValueError /\ existsb lab_line_without_equals lines = true
  end.
Proof.
  intros _.
  unfold KatharaParser.parse, mbind, result_bind.
  pose proof (parse_lines_outcome lines KatharaParser.init) as H.
  destruct (KatharaParser.parse_lines KatharaParser.init lines); exact H.
Qed.

(** ** Last write wins *)

Lemma add_connection_lab_info (cd node interface : string) (self : KatharaParser.t) :
  KatharaParser.lab_info (KatharaParser._add_connection cd node interface self)
  = KatharaParser.lab_info self.
Proof.
  unfold KatharaParser._add_connection. now destruct (Dict.mem cd _).
Qed.

Lemma add_connection_nodes (cd node interface : string) (self : KatharaParser.t) :
  KatharaParser.nodes (KatharaParser._add_connection cd node interface self)
  = KatharaParser.nodes self.
Proof.
  unfold KatharaParser._add_connection. now destruct (Dict.mem cd _).
Qed.

Lemma lab_info_parse_line (self self' : KatharaParser.t) (raw key : string) :
  (String.eqb (strip raw) "" || startswith "#" (strip raw)) = false ->
  KatharaParser._parse_line self (strip raw) = Ok self' ->
  KatharaParser.lab_info self' !! key
  = lab_step key (KatharaParser.lab_info self !! key) raw.
Proof.
  intros Hskip. unfold lab_step, lab_declaration. cbv zeta. rewrite Hskip.
  unfold KatharaParser._parse_line.
  destruct (startswith "LAB_" (strip raw)).
  { destruct (split1 "=" (strip raw)) as [|a [|b [|? ?]]]; try discriminate.
    intros [= <-]. simpl. rewrite lookup_insert.
    destruct (String.eqb a key) eqn:E.
    - apply String.eqb_eq in E. subst a. now rewrite decide_True.
    - apply String.eqb_neq in E. now rewrite decide_False. }
  destruct (KatharaParser.re_match (strip raw)) as [[[nm prop] value]|];
    [|now intros [= <-]].
  fold (with_node nm self).
  assert (H1 : KatharaParser.lab_info (with_node nm self) = KatharaParser.lab_info self).
  { unfold with_node. now destruct (Dict.mem nm _). }
  destruct (String.eqb prop "image"); [intros [= <-]; simpl; now rewrite H1|].
  destruct (isdigit prop); intros [= <-]; [|simpl; now rewrite H1].
  rewrite add_connection_lab_info. simpl. now rewrite H1.
Qed.

Lemma lab_info_parse_lines (lines : list string) (self g : KatharaParser.t) (key : string) :
  KatharaParser.parse_lines self lines = Ok g ->
  KatharaParser.lab_info g !! key
  = fold_left (lab_step key) lines (KatharaParser.lab_info self !! key).
Proof.
  revert self. induction lines as [|raw lines IH]; intros self H.
  - injection H as <-. reflexivity.
  - simpl in H. simpl fold_left.
    destruct (String.eqb (strip raw) "" || startswith "#" (strip raw)) eqn:Hskip.
    + rewrite (IH self H). f_equal. unfold lab_step, lab_declaration. cbv zeta.
      now rewrite Hskip.
    + unfold mbind, result_bind in H.
      destruct (KatharaParser._parse_line self (strip raw)) as [self'|e] eqn:E;
        [|discriminate H].
      now rewrite (IH self' H), (lab_info_parse_line self self' raw key Hskip E).
Qed.

(** X6: the lab information of the graph of an ASCII file holds, under each key,
    the value of the last lab line with that key, stripped of its
    double quotes at both ends, and nothing under a key no lab line
    has; node lines and classification leave it alone. *)
Theorem lab_info_last_write (lines : list string) (g : KatharaParser.t) (key : string) :
  ascii_lines lines ->
  KatharaParser.parse lines = Ok g ->
  KatharaParser.lab_info g !! key = last_lab key lines.
Proof.
  intros _.
  unfold KatharaParser.parse, mbind, result_bind. intros Hp.
  destruct (KatharaParser.parse_lines KatharaParser.init lines) as [self|e] eqn:E;
    [|discriminate Hp].
  injection Hp as <-. unfold KatharaParser._classify_nodes_and_connections. simpl.
  exact (lab_info_parse_lines lines _ _ key E).
Qed.

Lemma with_node_get (nm : string) (self : KatharaParser.t) :
  exists n, Dict.get nm (KatharaParser.nodes (with_node nm self)) = Some n.
Proof.
  unfold with_node, Dict.mem.
  destruct (Dict.get nm (KatharaParser.nodes self)) as [n|] eqn:E; [eauto|].
  simpl. rewrite get_set, String.eqb_refl. eauto.
Qed.

Section Attribute.
Context {A : Type}.
Variable attr : Node.t -> A.
Variable a0 : A.
Variable inj : string -> A.
Variable sel : string -> bool.
Hypothesis attr_init : forall nm, attr (Node.init nm) = a0.
Hypothesis attr_image :
  forall v n, attr (Node.set_image v n) = if sel "image" then inj v else attr n.
Hypothesis attr_interface :
  forall p v n, isdigit p = true ->
    attr (Node.add_interface p v n) = if sel p then inj v else attr n.
Hypothesis attr_property :
  forall p v n, String.eqb p "image" = false -> isdigit p = false ->
    attr (Node.add_property p v n) = if sel p then inj v else attr n.
Hypothesis attr_classify : forall n, attr (Node.classify_node n) = attr n.

Lemma attr_with_node (nm : string) (self : KatharaParser.t) (node : string) :
  attr_of attr a0 (with_node nm self) node = attr_of attr a0 self node.
Proof.
  unfold with_node, Dict.mem, attr_of.
  destruct (Dict.get nm (KatharaParser.nodes self)) as [n|] eqn:E; [reflexivity|].
  simpl. rewrite get_set. destruct (String.eqb nm node) eqn:En; [|reflexivity].
  apply String.eqb_eq in En. subst nm. now rewrite E, attr_init.
Qed.

Lemma attr_alter (f : Node.t -> Node.t) (nm : string) (self : KatharaParser.t)
    (node : string) (b : bool) (v : string) :
  (forall n, attr (f n) = if b then inj v else attr n) ->
  (exists n, Dict.get nm (KatharaParser.nodes self) = Some n) ->
  attr_of attr a0
    (KatharaParser.set_nodes (Dict.alter f nm (KatharaParser.nodes self)) self) node
  = if String.eqb nm node && b then inj v else attr_of attr a0 self node.
Proof.
  intros Hf [n Hn]. unfold attr_of. simpl. rewrite get_alter.
  destruct (String.eqb nm node) eqn:En; [|reflexivity].
  apply String.eqb_eq in En. subst nm. rewrite Hn. simpl. apply Hf.
Qed.

Lemma attr_parse_line (self self' : KatharaParser.t) (raw node : string) :
  (String.eqb (strip raw) "" || startswith "#" (strip raw)) = false ->
  KatharaParser._parse_line self (strip raw) = Ok self' ->
  attr_of attr a0 self' node = attr_step inj sel node (attr_of attr a0 self node) raw.
Proof.
  intros Hskip. unfold attr_step, node_declaration. cbv zeta. rewrite Hskip.
  unfold KatharaParser._parse_line.
  destruct (startswith "LAB_" (strip raw)).
  { destruct (split1 "=" (strip raw)) as [|a [|b [|? ?]]]; try discriminate.
    now intros [= <-]. }
  destruct (KatharaParser.re_match (strip raw)) as [[[nm prop] value]|];
    [|now intros [= <-]].
  fold (with_node nm self).
  rewrite <- (attr_with_node nm self node).
  destruct (String.eqb prop "image") eqn:Ei.
  { intros [= <-]. apply String.eqb_eq in Ei. subst prop.
    apply attr_alter; [apply attr_image | apply with_node_get]. }
  destruct (isdigit prop) eqn:Ed; intros [= <-].
  - unfold attr_of. rewrite add_connection_nodes.
    apply (attr_alter (Node.add_interface prop value) nm (with_node nm self) node);
      [intros n; now apply attr_interface | apply with_node_get].
  - apply attr_alter; [intros n; now apply attr_property | apply with_node_get].
Qed.

Lemma attr_parse_lines (lines : list string) (self g : KatharaParser.t) (node : string) :
  KatharaParser.parse_lines self lines = Ok g ->
  attr_of attr a0 g node
  = fold_left (attr_step inj sel node) lines (attr_of attr a0 self node).
Proof.
  revert self. induction lines as [|raw lines IH]; intros self H.
  - injection H as <-. reflexivity.
  - simpl in H. simpl fold_left.
    destruct (String.eqb (strip raw) "" || startswith "#" (strip raw)) eqn:Hskip.
    + rewrite (IH self H). f_equal. unfold attr_step, node_declaration. cbv zeta.
      now rewrite Hskip.
    + unfold mbind, result_bind in H.
      destruct (KatharaParser._parse_line self (strip raw)) as [self'|e] eqn:E;
        [|discriminate H].
      now rewrite (IH self' H), (attr_parse_line self self' raw node Hskip E).
Qed.

Lemma attr_fold_last (node : string) (lines : list string) (a : A) (acc : option string) :
  fold_left (attr_step inj sel node) lines
            (match acc with Some v => inj v | None => a end)
  = match fold_left
            (fun acc raw =>
               match node_declaration raw with
               | Some (n, p, v) => if String.eqb n node && sel p then Some v else acc
               | None => acc
               end)
            lines acc with
    | Some v => inj v
    | None => a
    end.
Proof.
  revert acc. induction lines as [|raw lines IH]; intros acc; simpl; [reflexivity|].
  rewrite <- IH. f_equal. unfold attr_step.
  destruct (node_declaration raw) as [[[n p] v]|]; [|reflexivity].
  now destruct (String.eqb n node && sel p).
Qed.

Lemma attr_parse (lines : list string) (g : KatharaParser.t) (node : string) :
  KatharaParser.parse lines = Ok g ->
  attr_of attr a0 g node
  = match last_where node sel lines with Some v => inj v | None => a0 end.
Proof.
  unfold KatharaParser.parse, mbind, result_bind. intros Hp.
  destruct (KatharaParser.parse_lines KatharaParser.init lines) as [self|e] eqn:E;
    [|discriminate Hp].
  injection Hp as <-.
  assert (Hc : attr_of attr a0 (KatharaParser._classify_nodes_and_connections self) node
               = attr_of attr a0 self node).
  { unfold attr_of, KatharaParser._classify_nodes_and_connections. simpl.
    rewrite get_map_values. destruct (Dict.get node _); simpl; [apply attr_classify|].
    reflexivity. }
  rewrite Hc, (attr_parse_lines lines _ _ node E).
  exact (attr_fold_last node lines a0 None).
Qed.
End Attribute.

Lemma digit_not_image (p : string) : isdigit p = true -> String.eqb "image" p = false.
Proof.
  intros H. destruct (String.eqb "image" p) eqn:E; [|reflexivity].
  apply String.eqb_eq in E. subst p. discriminate H.
Qed.

(** X7: for the attributes of a node, the last write wins.  In the
    graph of an ASCII file the image of a node is the value of the last
    [image] line naming it (empty when there is none), interface [i] is
    the collision domain of its last line with the all-digit property
    [i], and property [p] the value of its last line with the
    property [p], for [p] neither [image] nor all digits. *)
Theorem node_attributes_last_write (lines : list string) (g : KatharaParser.t)
    (node : string) (n : Node.t) :
  ascii_lines lines ->
  KatharaParser.parse lines = Ok g ->
  Dict.get node (KatharaParser.nodes g) = Some n ->
  Node.image n = default "" (last_declared node "image" lines)
  /\ (forall i, isdigit i = true ->
        Node.interfaces n !! i = last_declared node i lines)
  /\ (forall p, p <> "image" -> isdigit p = false ->
        Node.properties n !! p = last_declared node p lines).
Proof.
  intros _.
  intros Hp Hn. split; [|split].
  - pose proof (attr_parse Node.image "" (fun v => v) (String.eqb "image")
                  (fun _ => eq_refl) (fun _ _ => eq_refl)) as H.
    unfold attr_of in H. specialize (H
      (fun p v n0 Hd => eq_sym (f_equal (fun b : bool => if b then v else Node.image n0)
                                        (digit_not_image p Hd)))).
    assert (Hpr : forall p v n0, String.eqb p "image" = false -> isdigit p = false ->
              Node.image (Node.add_property p v n0)
              = if String.eqb "image" p then v else Node.image n0).
    { intros p v n0 Hi _. now rewrite String.eqb_sym, Hi. }
    specialize (H Hpr (fun _ => eq_refl) lines g node Hp). rewrite Hn in H.
    unfold last_declared. rewrite H. now destruct (last_where _ _ _).
  - intros i Hi.
    pose proof (attr_parse (fun n0 => Node.interfaces n0 !! i) None Some (String.eqb i)
                  (fun _ => eq_refl)) as H.
    unfold attr_of in H.
    assert (H1 : forall v n0,
              Node.interfaces (Node.set_image v n0) !! i
              = if String.eqb i "image" then Some v else Node.interfaces n0 !! i).
    { intros v n0. simpl. rewrite String.eqb_sym, (digit_not_image i Hi). reflexivity. }
    assert (H2 : forall p v n0, isdigit p = true ->
              Node.interfaces (Node.add_interface p v n0) !! i
              = if String.eqb i p then Some v else Node.interfaces n0 !! i).
    { intros p v n0 _. simpl. rewrite lookup_insert.
      destruct (String.eqb i p) eqn:E.
      - apply String.eqb_eq in E. subst p. now rewrite decide_True.
      - apply String.eqb_neq in E. rewrite decide_False by congruence. reflexivity. }
    assert (H3 : forall p v n0, String.eqb p "image" = false -> isdigit p = false ->
              Node.interfaces (Node.add_property p v n0) !! i
              = if String.eqb i p then Some v else Node.interfaces n0 !! i).
    { intros p v n0 _ Hd. simpl. destruct (String.eqb i p) eqn:E; [|reflexivity].
      apply String.eqb_eq in E. subst p. congruence. }
    specialize (H H1 H2 H3 (fun _ => eq_refl) lines g node Hp). rewrite Hn in H.
    unfold last_declared. rewrite H. now destruct (last_where _ _ _).
  - intros p Hpi Hpd.
    pose proof (attr_parse (fun n0 => Node.properties n0 !! p) None Some (String.eqb p)
                  (fun _ => eq_refl)) as H.
    unfold attr_of in H.
    assert (Hne : String.eqb p "image" = false) by now apply String.eqb_neq.
    assert (H1 : forall v n0,
              Node.properties (Node.set_image v n0) !! p
              = if String.eqb p "image" then Some v else Node.properties n0 !! p).
    { intros v n0. simpl. now rewrite Hne. }
    assert (H2 : forall q v n0, isdigit q = true ->
              Node.properties (Node.add_interface q v n0) !! p
              = if String.eqb p q then Some v else Node.properties n0 !! p).
    { intros q v n0 Hd. simpl. destruct (String.eqb p q) eqn:E; [|reflexivity].
      apply String.eqb_eq in E. subst q. congruence. }
    assert (H3 : forall q v n0, String.eqb q "image" = false -> isdigit q = false ->
              Node.properties (Node.add_property q v n0) !! p
              = if String.eqb p q then Some v else Node.properties n0 !! p).
    { intros q v n0 _ _. simpl. rewrite lookup_insert.
      destruct (String.eqb p q) eqn:E.
      - apply String.eqb_eq in E. subst q. now rewrite decide_True.
      - apply String.eqb_neq in E. rewrite decide_False by congruence. reflexivity. }
    specialize (H H1 H2 H3 (fun _ => eq_refl) lines g node Hp). rewrite Hn in H.
    unfold last_declared. rewrite H. now destruct (last_where _ _ _).
Qed.

(** ** Interfaces and memberships agree *)

Lemma last_where_Some (node : string) (sel : string -> bool) (lines : list string)
    (acc : option string) (v : string) :
  fold_left
    (fun acc raw =>
       match node_declaration raw with
       | Some (n, p, v) => if String.eqb n node && sel p then Some v else acc
       | None => acc
       end)
    lines acc = Some v ->
  acc = Some v
  \/ exists raw p, In raw lines /\ node_declaration raw = Some (node, p, v) /\ sel p = true.
Proof.
  revert acc. induction lines as [|raw lines IH]; simpl; intros acc H; [now left|].
  apply IH in H as [H|[raw0 [p [Hin H]]]]; [|right; exists raw0, p; tauto].
  destruct (node_declaration raw) as [[[n p] v0]|] eqn:E; [|now left].
  destruct (String.eqb n node && sel p) eqn:Ec; [|now left].
  apply andb_true_iff in Ec as [En Es]. apply String.eqb_eq in En. subst n.
  injection H as ->. right. exists raw, p. auto.
Qed.

Lemma last_where_never (node : string) (lines : list string) :
  last_where node (fun _ => false) lines = None.
Proof.
  unfold last_where. induction lines as [|raw lines IH]; simpl; [reflexivity|].
  destruct (node_declaration raw) as [[[n p] v0]|]; [|exact IH].
  now rewrite andb_false_r.
Qed.

Lemma parse_members (lines : list string) (g : KatharaParser.t) (cd : string) :
  KatharaParser.parse lines = Ok g -> members g cd = declared_members cd lines.
Proof.
  unfold KatharaParser.parse, mbind, result_bind. intros Hp.
  destruct (KatharaParser.parse_lines KatharaParser.init lines) as [self|e] eqn:E;
    [|discriminate Hp].
  injection Hp as <-.
  rewrite members_classify, (members_parse_lines lines _ self cd E). reflexivity.
Qed.

Lemma interface_of_node_declaration (raw node i cd : string) :
  node_declaration raw = Some (node, i, cd) -> isdigit i = true ->
  interface_declaration raw = Some (node, i, cd).
Proof.
  unfold node_declaration, interface_declaration. cbv zeta.
  destruct (String.eqb (strip raw) "" || startswith "#" (strip raw)); [discriminate|].
  destruct (startswith "LAB_" (strip raw)); [discriminate|].
  intros -> ->. reflexivity.
Qed.

Lemma parsed_interfaces (lines : list string) (g : KatharaParser.t)
    (node : string) (n : Node.t) (i : string) :
  KatharaParser.parse lines = Ok g ->
  Dict.get node (KatharaParser.nodes g) = Some n ->
  Node.interfaces n !! i
  = if isdigit i then last_where node (String.eqb i) lines else None.
Proof.
  intros Hp Hn. destruct (isdigit i) eqn:Hi.
  - pose proof (attr_parse (fun n0 => Node.interfaces n0 !! i) None Some (String.eqb i)
                  (fun _ => eq_refl)) as H.
    unfold attr_of in H.
    assert (H1 : forall v n0,
              Node.interfaces (Node.set_image v n0) !! i
              = if String.eqb i "image" then Some v else Node.interfaces n0 !! i).
    { intros v n0. simpl. rewrite String.eqb_sym, (digit_not_image i Hi). reflexivity. }
    assert (H2 : forall p v n0, isdigit p = true ->
              Node.interfaces (Node.add_interface p v n0) !! i
              = if String.eqb i p then Some v else Node.interfaces n0 !! i).
    { intros p v n0 _. simpl. rewrite lookup_insert.
      destruct (String.eqb i p) eqn:E.
      - apply String.eqb_eq in E. subst p. now rewrite decide_True.
      - apply String.eqb_neq in E. rewrite decide_False by congruence. reflexivity. }
    assert (H3 : forall p v n0, String.eqb p "image" = false -> isdigit p = false ->
              Node.interfaces (Node.add_property p v n0) !! i
              = if String.eqb i p then Some v else Node.interfaces n0 !! i).
    { intros p v n0 _ Hd. simpl. destruct (String.eqb i p) eqn:E; [|reflexivity].
      apply String.eqb_eq in E. subst p. congruence. }
    specialize (H H1 H2 H3 (fun _ => eq_refl) lines g node Hp). rewrite Hn in H.
    rewrite H. now destruct (last_where _ _ _).
  - pose proof (attr_parse (fun n0 => Node.interfaces n0 !! i) None Some (fun _ => false)
                  (fun _ => eq_refl) (fun _ _ => eq_refl)) as H.
    unfold attr_of in H.
    assert (H2 : forall p v n0, isdigit p = true ->
              Node.interfaces (Node.add_interface p v n0) !! i = Node.interfaces n0 !! i).
    { intros p v n0 Hd. simpl. apply lookup_insert_ne. congruence. }
    specialize (H H2 (fun _ _ _ _ _ => eq_refl) (fun _ => eq_refl) lines g node Hp).
    rewrite Hn, last_where_never in H. exact H.
Qed.

(** X8: in the graph of an ASCII file every interface recorded on a
    node is a membership entry of its collision domain: when interface [i] of
    [node] is [cd], the connection [cd] exists and lists [(node, i)],
    and [i] is all digits. *)
Theorem interfaces_are_memberships (lines : list string) (g : KatharaParser.t)
    (node : string) (n : Node.t) (i cd : string) :
  ascii_lines lines ->
  KatharaParser.parse lines = Ok g ->
  Dict.get node (KatharaParser.nodes g) = Some n ->
  Node.interfaces n !! i = Some cd ->
  isdigit i = true
  /\ exists c, Dict.get cd (KatharaParser.connections g) = Some c
               /\ In (node, i) (Connection.nodes c).
Proof.
  intros _.
  intros Hp Hn Hi. rewrite (parsed_interfaces lines g node n i Hp Hn) in Hi.
  destruct (isdigit i) eqn:Hd; [|discriminate Hi]. split; [reflexivity|].
  apply last_where_Some in Hi as [Hi|[raw [p [Hin [Hdecl Hs]]]]]; [discriminate Hi|].
  apply String.eqb_eq in Hs. subst p.
  assert (Hm : In (node, i) (members g cd)).
  { rewrite (parse_members lines g cd Hp). unfold declared_members.
    apply in_flat_map. exists raw. split; [exact Hin|].
    rewrite (interface_of_node_declaration raw node i cd Hdecl Hd), String.eqb_refl.
    now left. }
  unfold members in Hm.
  destruct (Dict.get cd (KatharaParser.connections g)) as [c|]; [eauto | destruct Hm].
Qed.

(** ** The pattern accepts what it should *)

(** X9: a line [name[prop]=value], with the value between double quotes
    or bare, matches the pattern of node lines and yields exactly
    [name], [prop] and [value], when the name is a non-empty run of word
    characters, the property is non-empty and holds no closing bracket,
    and the value holds no double quote. *)
Theorem node_line_round_trip (nm prop value : string) :
  word_name nm ->
  prop <> "" ->
  forall_chars (fun c => negb (Ascii.eqb c "]")) prop = true ->
  forall_chars (fun c => negb (Ascii.eqb c dq)) value = true ->
  KatharaParser.re_match
    (nm ++ "[" ++ prop ++ "]=" ++ String dq (value ++ String dq ""))
  = Some (nm, prop, value)
  /\ KatharaParser.re_match (nm ++ "[" ++ prop ++ "]=" ++ value)
     = Some (nm, prop, value).
Proof.
  intros [Hne Hw] Hp Hpc Hv. unfold KatharaParser.re_match.
  change ("[" ++ prop ++ "]=" ++ String dq (value ++ String dq ""))
    with (String "[" (prop ++ String "]" (String "=" (String dq (value ++ String dq ""))))).
  change ("[" ++ prop ++ "]=" ++ value)
    with (String "[" (prop ++ String "]" (String "=" value))).
  rewrite !(span_stop is_word nm "[") by (exact Hw || reflexivity).
  destruct nm as [|c0 nm]; [congruence|].
  rewrite !(span_stop _ prop "]") by (exact Hpc || reflexivity).
  destruct prop as [|p0 prop]; [congruence|].
  split.
  - rewrite Ascii.eqb_refl.
    rewrite (span_stop _ value dq "") by (exact Hv || reflexivity).
    reflexivity.
  - destruct value as [|v0 value].
    + reflexivity.
    + simpl in Hv. apply andb_true_iff in Hv as [Hv0 Hv].
      apply negb_true_iff in Hv0. rewrite Hv0.
      assert (Hs : span (fun c => negb (Ascii.eqb c dq)) (String v0 value)
                   = (String v0 value, "")).
      { apply span_all. simpl. now rewrite Hv0, Hv. }
      rewrite Hs. reflexivity.
Qed.

(** * The empty lab *)

Lemma re_match_node_line (line nm prop value : string) :
  KatharaParser.re_match line = Some (nm, prop, value) -> node_line line.
Proof.
  unfold KatharaParser.re_match.
  destruct (span is_word line) as [a b] eqn:E.
  apply span_app in E as [-> Hw].
  destruct a as [|c a]; [discriminate|].
  destruct b as [|c1 r2]; [discriminate|].
  destruct c1 as [[] [] [] [] [] [] [] []]; try discriminate.
  destruct (span _ r2) as [pn r3] eqn:E2.
  apply span_app in E2 as [-> Hp].
  destruct pn as [|c2 pn]; [discriminate|].
  destruct r3 as [|c3 r3]; [discriminate|].
  destruct c3 as [[] [] [] [] [] [] [] []]; try discriminate.
  destruct r3 as [|c4 r4]; [discriminate|].
  destruct c4 as [[] [] [] [] [] [] [] []]; try discriminate.
  intros _. exists (String c a), (String c2 pn), r4.
  split; [reflexivity|]. split; [split; [discriminate | exact Hw]|].
  split; [discriminate | exact Hp].
Qed.

Lemma node_line_re_match (line : string) :
  node_line line -> KatharaParser.re_match line <> None.
Proof.
  intros (nm & prop & rest & -> & [Hne Hw] & Hp & Hpc).
  unfold KatharaParser.re_match.
  change ("[" ++ prop ++ "]=" ++ rest) with (String "[" (prop ++ String "]" (String "=" rest))).
  rewrite (span_stop is_word nm "[") by (exact Hw || reflexivity).
  destruct nm as [|c0 nm]; [congruence|].
  rewrite (span_stop _ prop "]") by (exact Hpc || reflexivity).
  destruct prop as [|p0 prop]; [congruence|].
  destruct (span _ _) as [value r6]. discriminate.
Qed.

Lemma parse_line_nothing (self : KatharaParser.t) (line : string) :
  startswith "LAB_" line = false -> ~ node_line line ->
  KatharaParser._parse_line self line = Ok self.
Proof.
  intros Hlab Hn. unfold KatharaParser._parse_line. rewrite Hlab.
  destruct (KatharaParser.re_match line) as [[[nm prop] value]|] eqn:E; [|reflexivity].
  exfalso. apply Hn. exact (re_match_node_line _ _ _ _ E).
Qed.

Lemma parse_lines_nothing (lines : list string) (self : KatharaParser.t) :
  Forall declares_nothing lines -> KatharaParser.parse_lines self lines = Ok self.
Proof.
  induction lines as [|raw lines IH]; intros H; [reflexivity|].
  apply List.Forall_cons_iff in H as [H1 H2]. specialize (IH H2).
  cbn [KatharaParser.parse_lines]. cbv zeta.
  destruct (String.eqb (strip raw) "" || startswith "#" (strip raw)) eqn:E; [exact IH|].
  apply orb_false_iff in E as [E1 E2].
  destruct H1 as [H1 | [H1 | [H1 Hn]]].
  - cbv zeta in H1. rewrite H1 in E1. discriminate E1.
  - cbv zeta in H1. rewrite H1 in E2. discriminate E2.
  - rewrite (parse_line_nothing self _ H1 Hn). exact IH.
Qed.

Lemma text_unlines (ls : list string) : text ls = SVGGenerator.unlines ls.
Proof.
  unfold text. induction ls as [|l ls IH]; [reflexivity|].
  change ((l :: ls) ++ [""])%list with (l :: (ls ++ [""]))%list.
  cbn [SVGGenerator.unlines]. rewrite <- IH.
  destruct (ls ++ [""])%list as [|l' r] eqn:E; [destruct ls; discriminate E|].
  reflexivity.
Qed.

Lemma int_half_in_range (n : Z) :
  in_float_range n -> SVGGenerator.int_half n = Ok (IZR n / 2)%R.
Proof.
  unfold in_float_range, SVGGenerator.int_half. intros H.
  now apply Z.ltb_lt in H as ->.
Qed.

Lemma create_title_in_range (float_str : R -> string) (self : SVGGenerator.t) :
  in_float_range (SVGGenerator.width self) ->
  SVGGenerator._create_title float_str self
  = Ok (text (title_lines
                (float_str (IZR (SVGGenerator.width self) / 2)%R)
                (default "Kathara Network"
                   (KatharaParser.lab_info (SVGGenerator.parser self) !! "LAB_NAME"))
                (default "Network Topology"
                   (KatharaParser.lab_info (SVGGenerator.parser self) !! "LAB_DESCRIPTION")))).
Proof.
  intros H. unfold SVGGenerator._create_title. cbv zeta.
  rewrite (int_half_in_range _ H), text_unlines. reflexivity.
Qed.

Lemma create_svg_header_text (self : SVGGenerator.t) :
  SVGGenerator._create_svg_header self
  = text (header_lines (SVGGenerator.width self) (SVGGenerator.height self)).
Proof. rewrite text_unlines. reflexivity. Qed.

Lemma create_legend_text (self : SVGGenerator.t) :
  SVGGenerator._create_legend self = text (legend_lines (SVGGenerator.height self)).
Proof. rewrite text_unlines. reflexivity. Qed.

Lemma text_app (a b : list string) : text (a ++ b) = text a ++ text b.
Proof. rewrite !text_unlines. apply unlines_app. Qed.

(** the title of an empty lab on a canvas of width 10^400: the half of
    the width is beyond the float range *)
Lemma empty_input_overflow :
  KatharaParser.parse [] = Ok KatharaParser.init
  /\ forall float_str : R -> string,
       SVGGenerator.generate float_str
         (SVGGenerator.init KatharaParser.init (10 ^ 400) 800)
       = Raise OverflowError.
Proof.
  split; [reflexivity|]. intros float_str.
  unfold SVGGenerator.generate, mbind, result_bind.
  change (SVGGenerator._layout_nodes
            (SVGGenerator.init KatharaParser.init (10 ^ 400) 800))
    with (Ok (SVGGenerator.init KatharaParser.init (10 ^ 400) 800)).
  cbv zeta. unfold SVGGenerator._create_title, mbind, result_bind. cbv zeta.
  replace (SVGGenerator.int_half
             (SVGGenerator.width (SVGGenerator.init KatharaParser.init (10 ^ 400) 800)))
    with (@Raise R OverflowError) by (vm_compute; reflexivity).
  reflexivity.
Qed.

(** C7: a file without node or lab lines (blank lines, comments and
    text that is no declaration, or nothing at all), on a canvas within
    the float range, goes through the whole pipeline without an
    exception.  The graph is empty, the grid layout has zero columns and
    no node to divide for, and the document is the header, the title
    with the two placeholders, the two empty layers, the legend and the
    footer. *)
Theorem empty_input_document (float_str : R -> string) (lines : list string)
    (width height : Z) :
  ascii_lines lines ->
  Forall declares_nothing lines ->
  in_float_range width ->
  in_float_range height ->
  exists g,
    KatharaParser.parse lines = Ok g
    /\ KatharaParser.nodes g = []
    /\ KatharaParser.connections g = []
    /\ let gen := SVGGenerator.init g width height in
       Nat.sqrt_up (length (KatharaParser.nodes g)) = 0
       /\ SVGGenerator._layout_nodes gen = SVGGenerator._layout_hierarchical gen [] []
       /\ SVGGenerator._layout_hierarchical gen [] [] = Ok gen
       /\ SVGGenerator.generate float_str gen = Ok (empty_document float_str width height).
Proof.
  intros _ Hl Hw _. exists KatharaParser.init.
  split; [|split; [reflexivity | split; [reflexivity|]]].
  { unfold KatharaParser.parse. rewrite (parse_lines_nothing lines _ Hl). reflexivity. }
  intros gen.
  split; [reflexivity | split; [reflexivity | split; [reflexivity|]]].
  unfold SVGGenerator.generate, mbind, result_bind.
  change (SVGGenerator._layout_nodes gen) with (Ok gen). cbv beta iota zeta.
  rewrite (create_title_in_range float_str gen Hw).
  rewrite create_svg_header_text, create_legend_text.
  change (SVGGenerator._draw_connections float_str gen)
    with (SVGGenerator.unlines [""; "  <!-- Connections -->"]).
  change (SVGGenerator._draw_nodes float_str gen)
    with (SVGGenerator.unlines [""; "  <!-- Nodes -->"]).
  rewrite <- !text_unlines. unfold empty_document. rewrite !text_app.
  rewrite !append_assoc. reflexivity.
Qed.

Lemma nothing_declared_spec : Forall declares_nothing nothing_declared.
Proof.
  assert (Hn : forall line, KatharaParser.re_match line = None -> ~ node_line line).
  { intros line E H. exact (node_line_re_match line H E). }
  repeat (apply List.Forall_cons;
          [first [ left; reflexivity
                 | right; left; reflexivity
                 | right; right; split; [reflexivity | apply Hn; reflexivity] ]|]).
  apply List.Forall_nil.
Qed.

Lemma empty_input_document_witness :
  exists g,
    KatharaParser.parse nothing_declared = Ok g
    /\ KatharaParser.nodes g = []
    /\ SVGGenerator.generate (fun _ => "500.0") (SVGGenerator.init g 1000 800)
       = Ok (empty_document (fun _ => "500.0") 1000 800).
Proof.
  assert (Ha : ascii_lines nothing_declared) by reflexivity.
  assert (Hw : in_float_range 1000) by (vm_compute; reflexivity).
  assert (Hh : in_float_range 800) by (vm_compute; reflexivity).
  destruct (empty_input_document (fun _ => "500.0") nothing_declared 1000 800
              Ha nothing_declared_spec Hw Hh) as [g (Hp & Hn & _ & Hg)].
  exists g. split; [exact Hp | split; [exact Hn|]].
  exact (proj2 (proj2 (proj2 Hg))).
Defined.

(** * Further properties of the layout *)

(** ** The layout never raises and moves nodes only *)

Lemma erase_alter (a b : R) (k : string) (h : list (string * Node.t)) :
  erase_pos (Dict.alter (Node.set_pos a b) k h) = erase_pos h.
Proof.
  unfold erase_pos. induction h as [|[k0 n0] h IH]; simpl; [reflexivity|].
  destruct (String.eqb k k0); simpl; [reflexivity | now rewrite IH].
Qed.

Lemma erase_place_routers (self : SVGGenerator.t) (routers rs : list string) (i : nat)
    (h : list (string * Node.t)) :
  erase_pos (SVGGenerator.place_routers self routers i rs h) = erase_pos h.
Proof.
  revert i h. induction rs as [|r rs IH]; simpl; intros i h; [reflexivity|].
  now rewrite IH, erase_alter.
Qed.

Lemma erase_place_others (self : SVGGenerator.t) (routers other_nodes os : list string)
    (h : list (string * Node.t)) :
  erase_pos (fold_left (SVGGenerator.place_other self routers other_nodes) os h)
  = erase_pos h.
Proof.
  revert h. induction os as [|o os IH]; simpl; intros h; [reflexivity|].
  now rewrite IH, place_other_alter, erase_alter.
Qed.

Lemma place_grid_step (self : SVGGenerator.t) (count cols i : nat) (node : string)
    (rest : list string) (h : list (string * Node.t)) :
  cols <> 0%nat -> SVGGenerator.ceil_div count cols <> 0%nat ->
  SVGGenerator.place_grid self count cols i (node :: rest) h
  = SVGGenerator.place_grid self count cols (S i) rest
      (Dict.alter (Node.set_pos (grid_x self cols i) (grid_y self count cols i)) node h).
Proof.
  intros Hc Hr. simpl.
  destruct (Nat.eqb_spec cols 0) as [E|_]; [contradiction|].
  destruct (Nat.eqb_spec (SVGGenerator.ceil_div count cols) 0) as [E|_]; [contradiction|].
  reflexivity.
Qed.

Lemma place_grid_ok (self : SVGGenerator.t) (count cols : nat) (ns : list string) (i : nat)
    (h : list (string * Node.t)) :
  cols <> 0%nat -> SVGGenerator.ceil_div count cols <> 0%nat ->
  exists h', SVGGenerator.place_grid self count cols i ns h = Ok h'
             /\ erase_pos h' = erase_pos h.
Proof.
  intros Hc Hr. revert i h. induction ns as [|node rest IH]; intros i h.
  - exists h. split; reflexivity.
  - rewrite place_grid_step by assumption.
    destruct (IH (S i) (Dict.alter (Node.set_pos (grid_x self cols i)
                                                 (grid_y self count cols i)) node h))
      as [h' [H1 H2]].
    exists h'. split; [exact H1 | now rewrite H2, erase_alter].
Qed.

Lemma ceil_div_pos (count cols : nat) :
  (0 < count)%nat -> (0 < cols)%nat -> (0 < SVGGenerator.ceil_div count cols)%nat.
Proof.
  intros Hn Hc. unfold SVGGenerator.ceil_div. apply Nat.div_str_pos. lia.
Qed.

Lemma layout_hierarchical_ok (self : SVGGenerator.t) (routers other_nodes : list string) :
  exists h', SVGGenerator._layout_hierarchical self routers other_nodes
             = Ok (SVGGenerator.set_heap h' self)
             /\ erase_pos h' = erase_pos (SVGGenerator.heap self).
Proof.
  unfold SVGGenerator._layout_hierarchical. cbv zeta.
  destruct (routers ++ other_nodes)%list as [|node rest] eqn:E.
  - exists (SVGGenerator.heap self). split; reflexivity.
  - set (all := node :: rest).
    assert (Hn : (0 < length all)%nat) by (simpl; lia).
    assert (Hc : (0 < Nat.sqrt_up (length all))%nat) by now apply Nat.sqrt_up_pos.
    pose proof (ceil_div_pos _ _ Hn Hc) as Hr.
    destruct (place_grid_ok self (length all) (Nat.sqrt_up (length all)) all 0
                (SVGGenerator.heap self)) as [h' [H1 H2]]; [lia | lia |].
    exists h'. split; [|exact H2]. unfold mbind, result_bind. now rewrite H1.
Qed.

Lemma layout_nodes_ok (self : SVGGenerator.t) :
  exists h', SVGGenerator._layout_nodes self = Ok (SVGGenerator.set_heap h' self)
             /\ erase_pos h' = erase_pos (SVGGenerator.heap self).
Proof.
  unfold SVGGenerator._layout_nodes. cbv zeta.
  destruct (SVGGenerator._has_ring_topology self _).
  - eexists. split; [reflexivity|].
    now rewrite erase_place_others, erase_place_routers.
  - apply layout_hierarchical_ok.
Qed.


(** X10: on a canvas within the float range the layout never raises,
    whatever the graph: the grid layout divides by a column count and a
    row count that are positive as soon as there is a node to place.
    It changes nothing but the positions of the nodes: the canvas, the
    lab information, the connections and, positions apart, the dict of
    nodes with its order are as before. *)
Theorem layout_moves_nodes_only (self : SVGGenerator.t) :
  float_canvas self ->
  exists self',
    SVGGenerator._layout_nodes self = Ok self'
    /\ SVGGenerator.width self' = SVGGenerator.width self
    /\ SVGGenerator.height self' = SVGGenerator.height self
    /\ SVGGenerator.margin self' = SVGGenerator.margin self
    /\ KatharaParser.lab_info (SVGGenerator.parser self')
       = KatharaParser.lab_info (SVGGenerator.parser self)
    /\ KatharaParser.connections (SVGGenerator.parser self')
       = KatharaParser.connections (SVGGenerator.parser self)
    /\ erase_pos (SVGGenerator.heap self') = erase_pos (SVGGenerator.heap self).
Proof.
  intros _. destruct (layout_nodes_ok self) as [h' [H1 H2]].
  exists (SVGGenerator.set_heap h' self). repeat split; assumption.
Qed.

(** ** The grid layout *)

Lemma place_grid_other (self : SVGGenerator.t) (count cols : nat) (ns : list string)
    (i : nat) (h h' : list (string * Node.t)) (k : string) :
  cols <> 0%nat -> SVGGenerator.ceil_div count cols <> 0%nat ->
  ~ In k ns ->
  SVGGenerator.place_grid self count cols i ns h = Ok h' ->
  Dict.get k h' = Dict.get k h.
Proof.
  intros Hc Hr. revert i h. induction ns as [|node rest IH]; intros i h Hk H.
  - injection H as <-. reflexivity.
  - rewrite place_grid_step in H by assumption.
    rewrite (IH _ _ (fun Hin => Hk (or_intror Hin)) H), get_alter.
    destruct (String.eqb node k) eqn:E; [|reflexivity].
    apply String.eqb_eq in E. subst node. exfalso. apply Hk. now left.
Qed.

Lemma place_grid_nth (self : SVGGenerator.t) (count cols : nat) (ns : list string)
    (i j : nat) (h h' : list (string * Node.t)) (k : string) :
  cols <> 0%nat -> SVGGenerator.ceil_div count cols <> 0%nat ->
  List.NoDup ns -> nth_error ns j = Some k ->
  SVGGenerator.place_grid self count cols i ns h = Ok h' ->
  Dict.get k h'
  = Node.set_pos (grid_x self cols (i + j)) (grid_y self count cols (i + j))
      <$> Dict.get k h.
Proof.
  intros Hc Hr. revert i j h. induction ns as [|node rest IH]; intros i j h Hnd Hj H.
  - destruct j; discriminate Hj.
  - rewrite place_grid_step in H by assumption.
    apply List.NoDup_cons_iff in Hnd as [Hnode Hnd]. destruct j as [|j]; simpl in Hj.
    + injection Hj as ->.
      rewrite (place_grid_other _ _ _ _ _ _ _ _ Hc Hr Hnode H), get_alter.
      now rewrite String.eqb_refl, Nat.add_0_r.
    + rewrite (IH (S i) j _ Hnd Hj H), get_alter.
      replace (S i + j)%nat with (i + S j)%nat by lia.
      destruct (String.eqb node k) eqn:E; [|reflexivity].
      apply String.eqb_eq in E. subst node. exfalso. apply Hnode.
      eapply nth_error_In. exact Hj.
Qed.





Lemma In_nth_error_string (l : list string) (k : string) :
  In k l -> exists i, nth_error l i = Some k.
Proof. apply In_nth_error. Qed.

(** * Further properties of the rendering *)


Lemma append_nil_r (s : string) : s ++ "" = s.
Proof. induction s as [|c s IH]; [reflexivity|]. rewrite append_cons. now f_equal. Qed.

Lemma string_concat_cons (s : string) (l : list string) :
  String.concat "" (s :: l) = s ++ String.concat "" l.
Proof. destruct l; [symmetry; apply append_nil_r | reflexivity]. Qed.

Lemma fold_append {A : Type} (f : A -> string) (l : list A) (acc : string) :
  fold_left (fun svg a => svg ++ f a) l acc = acc ++ String.concat "" (map f l).
Proof.
  revert acc. induction l as [|a l IH]; intros acc.
  - symmetry. apply append_nil_r.
  - cbn [fold_left map]. now rewrite IH, append_assoc, string_concat_cons.
Qed.

Lemma draw_connection_short (float_str : R -> string) (h : list (string * Node.t))
    (c : Connection.t) :
  (2 <=? length (Connection.nodes c))%nat = false ->
  SVGGenerator.draw_connection float_str h c = "".
Proof.
  unfold SVGGenerator.draw_connection.
  destruct (Connection.nodes c) as [|[n1 i1] [|[n2 i2] l]]; simpl;
    [reflexivity | reflexivity | discriminate].
Qed.

Lemma string_concat_skip (l : list string) : String.concat "" ("" :: l) = String.concat "" l.
Proof. now rewrite string_concat_cons. Qed.

(** X16: a connection of fewer than two members leaves no trace in the
    connections layer: the layer of a graph is the layer of the graph
    without these connections. *)
Theorem short_connections_are_not_drawn (float_str : R -> string) (self : SVGGenerator.t) :
  SVGGenerator._draw_connections float_str self
  = SVGGenerator._draw_connections float_str (without_short_connections self).
Proof.
  unfold SVGGenerator._draw_connections, without_short_connections, SVGGenerator.heap,
    KatharaParser.set_connections.
  cbn [SVGGenerator.parser KatharaParser.connections KatharaParser.nodes].
  rewrite !fold_append. f_equal.
  induction (KatharaParser.connections (SVGGenerator.parser self)) as [|kc cs IH];
    [reflexivity|].
  cbn [map List.filter].
  destruct (2 <=? length (Connection.nodes (snd kc)))%nat eqn:E.
  - cbn [map]. rewrite !string_concat_cons. f_equal. exact IH.
  - rewrite (draw_connection_short _ _ _ E), string_concat_skip. exact IH.
Qed.


(** * The further properties on sample files *)

Lemma sample_lab_parses : KatharaParser.parse sample_lab = Ok (parsed sample_lab).
Proof. vm_compute. reflexivity. Qed.

Lemma sample_lab_ascii : ascii_lines sample_lab.
Proof. reflexivity. Qed.

Lemma sample_lab_pc1 :
  Dict.get "pc1" (KatharaParser.nodes (parsed sample_lab))
  = Some (node_of (parsed sample_lab) "pc1").
Proof. vm_compute. reflexivity. Qed.

Lemma parsed_dicts_are_keyed_witness :
  List.NoDup (Dict.keys (KatharaParser.nodes (parsed sample_lab)))
  /\ Node.name (node_of (parsed sample_lab) "pc1") = "pc1".
Proof.
  destruct (parsed_dicts_are_keyed sample_lab _ sample_lab_parses) as (H1 & _ & H3 & _).
  split; [exact H1|].
  apply (H3 "pc1"). apply get_Some_In. exact sample_lab_pc1.
Defined.

Lemma parsed_members_are_nodes_witness :
  (1 <= length (Connection.nodes (connection_of (parsed sample_lab) "B")))%nat.
Proof.
  assert (Hin : In ("B", connection_of (parsed sample_lab) "B")
                   (KatharaParser.connections (parsed sample_lab)))
    by (apply get_Some_In; vm_compute; reflexivity).
  exact (proj1 (parsed_members_are_nodes sample_lab _ "B" _ sample_lab_parses Hin)).
Defined.

Lemma parsed_nodes_in_first_occurrence_order_witness :
  Dict.keys (KatharaParser.nodes (parsed sample_lab)) = ["r1"; "pc1"].
Proof.
  rewrite (parsed_nodes_in_first_occurrence_order sample_lab _ sample_lab_ascii
             sample_lab_parses).
  vm_compute. reflexivity.
Defined.

Lemma parsed_node_names_witness :
  "pc1" <> "" /\ forall_chars is_word "pc1" = true /\ startswith "LAB_" "pc1" = false.
Proof.
  apply (parsed_node_names sample_lab _ "pc1" (node_of (parsed sample_lab) "pc1")
           sample_lab_ascii sample_lab_parses).
  apply get_Some_In. exact sample_lab_pc1.
Defined.

Lemma lab_info_last_write_witness :
  KatharaParser.lab_info (parsed sample_lab) !! "LAB_NAME" = Some "Demo lab".
Proof.
  rewrite (lab_info_last_write sample_lab _ "LAB_NAME" sample_lab_ascii
             sample_lab_parses).
  vm_compute. reflexivity.
Defined.

Lemma node_attributes_last_write_witness :
  Node.interfaces (node_of (parsed sample_lab) "pc1") !! "0" = Some "A"
  /\ Node.properties (node_of (parsed sample_lab) "pc1") !! "bridged" = Some "true".
Proof.
  destruct (node_attributes_last_write sample_lab _ "pc1" _ sample_lab_ascii
              sample_lab_parses sample_lab_pc1) as (_ & H2 & H3).
  split.
  - rewrite (H2 "0") by reflexivity. vm_compute. reflexivity.
  - rewrite (H3 "bridged") by (discriminate || reflexivity). vm_compute. reflexivity.
Defined.

Lemma interfaces_are_memberships_witness :
  exists c, Dict.get "A" (KatharaParser.connections (parsed sample_lab)) = Some c
            /\ In ("pc1", "0") (Connection.nodes c).
Proof.
  assert (Hi : Node.interfaces (node_of (parsed sample_lab) "pc1") !! "0" = Some "A")
    by (vm_compute; reflexivity).
  exact (proj2 (interfaces_are_memberships sample_lab _ "pc1" _ "0" "A"
                  sample_lab_ascii sample_lab_parses sample_lab_pc1 Hi)).
Defined.

Lemma node_line_round_trip_witness :
  KatharaParser.re_match (q "pc1[bridged]='true'") = Some ("pc1", "bridged", "true").
Proof.
  assert (Hw : word_name "pc1") by (split; [discriminate | reflexivity]).
  assert (Hp : "bridged" <> "") by discriminate.
  exact (proj1 (node_line_round_trip "pc1" "bridged" "true" Hw Hp eq_refl eq_refl)).
Defined.




(** * Further properties of the classification *)

Lemma lower_upper_char (c : ascii) : lower_char (upper_char c) = lower_char c.
Proof. destruct c as [[] [] [] [] [] [] [] []]; reflexivity. Qed.

Lemma lower_lower_char (c : ascii) : lower_char (lower_char c) = lower_char c.
Proof. destruct c as [[] [] [] [] [] [] [] []]; reflexivity. Qed.

Lemma lower_upper (s : string) : lower (upper s) = lower s.
Proof.
  unfold lower, upper. induction s as [|c s IH]; simpl; [reflexivity|].
  now rewrite lower_upper_char, IH.
Qed.

Lemma lower_lower (s : string) : lower (lower s) = lower s.
Proof.
  unfold lower. induction s as [|c s IH]; simpl; [reflexivity|].
  now rewrite lower_lower_char, IH.
Qed.

(** X17: the classification of a node ignores the case of an ASCII
    name and of an ASCII image: writing them in upper case, or in lower
    case, gives the same node type. *)
Theorem classification_ignores_case (nm img : string) :
  ascii_text nm = true ->
  ascii_text img = true ->
  Node.classified_type (upper nm) (upper img) = Node.classified_type nm img
  /\ Node.classified_type (lower nm) (lower img) = Node.classified_type nm img.
Proof.
  intros _ _. unfold Node.classified_type. cbv zeta.
  now rewrite !lower_upper, !lower_lower.
Qed.

Lemma classification_ignores_case_witness :
  Node.classified_type "SERVER1" "KATHARA/BASE" = Node.classified_type "server1" "kathara/base"
  /\ Node.classified_type "Zabbix" "" = Server.
Proof.
  split.
  - exact (proj1 (classification_ignores_case "server1" "kathara/base" eq_refl eq_refl)).
  - rewrite <- (proj2 (classification_ignores_case "Zabbix" "" eq_refl eq_refl)).
    reflexivity.
Defined.

(** ** The layout ignores the positions the nodes had *)

Lemma dict_ext {V : Type} (d1 d2 : list (string * V)) :
  Dict.keys d1 = Dict.keys d2 ->
  List.NoDup (Dict.keys d1) ->
  (forall k, In k (Dict.keys d1) -> Dict.get k d1 = Dict.get k d2) ->
  d1 = d2.
Proof.
  revert d2. induction d1 as [|[k1 v1] d1 IH]; intros [|[k2 v2] d2] Hk Hnd Hg;
    try discriminate Hk; [reflexivity|].
  simpl in Hk. injection Hk as <- Hk.
  apply List.NoDup_cons_iff in Hnd as [Hk1 Hnd].
  pose proof (Hg k1 (or_introl eq_refl)) as H1. simpl in H1.
  rewrite String.eqb_refl in H1. injection H1 as <-.
  f_equal. apply IH; [exact Hk | exact Hnd |].
  intros k Hin. specialize (Hg k (or_intror Hin)). simpl in Hg.
  destruct (String.eqb k k1) eqn:E; [|exact Hg].
  apply String.eqb_eq in E. subst k. contradiction.
Qed.

Lemma erase_keys (h : list (string * Node.t)) : Dict.keys (erase_pos h) = Dict.keys h.
Proof. apply (keys_map_values (Node.set_pos 0 0)). Qed.

Lemma erase_get (h : list (string * Node.t)) (k : string) :
  Dict.get k (erase_pos h) = Node.set_pos 0 0 <$> Dict.get k h.
Proof. apply (get_map_values (Node.set_pos 0 0)). Qed.

Lemma set_pos_erased (a b : R) (o1 o2 : option Node.t) :
  Node.set_pos 0 0 <$> o1 = Node.set_pos 0 0 <$> o2 ->
  Node.set_pos a b <$> o1 = Node.set_pos a b <$> o2.
Proof.
  destruct o1 as [n1|], o2 as [n2|]; simpl; try discriminate; [|reflexivity].
  intros H. injection H as H1 H2 H3 H4 H5. unfold Node.set_pos. now rewrite H1, H2, H3, H4, H5.
Qed.

Lemma erased_type (o1 o2 : option Node.t) :
  Node.set_pos 0 0 <$> o1 = Node.set_pos 0 0 <$> o2 ->
  Node.node_type <$> o1 = Node.node_type <$> o2.
Proof.
  destruct o1 as [n1|], o2 as [n2|]; simpl; try discriminate; [|reflexivity].
  intros H. injection H as H1 H2 H3 H4 H5. now rewrite H5.
Qed.

Section SamePositionsApart.
Variables h h1 : list (string * Node.t).
Hypothesis erased : erase_pos h1 = erase_pos h.

Lemma erased_get (k : string) :
  Node.set_pos 0 0 <$> Dict.get k h1 = Node.set_pos 0 0 <$> Dict.get k h.
Proof. now rewrite <- !erase_get, erased. Qed.

Lemma erased_keys : Dict.keys h1 = Dict.keys h.
Proof. now rewrite <- (erase_keys h1), erased, erase_keys. Qed.

Lemma erased_select (p : NodeType -> bool) : SVGGenerator.select p h1 = SVGGenerator.select p h.
Proof.
  assert (H : forall l, SVGGenerator.select p (erase_pos l) = SVGGenerator.select p l).
  { intros l. unfold SVGGenerator.select, erase_pos.
    induction l as [|[k n] l IH]; simpl; [reflexivity|].
    destruct (p (Node.node_type n)); simpl; now rewrite IH. }
  now rewrite <- (H h1), erased, H.
Qed.

Lemma erased_is_router (k : string) : is_router h1 k = is_router h k.
Proof.
  unfold is_router. pose proof (erased_type _ _ (erased_get k)) as H.
  destruct (Dict.get k h1), (Dict.get k h); simpl in H; try discriminate H;
    [now injection H as -> | reflexivity].
Qed.
End SamePositionsApart.

Lemma keys_are_selected (h : list (string * Node.t)) (k : string) :
  In k (Dict.keys h) ->
  In k (SVGGenerator.routers_of h ++ SVGGenerator.other_nodes_of h)%list.
Proof.
  intros Hin. apply in_map_iff in Hin as [[k0 n] [Hk Hin]]. simpl in Hk. subst k0.
  apply in_app_iff. destruct (bool_decide (Node.node_type n = Router)) eqn:E.
  - left. apply select_In. eauto.
  - right. apply select_In. exists n. split; [exact Hin | now rewrite E].
Qed.

Lemma other_target_positions (self : SVGGenerator.t) (routers other_nodes : list string)
    (h h' : list (string * Node.t)) (node : string) :
  (forall r, In r routers ->
     Node.x (SVGGenerator.deref h' r) = Node.x (SVGGenerator.deref h r)
     /\ Node.y (SVGGenerator.deref h' r) = Node.y (SVGGenerator.deref h r)) ->
  other_target self routers other_nodes h' node
  = other_target self routers other_nodes h node.
Proof.
  intros Hext. unfold other_target.
  destruct (SVGGenerator._find_connected_router self node routers) as [r|] eqn:E;
    [|reflexivity].
  apply find_connected_router_In in E. destruct (Hext r E) as [-> ->]. reflexivity.
Qed.

Lemma ring_heap_ignores_positions (self : SVGGenerator.t) (h h1 : list (string * Node.t)) :
  List.NoDup (Dict.keys h) ->
  erase_pos h1 = erase_pos h ->
  let routers := SVGGenerator.routers_of h in
  let other_nodes := SVGGenerator.other_nodes_of h in
  fold_left (SVGGenerator.place_other self routers other_nodes) other_nodes
            (SVGGenerator.place_routers self routers 0 routers h1)
  = fold_left (SVGGenerator.place_other self routers other_nodes) other_nodes
              (SVGGenerator.place_routers self routers 0 routers h).
Proof.
  intros Hnd Her routers other_nodes.
  set (hr1 := SVGGenerator.place_routers self routers 0 routers h1).
  set (hr := SVGGenerator.place_routers self routers 0 routers h).
  assert (HR : List.NoDup routers) by now apply select_NoDup.
  assert (HO : List.NoDup other_nodes) by now apply select_NoDup.
  assert (Hdisj : forall r, In r routers -> ~ In r other_nodes).
  { intros r Hr Ho. exact (routers_others_disjoint _ r Hnd Hr Ho). }
  assert (Hrouter : forall r, In r routers ->
             Node.x (SVGGenerator.deref hr1 r) = Node.x (SVGGenerator.deref hr r)
             /\ Node.y (SVGGenerator.deref hr1 r) = Node.y (SVGGenerator.deref hr r)).
  { intros r Hr. destruct (In_nth_error_string _ _ Hr) as [i Hi].
    unfold SVGGenerator.deref. subst hr1 hr.
    rewrite !(place_routers_nth self routers routers 0 i _ r HR Hi).
    pose proof (erased_get h h1 Her r) as Hg.
    destruct (select_get _ _ r Hnd Hr) as [n [Hn _]]. rewrite Hn in Hg |- *.
    destruct (Dict.get r h1) as [n1|]; [|discriminate Hg]. split; reflexivity. }
  assert (E1 : erase_pos (fold_left (SVGGenerator.place_other self routers other_nodes)
                                    other_nodes hr1) = erase_pos h).
  { subst hr1. now rewrite erase_place_others, erase_place_routers. }
  assert (E2 : erase_pos (fold_left (SVGGenerator.place_other self routers other_nodes)
                                    other_nodes hr) = erase_pos h).
  { subst hr. now rewrite erase_place_others, erase_place_routers. }
  apply dict_ext.
  - now rewrite (erased_keys _ _ E1), (erased_keys _ _ E2).
  - now rewrite (erased_keys _ _ E1).
  - intros k Hk.
    assert (Hk' : In k (Dict.keys h)) by now rewrite <- (erased_keys _ _ E1).
    apply keys_are_selected in Hk'. apply in_app_iff in Hk' as [Hr|Ho].
    + rewrite !place_others_other by exact (Hdisj k Hr).
      destruct (In_nth_error_string _ _ Hr) as [i Hi]. subst hr1 hr.
      rewrite !(place_routers_nth self routers routers 0 i _ k HR Hi).
      apply set_pos_erased. now apply erased_get.
    + rewrite !(place_others_member self routers other_nodes other_nodes _ k HO Ho Hdisj).
      rewrite (other_target_positions self routers other_nodes hr hr1 k Hrouter).
      subst hr1 hr.
      rewrite !place_routers_other by (intros Hr; exact (Hdisj k Hr Ho)).
      apply set_pos_erased. now apply erased_get.
Qed.

Lemma grid_heap_ignores_positions (self : SVGGenerator.t) (count cols : nat)
    (ns : list string) (h h1 : list (string * Node.t)) :
  List.NoDup (Dict.keys h) ->
  erase_pos h1 = erase_pos h ->
  List.NoDup ns ->
  (forall k, In k (Dict.keys h) -> In k ns) ->
  cols <> 0%nat -> SVGGenerator.ceil_div count cols <> 0%nat ->
  SVGGenerator.place_grid self count cols 0 ns h1
  = SVGGenerator.place_grid self count cols 0 ns h.
Proof.
  intros Hnd Her Hns Hall Hc Hr.
  destruct (place_grid_ok self count cols ns 0 h1 Hc Hr) as [g1 [H1 E1]].
  destruct (place_grid_ok self count cols ns 0 h Hc Hr) as [g [H2 E2]].
  rewrite H1, H2. f_equal. rewrite Her in E1. apply dict_ext.
  - now rewrite (erased_keys _ _ E1), (erased_keys _ _ E2).
  - now rewrite (erased_keys _ _ E1).
  - intros k Hk.
    assert (Hk' : In k (Dict.keys h)) by now rewrite <- (erased_keys _ _ E1).
    destruct (In_nth_error_string _ _ (Hall k Hk')) as [j Hj].
    rewrite (place_grid_nth self count cols ns 0 j h1 g1 k Hc Hr Hns Hj H1).
    rewrite (place_grid_nth self count cols ns 0 j h g k Hc Hr Hns Hj H2).
    apply set_pos_erased. now apply erased_get.
Qed.

Lemma router_pairs_ignore_positions (self : SVGGenerator.t) (h1 : list (string * Node.t)) :
  erase_pos h1 = erase_pos (SVGGenerator.heap self) ->
  router_pair_connections (SVGGenerator.set_heap h1 self) = router_pair_connections self.
Proof.
  intros Her. unfold router_pair_connections. f_equal.
  apply List.filter_ext. intros kc. f_equal.
  unfold Connection.router_count. f_equal. apply List.filter_ext. intros m.
  exact (erased_is_router _ _ Her (fst m)).
Qed.

(** X18: the layout ignores the positions the nodes had: two graphs
    that differ in positions only are laid out alike.  So laying out a
    graph a second time moves nothing. *)
Theorem layout_ignores_old_positions (self : SVGGenerator.t) (h1 : list (string * Node.t)) :
  List.NoDup (Dict.keys (SVGGenerator.heap self)) ->
  erase_pos h1 = erase_pos (SVGGenerator.heap self) ->
  SVGGenerator._layout_nodes (SVGGenerator.set_heap h1 self)
  = SVGGenerator._layout_nodes self
  /\ forall self', SVGGenerator._layout_nodes self = Ok self' ->
                   SVGGenerator._layout_nodes self' = Ok self'.
Proof.
  assert (Hmain : forall (s : SVGGenerator.t) (g1 : list (string * Node.t)),
            List.NoDup (Dict.keys (SVGGenerator.heap s)) ->
            erase_pos g1 = erase_pos (SVGGenerator.heap s) ->
            SVGGenerator._layout_nodes (SVGGenerator.set_heap g1 s)
            = SVGGenerator._layout_nodes s).
  { intros s g1 Hnd Her. unfold SVGGenerator._layout_nodes. cbv zeta.
    change (SVGGenerator.heap (SVGGenerator.set_heap g1 s)) with g1.
    unfold SVGGenerator.routers_of, SVGGenerator.other_nodes_of.
    rewrite !(erased_select _ _ Her).
    fold (SVGGenerator.routers_of (SVGGenerator.heap s)).
    fold (SVGGenerator.other_nodes_of (SVGGenerator.heap s)).
    set (routers := SVGGenerator.routers_of (SVGGenerator.heap s)).
    set (other_nodes := SVGGenerator.other_nodes_of (SVGGenerator.heap s)).
    rewrite !has_ring_topology_spec, (router_pairs_ignore_positions s g1 Her).
    destruct (_ && _).
    - f_equal.
      exact (f_equal (fun x => SVGGenerator.set_heap x s)
               (ring_heap_ignores_positions s (SVGGenerator.heap s) g1 Hnd Her)).
    - unfold SVGGenerator._layout_hierarchical. cbv zeta.
      destruct (routers ++ other_nodes)%list as [|node rest] eqn:E.
      + assert (Hh : SVGGenerator.heap s = []).
        { destruct (SVGGenerator.heap s) as [|[k n] l] eqn:Eh; [reflexivity|].
          assert (Hin : In k (routers ++ other_nodes)%list).
          { subst routers other_nodes. apply keys_are_selected. try rewrite Eh; now left. }
          rewrite E in Hin. destruct Hin. }
        assert (Hg : g1 = SVGGenerator.heap s).
        { rewrite Hh in Her. destruct g1; [now rewrite Hh | discriminate Her]. }
        rewrite Hg. reflexivity.
      + set (all := node :: rest) in *.
        assert (Hn : (0 < length all)%nat) by (simpl; lia).
        assert (Hc : (0 < Nat.sqrt_up (length all))%nat) by now apply Nat.sqrt_up_pos.
        pose proof (ceil_div_pos _ _ Hn Hc) as Hr.
        assert (Hg : SVGGenerator.place_grid s (length all) (Nat.sqrt_up (length all)) 0 all g1
                     = SVGGenerator.place_grid s (length all) (Nat.sqrt_up (length all)) 0 all
                         (SVGGenerator.heap s)).
        { apply grid_heap_ignores_positions; [exact Hnd | exact Her | | | lia | lia].
          - rewrite <- E. apply List.NoDup_app;
              [now apply select_NoDup | now apply select_NoDup |].
            intros a Ha Ho. exact (routers_others_disjoint _ a Hnd Ha Ho).
          - intros k Hk. rewrite <- E. now apply keys_are_selected. }
        transitivity
          (mbind (fun x => Ok (SVGGenerator.set_heap x s))
                 (SVGGenerator.place_grid s (length all) (Nat.sqrt_up (length all)) 0 all g1));
          [reflexivity|].
        rewrite Hg. reflexivity. }
  intros Hnd Her. split; [now apply Hmain|].
  intros self' Hl. destruct (layout_nodes_ok self) as [h' [H1 H2]].
  rewrite H1 in Hl. injection Hl as <-.
  rewrite (Hmain self h' Hnd H2). exact H1.
Qed.

Lemma layout_ignores_old_positions_witness :
  exists self',
    SVGGenerator._layout_nodes triangle_generator = Ok self'
    /\ SVGGenerator._layout_nodes self' = Ok self'.
Proof.
  destruct (layout_nodes_ok triangle_generator) as [h' [H1 _]].
  exists (SVGGenerator.set_heap h' triangle_generator). split; [exact H1|].
  apply (proj2 (layout_ignores_old_positions triangle_generator
                  (SVGGenerator.heap triangle_generator) triangle_NoDup eq_refl)).
  exact H1.
Defined.

(** * The properties of the outcome, the layout and the colours on sample files *)

Lemma parse_outcome_witness :
  existsb lab_line_without_equals sample_lab = false
  /\ exists e, KatharaParser.parse [q "pc1[0]='A'"; "LAB_NAME"] = Raise e /\ e = ValueError.
Proof.
  split.
  - pose proof (parse_outcome sample_lab sample_lab_ascii) as H.
    rewrite sample_lab_parses in H. exact H.
  - pose proof (parse_outcome [q "pc1[0]='A'"; "LAB_NAME"] eq_refl) as H.
    destruct (KatharaParser.parse [q "pc1[0]='A'"; "LAB_NAME"]) as [g|e].
    + vm_compute in H. discriminate H.
    + exists e. split; [reflexivity | exact (proj1 H)].
Defined.

Lemma triangle_canvas : float_canvas triangle_generator.
Proof. unfold float_canvas. repeat split; vm_compute; congruence. Qed.

Lemma layout_moves_nodes_only_witness :
  exists self',
    SVGGenerator._layout_nodes triangle_generator = Ok self'
    /\ SVGGenerator.width self' = 1000%Z
    /\ Dict.keys (SVGGenerator.heap self') = ["r1"; "r2"; "r3"].
Proof.
  destruct (layout_moves_nodes_only triangle_generator triangle_canvas)
    as [self' (H1 & H2 & _ & _ & _ & _ & H7)].
  exists self'. split; [exact H1 | split; [exact H2|]].
  rewrite <- (erase_keys (SVGGenerator.heap self')), H7, erase_keys.
  exact triangle_keys.
Defined.


